(** * iso8601: ISO-8601 durations, parser and formatter

    A shallow embedding of [duration.go] (package [iso8601]):
    [ParseDuration], its scanners [leadingInt] and [leadingFraction], the
    unit resolvers [sampleUnits.unit] and [duration.unit] with the calendar
    units [month] and [year], and [FormatDuration] with [fmtInt] and
    [fmtFrac].

    Conventions of the embedding:
    - [uint64] and [int64] ([time.Duration]) values are integers of [Z];
      every arithmetic operation of the source is followed by the
      wrap-around of its type ([u64], [i64]);
    - a Go [string] is a [string] of bytes; [s[0]], [s[1:]] and [len(s)]
      are pattern matching and [String.length];
    - [float64] is the IEEE-754 binary64 format of the standard library's
      [SpecFloat] ([prec = 53], [emax = 1024], round to nearest even);
    - an [error] is identified with the sentinel it wraps (what [errors.Is]
      observes); the text built around it by [fmt.Errorf] is left out;
    - the package [time] is outside of the repository: the calendar
      operations the code calls are fields of the class [Runtime];
    - [log.Println] in the parser loop writes to the standard logger and
      has no effect on the values computed; it is left out. *)

From Stdlib Require Import ZArith Bool List String Ascii Lia SpecFloat.
Import ListNotations.

Local Open Scope string_scope.
Local Open Scope Z_scope.

(** ** Machine integers *)

Module Word.

Definition two63 : Z := 9223372036854775808.
Definition two64 : Z := 18446744073709551616.

(** Wrap-around of [uint64] arithmetic. *)
Definition u64 (z : Z) : Z := z mod two64.

(** Conversion to [int64] (two's complement), also the wrap-around of
    [int64] arithmetic. *)
Definition i64 (z : Z) : Z :=
  let r := z mod two64 in
  if r <? two63 then r else r - two64.

Definition in_i64 (z : Z) : Prop := - two63 <= z < two63.

End Word.
Import Word.

(** ** Errors and outcomes *)

(** The sentinels of the [var] block at the head of [duration.go]. *)
Inductive error : Set :=
| ErrInvalidDuration
| ErrMissingUnit
| ErrUnknownUnit
| ErrOverflow
| ErrLeadingInt.

(** The three sentinels [ParseDuration] wraps. *)
Definition reported (e : error) : Prop :=
  e = ErrInvalidDuration \/ e = ErrMissingUnit \/ e = ErrOverflow.

(** The outcome of a call: a value with a [nil] error, a non-[nil] error,
    a run-time panic (index out of range), or, for the loops that are
    written with fuel, the fuel running out. *)
Inductive outcome (A : Type) : Type :=
| Ok (a : A)
| Err (e : error)
| Panic
| OutOfFuel.

Arguments Ok {A} a.
Arguments Err {A} e.
Arguments Panic {A}.
Arguments OutOfFuel {A}.

(** ** Bytes *)

Definition code (c : ascii) : Z := Z.of_N (N_of_ascii c).

(** ['0' <= c && c <= '9'] *)
Definition is_digit (c : ascii) : bool :=
  (code "0" <=? code c) && (code c <=? code "9").

(** [c < '0' || c > '9'] *)
Definition not_digit (c : ascii) : bool :=
  (code c <? code "0") || (code c >? code "9").

(** [c == '.' || '0' <= c && c <= '9'] *)
Definition dot_or_digit (c : ascii) : bool := (c =? ".")%char || is_digit c.

(** [c == '.' || '0' <= c && c <= '9' || c == 'T'], the bytes that end a
    unit name. *)
Definition ends_unit (c : ascii) : bool := dot_or_digit c || (c =? "T")%char.

(** [s[n:]] for [n <= len(s)]. *)
Fixpoint skip (n : nat) (s : string) : string :=
  match n, s with
  | O, _ => s
  | S n', String _ s' => skip n' s'
  | S _, EmptyString => EmptyString
  end.

(** [s[:n]] for [n <= len(s)]. *)
Fixpoint take (n : nat) (s : string) : string :=
  match n, s with
  | O, _ => EmptyString
  | S n', String c s' => String c (take n' s')
  | S _, EmptyString => EmptyString
  end.

(** ** float64 *)

Module F64.

Definition float64 : Set := spec_float.

Definition prec : Z := 53.
Definition emax : Z := 1024.

Definition mul : float64 -> float64 -> float64 := SFmul prec emax.
Definition div : float64 -> float64 -> float64 := SFdiv prec emax.

(** [float64(z)] for an integer [z]: the nearest float, ties to even. *)
Definition of_Z (z : Z) : float64 := binary_normalize prec emax z 0 false.

Definition zero : float64 := S754_zero false.
Definition one : float64 := of_Z 1.
Definition ten : float64 := of_Z 10.

(** [x == 0] and [x != 0] on floats (a NaN differs from everything). *)
Definition is_zero (x : float64) : bool := SFeqb x zero.

(** The integer part of a finite float, rounded toward zero. *)
Definition trunc (x : float64) : option Z :=
  match x with
  | S754_zero _ => Some 0
  | S754_finite s m e =>
      let a := if 0 <=? e then Zpos m * 2 ^ e else Zpos m / 2 ^ (- e) in
      Some (if s then - a else a)
  | S754_infinity _ | S754_nan => None
  end.

(** The number of bits of a mantissa. *)
Definition dg (p : positive) : Z := Zpos (digits2_pos p).

(** The float of a positive integer below [2^53], in normal form. *)
Definition normal (z : Z) : float64 :=
  let d := Z.log2 z + 1 in
  S754_finite false (Z.to_pos (z * 2 ^ (53 - d))) (d - 53).

End F64.
Import F64.

(** ** What the code takes from outside of the repository *)

(** The operations of [time.Time] the resolvers call, and the one point
    where the language leaves the result open: the conversion
    [uint64(x)] of a float whose integer part is not a [uint64] value
    "succeeds but the result value is implementation-dependent". *)
Class Runtime : Type := {
  Time : Type;
  (** [t.AddDate(years, months, days)] *)
  AddDate : Time -> Z -> Z -> Z -> Time;
  (** [t.Sub(u)], a [time.Duration] *)
  Sub : Time -> Time -> Z;
  (** [t.Add(d)] *)
  Add : Time -> Z -> Time;
  (** [uint64(x)] where [x] is out of the range of [uint64] *)
  cvt_unrepresentable : float64 -> Z
}.

Section Parser.

Context {rt : Runtime}.

(** [uint64(x)] for a float [x]. *)
Definition to_u64 (x : float64) : Z :=
  match trunc x with
  | Some z => if (0 <=? z) && (z <? two64) then z else u64 (cvt_unrepresentable x)
  | None => u64 (cvt_unrepresentable x)
  end.

(** *** leadingInt *)

(** The loop of [leadingInt]: [x] is the value accumulated so far and
    [s] is [s[i:]]. *)
Fixpoint leadingInt_from (x : Z) (s : string) : outcome (Z * string) :=
  match s with
  | EmptyString => Ok (x, s)
  | String c s' =>
      if not_digit c then Ok (x, s)
      else if x >? two63 / 10 then Err ErrLeadingInt
      else
        let x := u64 (u64 (u64 (x * 10) + code c) - code "0") in
        if x >? two63 then Err ErrLeadingInt
        else leadingInt_from x s'
  end.

Definition leadingInt (s : string) : outcome (Z * string) :=
  leadingInt_from 0 s.

(** *** leadingFraction *)

(** The loop of [leadingFraction]; it has no error result. *)
Fixpoint leadingFraction_from (x : Z) (scale : float64) (overflow : bool)
    (s : string) : Z * float64 * string :=
  match s with
  | EmptyString => (x, scale, s)
  | String c s' =>
      if not_digit c then (x, scale, s)
      else if overflow then leadingFraction_from x scale overflow s'
      else if x >? (two63 - 1) / 10 then leadingFraction_from x scale true s'
      else
        let y := u64 (u64 (u64 (x * 10) + code c) - code "0") in
        if y >? two63 then leadingFraction_from x scale true s'
        else leadingFraction_from y (mul scale ten) overflow s'
  end.

Definition leadingFraction (s : string) : Z * float64 * string :=
  leadingFraction_from 0 one false s.

(** *** The unit tables *)

Definition Second : Z := 1000000000.
Definition Minute : Z := 60 * Second.
Definition Hour : Z := 60 * Minute.

(** A Go map with string keys and few entries, as an association list. *)
Fixpoint get {V : Type} (m : list (string * V)) (k : string) : option V :=
  match m with
  | [] => None
  | (k', v) :: m' => if String.eqb k k' then Some v else get m' k
  end.

Definition sampleUnits : Type := list (string * Z).

Definition dateUnit : sampleUnits := [("D", u64 (Hour * 24))].

Definition timeUnits : sampleUnits :=
  [("S", u64 Second); ("M", u64 Minute); ("H", u64 Hour)].

(** [month] and [year]; [int(v)] is the conversion to the 64-bit [int]. *)
Definition month (from : Time) (v : Z) (scale : float64) : Z :=
  if is_zero scale then u64 (i64 (Sub (AddDate from 0 (i64 v) 0) from))
  else to_u64 (mul (of_Z v)
                   (div (of_Z (i64 (Sub (AddDate from 0 1 0) from))) scale)).

Definition year (from : Time) (v : Z) (scale : float64) : Z :=
  if is_zero scale then u64 (i64 (Sub (AddDate from (i64 v) 0 0) from))
  else to_u64 (mul (of_Z v)
                   (div (of_Z (i64 (Sub (AddDate from 1 0 0) from))) scale)).

Definition units : list (string * (Time -> Z -> float64 -> Z)) :=
  [("M", month); ("Y", year)].

(** [sampleUnits.unit] *)
Definition sampleUnits_unit (s : sampleUnits) (name : string) (v : Z)
    (scale : float64) : outcome Z :=
  match get s name with
  | Some unit =>
      if negb (is_zero scale) then
        let v := to_u64 (mul (of_Z v) (div (of_Z unit) scale)) in
        if v >? two63 then Err ErrOverflow else Ok v
      else if v >? two63 / unit then Err ErrOverflow
      else Ok (u64 (v * unit))
  | None => Err ErrMissingUnit
  end.

(** [duration.unit]. The receiver [d] holds the one field [from], a
    function; the method calls it at most once and then replaces it by a
    constant function. The state is the instant [d.from()] returns, and
    the result carries the new state. *)
Definition duration_unit (from : Time) (name : string) (v : Z)
    (scale : float64) : outcome Z * Time :=
  match get dateUnit name with
  | Some _ => (sampleUnits_unit dateUnit name v scale, from)
  | None =>
      match get units name with
      | Some unit =>
          let out := unit from v scale in
          if out >? two63 then (Err ErrOverflow, from)
          else (Ok out, Add from (i64 out))
      | None => (Err ErrMissingUnit, from)
      end
  end.

(** *** ParseDuration *)

(** The variables the loop of [ParseDuration] carries from one turn to
    the next: the total [d], the instant behind [option.from], whether
    [unit] is [timeUnits.unit] (after a [T]) or still [option.unit]. *)
Record pstate : Type := PState {
  acc : Z;
  ref : Time;
  in_time : bool
}.

(** The call [unit(u, v, scale)] through the variable [unit]. *)
Definition call_unit (in_time : bool) (from : Time) (u : string) (v : Z)
    (scale : float64) : outcome Z * Time :=
  if in_time then (sampleUnits_unit timeUnits u v scale, from)
  else duration_unit from u v scale.

(** The units with a fixed length, as the variable [unit] resolves
    them: [D] before the [T] and [H], [M], [S] after it. *)
Definition fixed_unit (in_time : bool) (c : ascii) : option Z :=
  if in_time then get timeUnits (String c "") else get dateUnit (String c "").

(** The index [i] the loop "Consume unit" stops at. *)
Fixpoint unit_end (s : string) : nat :=
  match s with
  | EmptyString => O
  | String c s' => if ends_unit c then O else S (unit_end s')
  end.

(** One turn of the loop [for s != ""] from the comment "The next
    character must be [0-9.]" on: [d] is the total so far, [from] the
    instant behind [option.from], [in_time] tells which resolver [unit]
    holds. The result is the state for the next turn and the rest of
    [s]. *)
Definition token (d : Z) (from : Time) (in_time : bool) (s : string)
    : outcome (pstate * string) :=
  match s with
  | EmptyString => Panic
  | String c _ =>
      if negb (dot_or_digit c) then Err ErrInvalidDuration
      else
        let pl := String.length s in
        match leadingInt s with
        | Ok (v, s) =>
            let pre := negb (Nat.eqb pl (String.length s)) in
            let '(f, scale, s, post) :=
              match s with
              | String c s' =>
                  if (c =? ".")%char then
                    let pl := String.length s' in
                    let '(f, scale, s) := leadingFraction s' in
                    (f, scale, s, negb (Nat.eqb pl (String.length s)))
                  else (0, one, s, false)
              | EmptyString => (0, one, s, false)
              end in
            if negb pre && negb post then Err ErrInvalidDuration
            else
              let i := unit_end s in
              if Nat.eqb i 0 then Err ErrMissingUnit
              else
                let u := take i s in
                let s := skip i s in
                match call_unit in_time from u v zero with
                | (Ok v, from) =>
                    let with_fraction :=
                      if f >? 0 then
                        match call_unit in_time from u f scale with
                        | (Ok r, from) => Ok (u64 (v + r), from)
                        | (Err e, _) => Err e
                        | (Panic, _) => Panic
                        | (OutOfFuel, _) => OutOfFuel
                        end
                      else Ok (v, from) in
                    match with_fraction with
                    | Ok (v, from) =>
                        if d >? u64 (two63 - v) then Err ErrOverflow
                        else Ok (PState (u64 (d + v)) from in_time, s)
                    | Err e => Err e
                    | Panic => Panic
                    | OutOfFuel => OutOfFuel
                    end
                | (Err e, _) => Err e
                | (Panic, _) => Panic
                | (OutOfFuel, _) => OutOfFuel
                end
        | Err _ => Err ErrInvalidDuration
        | Panic => Panic
        | OutOfFuel => OutOfFuel
        end
  end.

(** One turn of the loop, entered with [s] not empty: the test for
    [T], then [token]. With nothing after the [T], [s[0]] is out of
    range. *)
Definition turn (st : pstate) (s : string) : outcome (pstate * string) :=
  match s with
  | String c s' =>
      if (c =? "T")%char then token (acc st) (ref st) true s'
      else token (acc st) (ref st) (in_time st) s
  | EmptyString => token (acc st) (ref st) (in_time st) s
  end.

(** The statements after the loop. *)
Definition finish (neg : bool) (d : Z) : outcome Z :=
  if neg then Ok (i64 (- i64 d))
  else if d >? two63 - 1 then Err ErrOverflow
  else Ok (i64 d).

(** The loop [for s != ""]; every turn takes at least one byte of [s],
    so [String.length s] turns are enough (lemma [turn_shortens]). *)
Fixpoint loop (fuel : nat) (neg : bool) (st : pstate) (s : string)
    : outcome Z :=
  match s with
  | EmptyString => finish neg (acc st)
  | String _ _ =>
      match fuel with
      | O => OutOfFuel
      | S fuel' =>
          match turn st s with
          | Ok (st', s') => loop fuel' neg st' s'
          | Err e => Err e
          | Panic => Panic
          | OutOfFuel => OutOfFuel
          end
      end
  end.

(** The loop with the fuel [ParseDuration] gives it. *)
Definition run (neg : bool) (st : pstate) (s : string) : outcome Z :=
  loop (String.length s) neg st s.

(** [ParseDuration(s, From(func() time.Time { return from }))]: [from]
    is the instant the configured function returns the one time it is
    called. *)
Definition ParseDuration (from : Time) (s : string) : outcome Z :=
  let '(neg, s) :=
    match s with
    | String c s' =>
        if (c =? "-")%char || (c =? "+")%char then ((c =? "-")%char, s')
        else (false, s)
    | EmptyString => (false, s)
    end in
  match s with
  | EmptyString => Err ErrInvalidDuration
  | String c s' =>
      if negb (c =? "P")%char then Err ErrInvalidDuration
      else loop (String.length s') neg (PState 0 from false) s'
  end.

End Parser.

(** ** The formatter *)

Section Formatter.

(** [FormatDuration] fills [buf [32]byte] from its end: [w] is the index
    of the first byte written, and the bytes written are [buf[w:]]. The
    embedding keeps these bytes, the text [out]; [w] is [32] less their
    number, [buf[w] = c] after [w--] puts [c] in front of them, and
    [w += 2] gives up the first two of them. Lemma
    [FormatDuration_length] shows that [w] stays above [0]. *)
Definition buf_len : Z := 32.

Definition index_w (out : string) : Z := buf_len - Z.of_nat (String.length out).

(** [byte(d) + '0'] *)
Definition digit_byte (d : Z) : ascii := ascii_of_N (Z.to_N (d + code "0")).

(** The loop [for v > 0] of [fmtInt]; a [uint64] has at most 20 decimal
    digits, which is the fuel [fmtInt] gives it. *)
Fixpoint fmtInt_loop (fuel : nat) (out : string) (v : Z) : string :=
  match fuel with
  | O => out
  | S fuel' =>
      if v >? 0 then fmtInt_loop fuel' (String (digit_byte (v mod 10)) out) (v / 10)
      else out
  end.

Definition fmtInt (out : string) (v : Z) : string :=
  if v =? 0 then String "0" out else fmtInt_loop 20 out v.

(** The loop [for i := 0; i < prec; i++] of [fmtFrac], [n] turns left. *)
Fixpoint fmtFrac_loop (n : nat) (out : string) (v : Z) (isPrint : bool)
    : string * Z * bool :=
  match n with
  | O => (out, v, isPrint)
  | S n' =>
      let digit := v mod 10 in
      let isPrint := isPrint || negb (digit =? 0) in
      let out := if isPrint then String (digit_byte digit) out else out in
      fmtFrac_loop n' out (v / 10) isPrint
  end.

Definition fmtFrac (out : string) (v : Z) (prec : nat) : string * Z :=
  let '(out, v, isPrint) := fmtFrac_loop prec out v false in
  (if isPrint then String "." out else out, v).

Definition FormatDuration (duration : Z) : string :=
  if duration =? 0 then "PT0S"
  else
    let u := u64 duration in
    let neg := duration <? 0 in
    let u := if neg then u64 (- u) else u in
    let out := "S" in
    let '(out, u) := fmtFrac out u 9 in
    (* u is now integer seconds *)
    let out := fmtInt out (u mod 60) in
    let out :=
      if (u mod 60 =? 0) && (index_w out + 2 =? buf_len) then skip 2 out
      else out in
    let u0 := u / 60 in
    (* u0 is now integer minutes *)
    let out :=
      if u0 >? 0 then
        if u0 mod 60 >? 0 then fmtInt (String "M" out) (u0 mod 60) else out
      else out in
    let u1 := if u0 >? 0 then u0 / 60 else u0 in
    let out :=
      if u0 >? 0 then
        if (u1 >? 0) && (u1 mod 24 >? 0) then fmtInt (String "H" out) (u1 mod 24)
        else out
      else out in
    let u2 := if u0 >? 0 then u1 / 24 else u0 in
    let out := if negb (index_w out =? buf_len) then String "T" out else out in
    let out := if u2 >? 0 then fmtInt (String "D" out) u2 else out in
    let out := String "P" out in
    if neg then String "-" out else out.

End Formatter.

(** ** A runtime: the proleptic Gregorian calendar in UTC

    [time.Time] values in the location UTC, as the count of nanoseconds
    since January 1 of year 1, 00:00:00 UTC (the zero [Time]). [AddDate]
    follows [time.Date]: the month is brought back into 1..12 by moving
    years, and a day past the end of a month runs into the following
    months. [Sub] saturates at the ends of [int64], as [Time.Sub] does. *)
Module UTC.

Definition day_ns : Z := 86400000000000.

(** Days from 0001-01-01 to the first of month [m] (1..12) of year [y],
    plus [d - 1]. *)
Definition days_from_civil (y m d : Z) : Z :=
  let y' := if m <=? 2 then y - 1 else y in
  let era := y' / 400 in
  let yoe := y' - era * 400 in
  let mp := if m >? 2 then m - 3 else m + 9 in
  let doy := (153 * mp + 2) / 5 + d - 1 in
  let doe := yoe * 365 + yoe / 4 - yoe / 100 + doy in
  era * 146097 + doe - 306.

(** Year, month and day of the day number [z] (days since 0001-01-01). *)
Definition civil_from_days (z : Z) : Z * Z * Z :=
  let z := z + 306 in
  let era := z / 146097 in
  let doe := z - era * 146097 in
  let yoe := (doe - doe / 1460 + doe / 36524 - doe / 146096) / 365 in
  let doy := doe - (365 * yoe + yoe / 4 - yoe / 100) in
  let mp := (5 * doy + 2) / 153 in
  let d := doy - (153 * mp + 2) / 5 + 1 in
  let m := if mp <? 10 then mp + 3 else mp - 9 in
  let y := yoe + era * 400 in
  (if m <=? 2 then y + 1 else y, m, d).

(** [time.Date(year, month, day, hour, min, sec, nsec, time.UTC)] with
    the time of day given as nanoseconds [tod]. *)
Definition Date (year month day tod : Z) : Z :=
  let m0 := month - 1 in
  let year := year + m0 / 12 in
  let month := m0 mod 12 + 1 in
  (days_from_civil year month 1 + (day - 1)) * day_ns + tod.

Definition utc_AddDate (t years months days : Z) : Z :=
  let '(y, m, d) := civil_from_days (t / day_ns) in
  Date (y + years) (m + months) (d + days) (t mod day_ns).

Definition utc_Sub (t u : Z) : Z :=
  let d := t - u in
  if d <? - two63 then - two63
  else if two63 - 1 <? d then two63 - 1
  else d.

Definition utc_Add (t d : Z) : Z := t + d.

(** [time.Date(year, month, day, hour, min, sec, nsec, time.UTC)] *)
Definition at_utc (year month day hour min sec nsec : Z) : Z :=
  Date year month day (((hour * 60 + min) * 60 + sec) * 1000000000 + nsec).

(** The zero [Time]. *)
Definition zero_time : Z := 0.

(** An out-of-range conversion gives [1<<63] here, the "integer
    indefinite" value of the amd64 conversion instruction. *)
#[export] Instance runtime : Runtime := {|
  Time := Z;
  AddDate := utc_AddDate;
  Sub := utc_Sub;
  Add := utc_Add;
  cvt_unrepresentable := fun _ => two63
|}.

End UTC.


(** ** Decimal numerals

    The vocabulary of the statements about the scanners and the
    formatter: the run of digits a text begins with and the number a run
    of digits denotes. *)

(** The number of bytes of [s] before its first byte that is not a
    digit. *)
Fixpoint digit_run (s : string) : nat :=
  match s with
  | String c s' => if not_digit c then O else S (digit_run s')
  | EmptyString => O
  end.

Fixpoint all_digits (s : string) : bool :=
  match s with
  | String c s' => negb (not_digit c) && all_digits s'
  | EmptyString => true
  end.

(** The number denoted by the digits of [s] written after the digits of
    [x]. *)
Fixpoint dec_value_from (x : Z) (s : string) : Z :=
  match s with
  | String c s' => dec_value_from (x * 10 + (code c - code "0")) s'
  | EmptyString => x
  end.

Definition dec_value (s : string) : Z := dec_value_from 0 s.

(** [scale] after [k] turns of [scale *= 10]. *)
Fixpoint scale_up (k : nat) (scale : float64) : float64 :=
  match k with
  | O => scale
  | S k' => scale_up k' (mul scale ten)
  end.

(** [s] is empty or begins with a byte that is not a digit. *)
Definition no_digit_ahead (s : string) : Prop :=
  match s with
  | String c _ => not_digit c = true
  | EmptyString => True
  end.

(** [s] is empty or begins with a byte that ends a unit name. *)
Definition ends_here (s : string) : Prop :=
  match s with
  | String c _ => ends_unit c = true
  | EmptyString => True
  end.

(** [s] is empty or begins with a digit. *)
Definition digit_ahead (s : string) : Prop :=
  match s with
  | String c _ => not_digit c = false
  | EmptyString => True
  end.

(** ** The output format of the formatter

    The text the formatter is meant to produce, field by field:
    [["-"] "P" [days "D"] ["T" [hours "H"] [minutes "M"] [seconds
    [fraction] "S"]]], where a field that is zero is left out and [T] is
    there when a field is written after it. *)

(** The decimal numeral of [n], as [fmtInt] writes it. *)
Definition decimal (n : Z) : string := fmtInt "" n.

(** The fraction of a second for [ns] nanoseconds, as [fmtFrac] writes
    it: empty for [0], otherwise the point and the nine digits of [ns]
    without the zeros at their end. *)
Definition fraction (ns : Z) : string := fst (fmtFrac "" ns 9).

Definition field (n : Z) (letter : string) : string :=
  if n >? 0 then decimal n ++ letter else "".

Definition canonical (t : Z) : string :=
  let u := Z.abs t in
  let ns := u mod 1000000000 in
  let secs := u / 1000000000 in
  let mins := secs / 60 in
  let hrs := mins / 60 in
  let days := hrs / 24 in
  let seconds :=
    if (secs mod 60 =? 0) && (ns =? 0) then ""
    else decimal (secs mod 60) ++ fraction ns ++ "S" in
  let time := field (hrs mod 24) "H" ++ field (mins mod 60) "M" ++ seconds in
  (if t <? 0 then "-" else "") ++ "P" ++ field days "D" ++
  (match time with EmptyString => "" | _ => "T" ++ time end).

(** The [T] section by the values of its fields. *)
Definition time_section (h m s ns : Z) : string :=
  if (h =? 0) && (m =? 0) && (s =? 0) && (ns =? 0) then ""
  else "T" ++ field h "H" ++ field m "M" ++
       (if (s =? 0) && (ns =? 0) then "" else decimal s ++ fraction ns ++ "S").

(** The last byte of a text. *)
Fixpoint last_byte (s : string) : option ascii :=
  match s with
  | EmptyString => None
  | String c EmptyString => Some c
  | String _ s' => last_byte s'
  end.

(** Whether the byte [b] occurs in [s]. *)
Fixpoint has_byte (b : ascii) (s : string) : bool :=
  match s with
  | EmptyString => false
  | String c s' => (c =? b)%char || has_byte b s'
  end.

(** Whether [s] begins with a sign. *)
Definition has_sign (s : string) : bool :=
  match s with
  | String c _ => (c =? "-")%char || (c =? "+")%char
  | EmptyString => false
  end.

(** ** Texts of calendar units

    The vocabulary of the statements about months and years: a text in
    front of the [T] made of tokens with the units [Y] and [M], and what
    its tokens resolve to when each one is resolved at the instant the
    one before it has left. *)

Inductive cal_unit : Set := Years | Months.

Definition letter (u : cal_unit) : ascii :=
  match u with Years => "Y" | Months => "M" end%char.

Section Calendar.

Context {rt : Runtime}.

(** What [units[name]] computes for the unit [u]. *)
Definition resolve (u : cal_unit) : Time -> Z -> float64 -> Z :=
  match u with Years => year | Months => month end.

(** A text of whole tokens, [(n, u)] for the digits of [n] and the
    letter of [u], and the sum of what they resolve to in turn. *)
Fixpoint render_whole (toks : list (Z * cal_unit)) : string :=
  match toks with
  | [] => ""
  | (n, u) :: toks' => decimal n ++ String (letter u) (render_whole toks')
  end.

Fixpoint total_whole (from : Time) (toks : list (Z * cal_unit)) : Z :=
  match toks with
  | [] => 0
  | (n, u) :: toks' =>
      let out := resolve u from n zero in
      out + total_whole (Add from out) toks'
  end.

(** The instant the tokens leave behind. *)
Fixpoint instant_whole (from : Time) (toks : list (Z * cal_unit)) : Time :=
  match toks with
  | [] => from
  | (n, u) :: toks' => instant_whole (Add from (resolve u from n zero)) toks'
  end.

(** A token with an optional fraction: the number in front of the
    point, the digits behind it if there is a point, the unit. *)
Record cal_token : Type := CalToken {
  whole : Z;
  digits : option string;
  unit_of : cal_unit
}.

(** The value and the scale [leadingFraction] returns for the digits
    [fs]. *)
Definition fraction_value (fs : string) : Z := fst (fst (leadingFraction fs)).
Definition fraction_scale (fs : string) : float64 := snd (fst (leadingFraction fs)).

Fixpoint render_tokens (toks : list cal_token) : string :=
  match toks with
  | [] => ""
  | tok :: toks' =>
      decimal (whole tok)
      ++ match digits tok with Some fs => String "." fs | None => "" end
      ++ String (letter (unit_of tok)) (render_tokens toks')
  end.

(** The sum of what the tokens resolve to in turn: the whole part at
    the instant the tokens before have left, the fraction at the
    instant the whole part has left, the next token at the instant the
    fraction has left. *)
Fixpoint total_tokens (from : Time) (toks : list cal_token) : Z :=
  match toks with
  | [] => 0
  | tok :: toks' =>
      let out := resolve (unit_of tok) from (whole tok) zero in
      let from1 := Add from out in
      match digits tok with
      | Some fs =>
          let r := resolve (unit_of tok) from1 (fraction_value fs)
                     (fraction_scale fs) in
          out + r + total_tokens (Add from1 r) toks'
      | None => out + total_tokens from1 toks'
      end
  end.

(** The instant the tokens leave behind. *)
Fixpoint instant_tokens (from : Time) (toks : list cal_token) : Time :=
  match toks with
  | [] => from
  | tok :: toks' =>
      let from1 := Add from (resolve (unit_of tok) from (whole tok) zero) in
      match digits tok with
      | Some fs =>
          let r := resolve (unit_of tok) from1 (fraction_value fs)
                     (fraction_scale fs) in
          instant_tokens (Add from1 r) toks'
      | None => instant_tokens from1 toks'
      end
  end.

(** A whole token is a token without a fraction. *)
Definition whole_token (tok : Z * cal_unit) : cal_token :=
  CalToken (fst tok) None (snd tok).

(** The tokens the statements are about: numbers a [uint64] holds up
    to [1<<63], and fractions of digits with a value other than zero
    (for the value zero the fraction is not resolved). *)
Definition token_ok (tok : cal_token) : Prop :=
  0 <= whole tok <= two63 /\
  match digits tok with
  | Some fs => fs <> "" /\ all_digits fs = true /\ 0 < fraction_value fs
  | None => True
  end.

End Calendar.


(** ** Texts of units of fixed length

    The vocabulary of the statements about [D], [H], [M] and [S]: a text
    made of tokens with these units, each with an optional fraction, and
    the nanoseconds the tokens stand for. *)

Record fixed_token : Type := FixedToken {
  number : Z;
  decimals : option string;
  symbol : ascii
}.

Fixpoint fixed_text (toks : list fixed_token) : string :=
  match toks with
  | [] => ""
  | tok :: toks' =>
      decimal (number tok)
      ++ match decimals tok with Some fs => String "." fs | None => "" end
      ++ String (symbol tok) (fixed_text toks')
  end.

(** The nanoseconds of a token in the section of the text that
    [in_time] names: the number times the unit, and for the digits [fs]
    behind the point their value times the unit over [10 ^ len(fs)]. *)
Definition fixed_value (in_time : bool) (tok : fixed_token) : Z :=
  match fixed_unit in_time (symbol tok) with
  | Some unit =>
      number tok * unit
      + match decimals tok with
        | Some fs => dec_value fs * (unit / 10 ^ Z.of_nat (String.length fs))
        | None => 0
        end
  | None => 0
  end.

Definition fixed_total (in_time : bool) (toks : list fixed_token) : Z :=
  fold_right (fun tok sum => fixed_value in_time tok + sum) 0 toks.

(** The tokens the statements are about: a unit of the section, and at
    most nine digits behind the point, which is as far as every unit
    divides by the power of ten. *)
Definition fixed_token_ok (in_time : bool) (tok : fixed_token) : Prop :=
  0 <= number tok /\
  fixed_unit in_time (symbol tok) <> None /\
  match decimals tok with
  | Some fs => all_digits fs = true /\ (1 <= String.length fs <= 9)%nat
  | None => True
  end.

(** ** Texts without calendar units *)

(** Whether neither [Y] nor [M] stands in front of the first [T] of
    [s]: the unit names [option.unit] is called with are then other
    than ["Y"] and ["M"]. *)
Fixpoint calendar_free (s : string) : bool :=
  match s with
  | EmptyString => true
  | String c s' =>
      if (c =? "T")%char then true
      else if (c =? "Y")%char || (c =? "M")%char then false
      else calendar_free s'
  end.

Section Agreement.

Context {rt : Runtime}.

(** Two results of a turn that differ at most in the reference instant
    of the state: the same total, the same resolver, the same rest,
    which is again without calendar units when the resolver is still
    [option.unit]; or the same failure. *)
Definition agree (o1 o2 : outcome (pstate * string)) : Prop :=
  match o1, o2 with
  | Ok (st1, r1), Ok (st2, r2) =>
      acc st1 = acc st2 /\ in_time st1 = in_time st2 /\ r1 = r2 /\
      (in_time st1 = true \/ calendar_free r1 = true)
  | Err e1, Err e2 => e1 = e2
  | Panic, Panic => True
  | OutOfFuel, OutOfFuel => True
  | _, _ => False
  end.

End Agreement.

(** ** The sign of a text *)

(** [neg] after "Consume [-+]?": whether the text begins with [-]. *)
Definition negative (s : string) : bool :=
  match s with
  | String c _ => (c =? "-")%char
  | EmptyString => false
  end.

(** A token of a whole number that a [uint64] holds up to [1<<63]. *)
Definition whole_fixed_token (in_time : bool) (tok : fixed_token) : Prop :=
  fixed_token_ok in_time tok /\ decimals tok = None /\ number tok <= two63.

(** ** The loop part of the way *)

Section Turns.

Context {rt : Runtime}.

(** The state of the loop [for s != ""] after at most [n] turns: the
    variables of the loop and what is left of [s]. A turn that fails
    ends the loop with its failure, as in [loop]; an empty [s] ends it
    with the state as it is. *)
Fixpoint turns (n : nat) (st : pstate) (s : string)
    : outcome (pstate * string) :=
  match n with
  | O => Ok (st, s)
  | S n' =>
      match s with
      | EmptyString => Ok (st, s)
      | String _ _ =>
          match turn st s with
          | Ok (st', s') => turns n' st' s'
          | Err e => Err e
          | Panic => Panic
          | OutOfFuel => OutOfFuel
          end
      end
  end.

End Turns.
(** * Properties *)

(** ** Machine integers *)

Lemma two63_eq : two63 = 2 ^ 63.
Proof. reflexivity. Qed.

Lemma two64_eq : two64 = 2 ^ 64.
Proof. reflexivity. Qed.

Lemma u64_small (z : Z) : 0 <= z < two64 -> u64 z = z.
Proof. intros Hz. unfold u64. now apply Z.mod_small. Qed.

Lemma u64_range (z : Z) : 0 <= u64 z < two64.
Proof. unfold u64. apply Z.mod_pos_bound. reflexivity. Qed.

Lemma i64_small (z : Z) : 0 <= z < two63 -> i64 z = z.
Proof.
  intros Hz. unfold i64. rewrite Z.mod_small by (unfold two63, two64 in *; lia).
  destruct (Z.ltb_spec z two63); lia.
Qed.

Lemma i64_neg (z : Z) : 0 < z <= two63 -> i64 (- z) = - z.
Proof.
  intros Hz. unfold i64.
  replace (- z mod two64) with (two64 - z).
  - destruct (Z.ltb_spec (two64 - z) two63); unfold two63, two64 in *; lia.
  - apply Z.mod_unique with (q := -1); unfold two63, two64 in *; lia.
Qed.

(** ** Bytes and digits *)

Lemma digit_code (c : ascii) : not_digit c = false -> 48 <= code c <= 57.
Proof.
  unfold not_digit. change (code "0") with 48. change (code "9") with 57.
  intros H. apply orb_false_iff in H. destruct H as [H1 H2].
  apply Z.ltb_ge in H1.
  rewrite Z.gtb_ltb in H2. apply Z.ltb_ge in H2. lia.
Qed.

Lemma is_digit_not_digit (c : ascii) : is_digit c = negb (not_digit c).
Proof.
  unfold is_digit, not_digit. rewrite negb_orb, Z.gtb_ltb.
  now rewrite <- Z.leb_antisym, <- Z.leb_antisym.
Qed.

Lemma digit_run_rest (s : string) : no_digit_ahead (skip (digit_run s) s).
Proof.
  induction s as [|c s IH]; simpl; [exact I|].
  destruct (not_digit c) eqn:Hc; simpl; [exact Hc | exact IH].
Qed.

Lemma digit_run_all_digits (s : string) : all_digits (take (digit_run s) s) = true.
Proof.
  induction s as [|c s IH]; simpl; [reflexivity|].
  destruct (not_digit c) eqn:Hc; simpl; [reflexivity|].
  now rewrite Hc.
Qed.

Lemma take_skip (n : nat) (s : string) : (take n s ++ skip n s)%string = s.
Proof.
  revert s. induction n as [|n IH]; intros [|c s]; simpl; try reflexivity.
  now rewrite IH.
Qed.

Lemma dec_value_from_lower (s : string) (x : Z) :
  all_digits s = true -> 0 <= x -> x <= dec_value_from x s.
Proof.
  revert x. induction s as [|c s IH]; simpl; intros x Hs Hx; [lia|].
  apply andb_true_iff in Hs. destruct Hs as [Hc Hs].
  apply negb_true_iff, digit_code in Hc. change (code "0") with 48.
  specialize (IH (x * 10 + (code c - 48)) Hs). lia.
Qed.

(** One step of [x*10 + uint64(c) - '0'] does not wrap when [x] passed
    the test before it. *)
Lemma accumulate_no_wrap (x : Z) (c : ascii) :
  0 <= x <= two63 / 10 -> not_digit c = false ->
  u64 (u64 (u64 (x * 10) + code c) - code "0") = x * 10 + (code c - code "0").
Proof.
  intros Hx Hc. apply digit_code in Hc. change (code "0") with 48.
  change (two63 / 10) with 922337203685477580 in Hx.
  rewrite (u64_small (x * 10)) by (unfold two64; lia).
  rewrite (u64_small (x * 10 + code c)) by (unfold two64; lia).
  rewrite u64_small by (unfold two64; lia). lia.
Qed.

Section Scanners.

(** *** leadingInt *)

(** [leadingInt] on a run of digits followed by something else: the
    value of the run when it is at most [1<<63], [ErrLeadingInt]
    otherwise. *)
Lemma leadingInt_from_digits (ds rest : string) (x : Z) :
  all_digits ds = true -> no_digit_ahead rest -> 0 <= x <= two63 ->
  leadingInt_from x (ds ++ rest) =
    if dec_value_from x ds <=? two63 then Ok (dec_value_from x ds, rest)
    else Err ErrLeadingInt.
Proof.
  revert x. induction ds as [|c ds IH]; simpl; intros x Hds Hrest Hx.
  - destruct (Z.leb_spec x two63); [|lia].
    destruct rest as [|c rest]; simpl in *; [reflexivity|].
    now rewrite Hrest.
  - apply andb_true_iff in Hds. destruct Hds as [Hc Hds].
    apply negb_true_iff in Hc. rewrite Hc.
    pose proof (digit_code c Hc) as Hcode.
    assert (Hlow := fun y => dec_value_from_lower ds y Hds).
    change (code "0") with 48 in *.
    destruct (Z.gtb_spec x (two63 / 10)) as [Hbig|Hsmall].
    + change (two63 / 10) with 922337203685477580 in Hbig.
      specialize (Hlow (x * 10 + (code c - 48))).
      destruct (Z.leb_spec (dec_value_from (x * 10 + (code c - 48)) ds) two63);
        [unfold two63 in *; lia | reflexivity].
    + pose proof (accumulate_no_wrap x c (conj (proj1 Hx) Hsmall) Hc) as Hacc.
      change (code "0") with 48 in Hacc. rewrite Hacc.
      change (two63 / 10) with 922337203685477580 in Hsmall.
      destruct (Z.gtb_spec (x * 10 + (code c - 48)) two63) as [Hy|Hy].
      * specialize (Hlow (x * 10 + (code c - 48))).
        destruct (Z.leb_spec (dec_value_from (x * 10 + (code c - 48)) ds) two63);
          [lia | reflexivity].
      * apply IH; try assumption. lia.
Qed.

Lemma leadingInt_digits (ds rest : string) :
  all_digits ds = true -> no_digit_ahead rest ->
  leadingInt (ds ++ rest) =
    if dec_value ds <=? two63 then Ok (dec_value ds, rest)
    else Err ErrLeadingInt.
Proof.
  intros Hds Hrest. apply leadingInt_from_digits; try assumption.
  unfold two63; lia.
Qed.

(** *** leadingFraction *)

(** Once [overflow] is set, the rest of the digits is passed over and
    the value and the scale stay as they are. *)
Lemma leadingFraction_from_frozen (s : string) (x : Z) (scale : float64) :
  leadingFraction_from x scale true s = (x, scale, skip (digit_run s) s).
Proof.
  induction s as [|c s IH]; simpl; [reflexivity|].
  destruct (not_digit c); [reflexivity | exact IH].
Qed.

Lemma leadingFraction_from_cons (c : ascii) (s : string) (x : Z)
    (scale : float64) (overflow : bool) :
  leadingFraction_from x scale overflow (String c s) =
    if not_digit c then (x, scale, String c s)
    else if overflow then leadingFraction_from x scale overflow s
    else if x >? (two63 - 1) / 10 then leadingFraction_from x scale true s
    else
      let y := u64 (u64 (u64 (x * 10) + code c) - code "0") in
      if y >? two63 then leadingFraction_from x scale true s
      else leadingFraction_from y (mul scale ten) overflow s.
Proof. reflexivity. Qed.

Lemma leadingFraction_from_spec (s : string) (x : Z) (scale : float64) :
  0 <= x <= two63 ->
  exists k : nat, (k <= digit_run s)%nat /\
    leadingFraction_from x scale false s
      = (dec_value_from x (take k s), scale_up k scale, skip (digit_run s) s) /\
    dec_value_from x (take k s) <= two63 /\
    ((k < digit_run s)%nat -> two63 < dec_value_from x (take (S k) s)).
Proof.
  revert x scale. induction s as [|c s IH]; intros x scale Hx.
  - exists O. simpl. repeat split; try lia.
  - rewrite leadingFraction_from_cons. cbn [digit_run].
    destruct (not_digit c) eqn:Hc.
    + exists O. simpl. repeat split; try lia.
    + pose proof (digit_code c Hc) as Hcode. cbv zeta.
      destruct (Z.gtb_spec x ((two63 - 1) / 10)) as [Hbig|Hsmall].
      * exists O. rewrite leadingFraction_from_frozen. simpl.
        change ((two63 - 1) / 10) with 922337203685477580 in Hbig.
        change (code "0") with 48. unfold two63 in *.
        repeat split; try lia.
      * change ((two63 - 1) / 10) with (two63 / 10) in Hsmall.
        rewrite (accumulate_no_wrap x c (conj (proj1 Hx) Hsmall) Hc).
        change (two63 / 10) with 922337203685477580 in Hsmall.
        change (code "0") with 48.
        destruct (Z.gtb_spec (x * 10 + (code c - 48)) two63) as [Hy|Hy].
        -- exists O. rewrite leadingFraction_from_frozen. simpl.
           change (code "0") with 48. repeat split; try lia.
        -- destruct (IH (x * 10 + (code c - 48)) (mul scale ten)) as
             (k & Hk & Heq & Hle & Hnext); [lia|].
           exists (S k). simpl. change (code "0") with 48.
           repeat split; try lia; try assumption.
           intros Hlt. apply Hnext. lia.
Qed.

End Scanners.

(** C9. [leadingFraction] has no error result and is defined on every
    input. It returns the value of the first [k] digits of the run the
    input begins with and the scale after [k] turns of [scale *= 10],
    where either [k] is the whole run, or the value with one more digit
    would be above [1<<63]: from there on value and scale are frozen.
    In both cases the remainder is the input without the whole run of
    digits, so it is empty or begins with a byte that is not a digit. *)
Theorem leadingFraction_freezes (s : string) :
  exists k : nat,
    (k <= digit_run s)%nat /\
    leadingFraction s
      = (dec_value (take k s), scale_up k one, skip (digit_run s) s) /\
    dec_value (take k s) <= two63 /\
    ((k < digit_run s)%nat -> two63 < dec_value (take (S k) s)) /\
    no_digit_ahead (skip (digit_run s) s).
Proof.
  destruct (leadingFraction_from_spec s 0 one) as (k & Hk & Heq & Hle & Hnext).
  - unfold two63. lia.
  - exists k. repeat split; try assumption. apply digit_run_rest.
Qed.

(** A run of twenty nines: the nineteenth digit would take the value
    above [1<<63], so value and scale stay at eighteen digits and the
    two last digits are passed over. *)
Example leadingFraction_twenty_nines :
  leadingFraction "99999999999999999999S"
    = (999999999999999999, scale_up 18 one, "S").
Proof. vm_compute. reflexivity. Qed.

(** ** float64: products of small integers are exact *)

Module F64Facts.

Lemma digits2_size (p : positive) : digits2_pos p = Pos.size p.
Proof. induction p; simpl; congruence. Qed.

Lemma dg_log2 (p : positive) : dg p = Z.log2 (Zpos p) + 1.
Proof.
  unfold dg. rewrite digits2_size.
  destruct p; simpl; try reflexivity; now rewrite Pos.add_1_r.
Qed.

Lemma dg_bounds (p : positive) : 2 ^ (dg p - 1) <= Zpos p < 2 ^ dg p.
Proof.
  rewrite dg_log2. replace (Z.log2 (Zpos p) + 1 - 1) with (Z.log2 (Zpos p)) by lia.
  apply Z.log2_spec. reflexivity.
Qed.

Lemma dg_unique (p : positive) (d : Z) :
  2 ^ (d - 1) <= Zpos p < 2 ^ d -> dg p = d.
Proof.
  intros H. rewrite dg_log2.
  assert (0 < d).
  { destruct (Z.ltb_spec 0 d) as [|Hd]; [assumption|].
    destruct H as [_ H]. destruct (Z.eq_dec d 0) as [->|].
    - simpl in H. lia.
    - rewrite Z.pow_neg_r in H by lia. lia. }
  rewrite (Z.log2_unique (Zpos p) (d - 1)); [lia | lia |].
  now replace (Z.succ (d - 1)) with d by lia.
Qed.

Lemma iter_pos_nat {A : Type} (f : A -> A) (p : positive) (x : A) :
  iter_pos f p x = Nat.iter (Pos.to_nat p) f x.
Proof.
  revert x. induction p as [p IH|p IH|]; intros x; cbn [iter_pos].
  - rewrite !IH, Pos2Nat.inj_xI.
    rewrite <- Nat.iter_add, <- Nat.iter_succ_r. f_equal. lia.
  - rewrite !IH, Pos2Nat.inj_xO, <- Nat.iter_add. f_equal. lia.
  - reflexivity.
Qed.

(** Shifting out zeros loses nothing. *)
Lemma shr_zeros (n : nat) (m : positive) :
  Nat.iter n shr_1 (Build_shr_record (Zpos m * 2 ^ Z.of_nat n) false false)
    = Build_shr_record (Zpos m) false false.
Proof.
  induction n as [|n IH].
  - cbn [Nat.iter nat_rect]. rewrite Z.mul_1_r. reflexivity.
  - rewrite Nat.iter_succ_r.
    assert (Hpos : 0 < Zpos m * 2 ^ Z.of_nat n) by (apply Z.mul_pos_pos; lia).
    replace (Zpos m * 2 ^ Z.of_nat (S n))
      with (Zpos ((Z.to_pos (Zpos m * 2 ^ Z.of_nat n))~0)).
    + cbn [shr_1 orb]. rewrite Z2Pos.id by assumption. exact IH.
    + rewrite Pos2Z.inj_xO, Z2Pos.id by assumption.
      rewrite Nat2Z.inj_succ, Z.pow_succ_r by lia. lia.
Qed.

(** The first step of rounding a mantissa [q = m * 2^n], where [m]
    has 53 bits: the [n] zeros are shifted out. *)
Lemma shr_fexp_exact (q m : positive) (e n : Z) :
  Zpos q = Zpos m * 2 ^ n -> dg m = 53 -> 0 <= n -> -1074 <= e + n ->
  shr_fexp prec emax (Zpos q) e loc_Exact
    = (Build_shr_record (Zpos m) false false, e + n).
Proof.
  intros Hq Hm Hn He.
  assert (Hdq : dg q = 53 + n).
  { apply dg_unique. rewrite Hq. pose proof (dg_bounds m) as Hb.
    rewrite Hm in Hb. change (53 - 1) with 52 in Hb.
    replace (53 + n - 1) with (52 + n) by lia.
    rewrite !Z.pow_add_r by lia.
    assert (0 < 2 ^ n) by (apply Z.pow_pos_nonneg; lia). nia. }
  unfold shr_fexp. cbn [Zdigits2 shr_record_of_loc]. fold (dg q). rewrite Hdq.
  replace (fexp prec emax (53 + n + e) - e) with n
    by (unfold fexp, SpecFloat.emin, prec, emax; lia).
  unfold shr. destruct n as [|pn|pn]; [| |lia].
  - rewrite Z.add_0_r. change (2 ^ 0) with 1 in Hq. rewrite Z.mul_1_r in Hq.
    now rewrite Hq.
  - f_equal. rewrite iter_pos_nat, Hq.
    rewrite <- (positive_nat_Z pn) at 1. apply shr_zeros.
Qed.

Lemma round_aux_exact (sx : bool) (q m : positive) (e n : Z) :
  Zpos q = Zpos m * 2 ^ n -> dg m = 53 -> 0 <= n -> -1074 <= e + n <= 971 ->
  binary_round_aux prec emax sx (Zpos q) e loc_Exact = S754_finite sx m (e + n).
Proof.
  intros Hq Hm Hn He. unfold binary_round_aux.
  rewrite (shr_fexp_exact q m e n) by (assumption || lia).
  cbn [shr_m loc_of_shr_record round_nearest_even].
  rewrite (shr_fexp_exact m m (e + n) 0) by (assumption || lia).
  cbn [shr_m]. rewrite Z.add_0_r.
  destruct (Z.leb_spec (e + n) (emax - prec)) as [|Hbad]; [reflexivity|].
  unfold emax, prec in Hbad. lia.
Qed.

Lemma normal_mantissa (z : Z) :
  0 < z < 2 ^ 53 ->
  let d := Z.log2 z + 1 in
  0 < d <= 53 /\ 0 < z * 2 ^ (53 - d) /\ dg (Z.to_pos (z * 2 ^ (53 - d))) = 53.
Proof.
  intros Hz d.
  assert (Hlog : 0 <= Z.log2 z < 53).
  { split; [apply Z.log2_nonneg|]. apply Z.log2_lt_pow2; lia. }
  assert (Hpow : 0 < 2 ^ (53 - d)) by (apply Z.pow_pos_nonneg; lia).
  assert (Hpos : 0 < z * 2 ^ (53 - d)) by (apply Z.mul_pos_pos; lia).
  repeat split; try lia.
  apply dg_unique. rewrite Z2Pos.id by assumption.
  pose proof (Z.log2_spec z (proj1 Hz)) as Hs.
  replace (Z.succ (Z.log2 z)) with d in Hs by lia.
  replace (Z.log2 z) with (d - 1) in Hs by lia.
  assert (H52 : 2 ^ (53 - 1) = 2 ^ (d - 1) * 2 ^ (53 - d))
    by (rewrite <- Z.pow_add_r by lia; f_equal; lia).
  assert (H53 : 2 ^ 53 = 2 ^ d * 2 ^ (53 - d))
    by (rewrite <- Z.pow_add_r by lia; f_equal; lia).
  rewrite H52, H53. clear H52 H53.
  split; [apply Z.mul_le_mono_nonneg_r | apply Z.mul_lt_mono_pos_r]; lia.
Qed.

Lemma of_Z_normal (z : Z) : 0 < z < 2 ^ 53 -> of_Z z = normal z.
Proof.
  intros Hz. destruct (normal_mantissa z Hz) as (Hd & Hpos & Hdg).
  destruct z as [|p|p]; try lia.
  unfold of_Z, binary_normalize, binary_round, normal.
  fold (dg p). rewrite dg_log2, Z.add_0_r.
  set (d := Z.log2 (Zpos p) + 1) in *.
  replace (fexp prec emax d) with (d - 53)
    by (unfold fexp, SpecFloat.emin, prec, emax; lia).
  unfold shl_align. rewrite Z.sub_0_r.
  destruct (d - 53) as [|k|k] eqn:Hk; try lia.
  - rewrite (round_aux_exact false p p 0 0); try lia.
    + replace (53 - d) with 0 by lia. rewrite Z.mul_1_r. reflexivity.
    + replace (53 - d) with 0 in Hdg by lia. now rewrite Z.mul_1_r in Hdg.
  - rewrite (round_aux_exact false _ (Z.to_pos (Zpos p * 2 ^ (53 - d))) (Zneg k) 0);
      try lia; try assumption.
    + now rewrite Z.add_0_r.
    + rewrite Z.mul_1_r, Z2Pos.id by assumption.
      fold (shift_pos k p). rewrite shift_pos_correct.
      replace (53 - d) with (Zpos k) by lia.
      rewrite Zpower_pos_nat, <- (positive_nat_Z k), Zpower_nat_Z.
      rewrite positive_nat_Z. lia.
Qed.

(** The product of two positive integers is exact when it is below
    [2^53]. *)
Lemma mul_exact (a b : Z) :
  0 < a -> 0 < b -> a * b < 2 ^ 53 -> mul (of_Z a) (of_Z b) = of_Z (a * b).
Proof.
  intros Ha Hb Hab.
  assert (Hab0 : 0 < a * b) by (apply Z.mul_pos_pos; lia).
  assert (Ha53 : a < 2 ^ 53) by nia.
  assert (Hb53 : b < 2 ^ 53) by nia.
  rewrite (of_Z_normal a), (of_Z_normal b), (of_Z_normal (a * b)) by lia.
  destruct (normal_mantissa a (conj Ha Ha53)) as (Hda & Hpa & _).
  destruct (normal_mantissa b (conj Hb Hb53)) as (Hdb & Hpb & _).
  destruct (normal_mantissa (a * b) (conj Hab0 Hab)) as (Hdab & Hpab & Hdg).
  pose proof (Z.log2_mul_below a b Ha Hb) as Hbelow.
  unfold normal, mul, SFmul. cbn [xorb].
  set (da := Z.log2 a + 1) in *. set (db := Z.log2 b + 1) in *.
  set (dab := Z.log2 (a * b) + 1) in *.
  rewrite (round_aux_exact false _ (Z.to_pos (a * b * 2 ^ (53 - dab)))
             (da - 53 + (db - 53)) (53 - da - db + dab));
    try assumption; try lia.
  - f_equal. lia.
  - rewrite Pos2Z.inj_mul, !Z2Pos.id by assumption.
    replace (a * 2 ^ (53 - da) * (b * 2 ^ (53 - db)))
      with (a * b * (2 ^ (53 - da) * 2 ^ (53 - db))) by ring.
    rewrite <- (Z.mul_assoc (a * b)). f_equal.
    rewrite <- !Z.pow_add_r by lia. f_equal. lia.
Qed.

Lemma trunc_of_Z (z : Z) : 0 <= z < 2 ^ 53 -> trunc (of_Z z) = Some z.
Proof.
  intros Hz. destruct (Z.eq_dec z 0) as [->|Hnz]; [reflexivity|].
  rewrite of_Z_normal by lia.
  destruct (normal_mantissa z) as (Hd & Hpos & _); [lia|].
  unfold normal, trunc. set (d := Z.log2 z + 1) in *.
  rewrite Z2Pos.id by assumption. f_equal.
  destruct (Z.leb_spec 0 (d - 53)).
  - replace (d - 53) with 0 by lia. replace (53 - d) with 0 by lia.
    change (2 ^ 0) with 1. lia.
  - replace (- (d - 53)) with (53 - d) by lia.
    apply Z.div_mul. apply Z.pow_nonzero; lia.
Qed.

End F64Facts.

Section Conversion.

Context {rt : Runtime}.

Lemma to_u64_of_Z (z : Z) : 0 <= z < 2 ^ 53 -> to_u64 (of_Z z) = z.
Proof.
  intros Hz. unfold to_u64. rewrite F64Facts.trunc_of_Z by assumption.
  destruct (Z.leb_spec 0 z); [|lia].
  destruct (Z.ltb_spec z two64) as [|Hbig]; [reflexivity|].
  unfold two64 in Hbig. lia.
Qed.

(** [uint64(float64(a) * float64(b))] is [a * b] when that is below
    [2^53]. *)
Lemma to_u64_mul (a b : Z) :
  0 <= a -> 0 < b < 2 ^ 53 -> a * b < 2 ^ 53 ->
  to_u64 (mul (of_Z a) (of_Z b)) = a * b.
Proof.
  intros Ha Hb Hab. destruct (Z.eq_dec a 0) as [->|Hnz].
  - rewrite (F64Facts.of_Z_normal b) by lia. reflexivity.
  - rewrite F64Facts.mul_exact by lia. apply to_u64_of_Z. nia.
Qed.

End Conversion.

(** ** The formatter *)

Section FormatterFacts.

Lemma append_nil_r (s : string) : (s ++ "")%string = s.
Proof. induction s as [|c s IH]; simpl; congruence. Qed.

Lemma append_assoc (a b c : string) :
  ((a ++ b) ++ c)%string = (a ++ (b ++ c))%string.
Proof. induction a as [|x a IH]; simpl; congruence. Qed.

Lemma length_append (a b : string) :
  String.length (a ++ b) = (String.length a + String.length b)%nat.
Proof. induction a as [|x a IH]; simpl; congruence. Qed.

Lemma dec_value_from_app (a b : string) (x : Z) :
  dec_value_from x (a ++ b) = dec_value_from (dec_value_from x a) b.
Proof. revert x. induction a as [|c a IH]; intros x; simpl; [reflexivity|apply IH]. Qed.

Lemma all_digits_app (a b : string) :
  all_digits (a ++ b) = all_digits a && all_digits b.
Proof. induction a as [|c a IH]; simpl; [reflexivity|]. now rewrite IH, andb_assoc. Qed.

(** The byte of a decimal digit. *)
Lemma digit_byte_code (d : Z) : 0 <= d < 10 -> code (digit_byte d) = d + 48.
Proof.
  intros Hd. unfold code, digit_byte. change (code "0") with 48.
  rewrite N_ascii_embedding.
  - rewrite Z2N.id; lia.
  - change 256%N with (Z.to_N 256). apply Z2N.inj_lt; lia.
Qed.

Lemma digit_byte_digit (d : Z) : 0 <= d < 10 -> not_digit (digit_byte d) = false.
Proof.
  intros Hd. unfold not_digit. rewrite (digit_byte_code d Hd).
  change (code "0") with 48. change (code "9") with 57.
  apply orb_false_iff. split; [apply Z.ltb_ge | rewrite Z.gtb_ltb; apply Z.ltb_ge]; lia.
Qed.

(** *** fmtInt *)

Lemma fmtInt_loop_app (fuel : nat) (out : string) (v : Z) :
  fmtInt_loop fuel out v = (fmtInt_loop fuel "" v ++ out)%string.
Proof.
  revert out v. induction fuel as [|fuel IH]; intros out v; simpl; [reflexivity|].
  destruct (v >? 0); [|reflexivity].
  rewrite (IH (String _ out)), (IH (String _ "")), append_assoc. reflexivity.
Qed.

Lemma fmtInt_app (out : string) (v : Z) : fmtInt out v = (decimal v ++ out)%string.
Proof.
  unfold decimal, fmtInt. destruct (v =? 0); [reflexivity|]. apply fmtInt_loop_app.
Qed.

Lemma fmtInt_loop_spec (fuel : nat) (v : Z) :
  0 <= v < 10 ^ Z.of_nat fuel ->
  all_digits (fmtInt_loop fuel "" v) = true /\
  dec_value (fmtInt_loop fuel "" v) = v /\
  (0 < v -> fmtInt_loop fuel "" v <> "").
Proof.
  revert v. induction fuel as [|fuel IH]; intros v Hv.
  - simpl in *. repeat split; try reflexivity; unfold dec_value; simpl; lia.
  - cbn [fmtInt_loop]. destruct (Z.gtb_spec v 0) as [Hpos|Hzero].
    + rewrite fmtInt_loop_app.
      assert (Hdiv : 0 <= v / 10 < 10 ^ Z.of_nat fuel).
      { rewrite Nat2Z.inj_succ, Z.pow_succ_r in Hv by lia.
        split; [apply Z.div_pos; lia | apply Z.div_lt_upper_bound; lia]. }
      destruct (IH (v / 10) Hdiv) as (Hd & Hval & _).
      assert (Hm : 0 <= v mod 10 < 10) by (apply Z.mod_pos_bound; lia).
      repeat split.
      * rewrite all_digits_app, Hd. simpl.
        now rewrite digit_byte_digit.
      * unfold dec_value in *. rewrite dec_value_from_app, Hval. simpl.
        rewrite digit_byte_code by assumption. change (code "0") with 48.
        pose proof (Z.div_mod v 10). lia.
      * intros _. destruct (fmtInt_loop fuel "" (v / 10)); discriminate.
    + repeat split; try reflexivity; unfold dec_value; simpl; lia.
Qed.

(** The numeral of a [uint64] value: digits only, denoting the value. *)
Lemma decimal_spec (v : Z) :
  0 <= v < two64 ->
  all_digits (decimal v) = true /\ dec_value (decimal v) = v /\ decimal v <> "".
Proof.
  intros Hv. unfold decimal, fmtInt. destruct (Z.eqb_spec v 0) as [->|Hnz].
  - repeat split; discriminate.
  - destruct (fmtInt_loop_spec 20 v) as (Hd & Hval & Hne).
    + unfold two64 in Hv. change (10 ^ Z.of_nat 20) with 100000000000000000000. lia.
    + repeat split; try assumption. apply Hne. lia.
Qed.

End FormatterFacts.

Section FractionFacts.

Lemma mod_pow10_succ (v : Z) (n : nat) :
  v mod 10 ^ Z.of_nat (S n) = v mod 10 + 10 * ((v / 10) mod 10 ^ Z.of_nat n).
Proof.
  rewrite Nat2Z.inj_succ, Z.pow_succ_r by lia.
  apply Z.rem_mul_r; [lia | apply Z.pow_pos_nonneg; lia].
Qed.

Lemma div_pow10_succ (v : Z) (n : nat) :
  0 <= v -> v / 10 / 10 ^ Z.of_nat n = v / 10 ^ Z.of_nat (S n).
Proof.
  intros Hv. rewrite Nat2Z.inj_succ, Z.pow_succ_r by lia.
  rewrite Z.div_div; [reflexivity | lia | apply Z.pow_pos_nonneg; lia].
Qed.

(** The digits [fmtFrac] writes do not depend on what is behind them. *)
Lemma fmtFrac_loop_app (n : nat) (out : string) (v : Z) (p : bool) :
  fmtFrac_loop n out v p =
    let '(ds, v', p') := fmtFrac_loop n "" v p in ((ds ++ out)%string, v', p').
Proof.
  revert out v p. induction n as [|n IH]; intros out v p; [reflexivity|].
  cbn [fmtFrac_loop]. cbv zeta.
  set (q := p || negb (v mod 10 =? 0)). set (c := digit_byte (v mod 10)).
  rewrite (IH (if q then String c out else out)).
  rewrite (IH (if q then String c "" else "")).
  destruct (fmtFrac_loop n "" (v / 10) q) as [[ds v'] p'].
  destruct q; rewrite append_assoc; reflexivity.
Qed.

(** Once a digit is written, all [n] following digits are. *)
Lemma fmtFrac_loop_printing (n : nat) (v : Z) :
  0 <= v ->
  exists ds, fmtFrac_loop n "" v true = (ds, v / 10 ^ Z.of_nat n, true) /\
    all_digits ds = true /\ String.length ds = n /\
    dec_value ds = v mod 10 ^ Z.of_nat n.
Proof.
  revert v. induction n as [|n IH]; intros v Hv.
  - exists "". simpl. rewrite Z.div_1_r, Z.mod_1_r. repeat split.
  - cbn [fmtFrac_loop orb]. cbv zeta.
    rewrite fmtFrac_loop_app.
    destruct (IH (v / 10)) as (ds & Heq & Hd & Hlen & Hval);
      [apply Z.div_pos; lia|].
    rewrite Heq.
    assert (Hm : 0 <= v mod 10 < 10) by (apply Z.mod_pos_bound; lia).
    exists (ds ++ String (digit_byte (v mod 10)) "")%string.
    rewrite div_pow10_succ by assumption. repeat split.
    + rewrite all_digits_app, Hd. simpl. now rewrite digit_byte_digit.
    + rewrite length_append, Hlen. simpl. lia.
    + unfold dec_value in *. rewrite dec_value_from_app, Hval.
      cbn [dec_value_from].
      rewrite digit_byte_code by assumption. change (code "0") with 48.
      rewrite mod_pow10_succ. lia.
Qed.

(** The loop of [fmtFrac] from its start: nothing for a multiple of
    [10^n], otherwise the digits of [v mod 10^n] down to the last one
    that is not zero. *)
Lemma fmtFrac_loop_spec (n : nat) (v : Z) :
  0 <= v ->
  if v mod 10 ^ Z.of_nat n =? 0
  then fmtFrac_loop n "" v false = ("", v / 10 ^ Z.of_nat n, false)
  else exists ds,
    fmtFrac_loop n "" v false = (ds, v / 10 ^ Z.of_nat n, true) /\
    all_digits ds = true /\ (1 <= String.length ds <= n)%nat /\
    dec_value ds * 10 ^ (Z.of_nat n - Z.of_nat (String.length ds))
      = v mod 10 ^ Z.of_nat n.
Proof.
  revert v. induction n as [|n IH]; intros v Hv.
  - simpl. rewrite Z.mod_1_r, Z.div_1_r. reflexivity.
  - cbn [fmtFrac_loop orb]. cbv zeta. rewrite mod_pow10_succ.
    assert (Hm : 0 <= v mod 10 < 10) by (apply Z.mod_pos_bound; lia).
    assert (Hq : 0 <= v / 10) by (apply Z.div_pos; lia).
    assert (Hr : 0 <= (v / 10) mod 10 ^ Z.of_nat n)
      by (apply Z.mod_pos_bound, Z.pow_pos_nonneg; lia).
    destruct (Z.eqb_spec (v mod 10) 0) as [Hz|Hnz]; cbn [negb].
    + specialize (IH (v / 10) Hq). rewrite Hz, Z.add_0_l.
      destruct (Z.eqb_spec ((v / 10) mod 10 ^ Z.of_nat n) 0) as [Hz'|Hnz'].
      * rewrite Hz'. cbn [Z.mul Z.eqb].
        rewrite IH, div_pow10_succ by assumption. reflexivity.
      * destruct (Z.eqb_spec (10 * ((v / 10) mod 10 ^ Z.of_nat n)) 0); [lia|].
        destruct IH as (ds & Heq & Hd & Hlen & Hval).
        exists ds. rewrite Heq, div_pow10_succ by assumption.
        repeat split; try assumption; try lia.
        rewrite <- Hval, Nat2Z.inj_succ.
        replace (Z.succ (Z.of_nat n) - Z.of_nat (String.length ds))
          with (Z.succ (Z.of_nat n - Z.of_nat (String.length ds))) by lia.
        rewrite Z.pow_succ_r by lia. ring.
    + destruct (Z.eqb_spec (v mod 10 + 10 * ((v / 10) mod 10 ^ Z.of_nat n)) 0); [lia|].
      rewrite fmtFrac_loop_app.
      destruct (fmtFrac_loop_printing n (v / 10) Hq) as (ds & Heq & Hd & Hlen & Hval).
      rewrite Heq. exists (ds ++ String (digit_byte (v mod 10)) "")%string.
      rewrite div_pow10_succ by assumption.
      assert (Hl : String.length (ds ++ String (digit_byte (v mod 10)) "") = S n)
        by (rewrite length_append, Hlen; simpl; lia).
      rewrite Hl. repeat split; try lia.
      * rewrite all_digits_app, Hd. simpl. now rewrite digit_byte_digit.
      * rewrite Z.sub_diag, Z.mul_1_r.
        unfold dec_value in *. rewrite dec_value_from_app, Hval.
        cbn [dec_value_from].
        rewrite digit_byte_code by assumption. change (code "0") with 48. lia.
Qed.

(** The digits depend on [v mod 10^n] only. *)
Lemma fmtFrac_loop_mod (n : nat) (v : Z) (p : bool) :
  0 <= v ->
  fmtFrac_loop n "" (v mod 10 ^ Z.of_nat n) p =
    let '(ds, _, p') := fmtFrac_loop n "" v p in (ds, 0, p').
Proof.
  revert v p. induction n as [|n IH]; intros v p Hv.
  - simpl. now rewrite Z.mod_1_r.
  - cbn [fmtFrac_loop]. cbv zeta.
    assert (Hm : 0 <= v mod 10 < 10) by (apply Z.mod_pos_bound; lia).
    assert (Hq : 0 <= v / 10) by (apply Z.div_pos; lia).
    assert (Hr : 0 <= (v / 10) mod 10 ^ Z.of_nat n < 10 ^ Z.of_nat n)
      by (apply Z.mod_pos_bound, Z.pow_pos_nonneg; lia).
    assert (Hdigit : (v mod 10 ^ Z.of_nat (S n)) mod 10 = v mod 10).
    { rewrite mod_pow10_succ, (Z.mul_comm 10), Z.mod_add by lia.
      apply Z.mod_mod. lia. }
    assert (Hrest : (v mod 10 ^ Z.of_nat (S n)) / 10 = (v / 10) mod 10 ^ Z.of_nat n).
    { rewrite mod_pow10_succ, (Z.mul_comm 10), Z.div_add by lia.
      rewrite (Z.div_small (v mod 10)) by lia. lia. }
    rewrite Hdigit, Hrest.
    set (q := p || negb (v mod 10 =? 0)). set (c := digit_byte (v mod 10)).
    rewrite (fmtFrac_loop_app n (if q then String c "" else "")).
    rewrite (fmtFrac_loop_app n (if q then String c "" else "") (v / 10)).
    rewrite (IH (v / 10)) by assumption.
    destruct (fmtFrac_loop n "" (v / 10) q) as [[ds v'] p'].
    reflexivity.
Qed.

End FractionFacts.

Section FormatFacts.

Lemma fraction_spec (ns : Z) :
  0 <= ns < 1000000000 ->
  if ns =? 0 then fraction ns = ""
  else exists ds,
    fraction ns = String "." ds /\ all_digits ds = true /\
    (1 <= String.length ds <= 9)%nat /\
    dec_value ds * 10 ^ (9 - Z.of_nat (String.length ds)) = ns.
Proof.
  intros Hns. unfold fraction, fmtFrac.
  pose proof (fmtFrac_loop_spec 9 ns (proj1 Hns)) as H.
  change (10 ^ Z.of_nat 9) with 1000000000 in H.
  rewrite (Z.mod_small ns) in H by assumption.
  destruct (ns =? 0).
  - now rewrite H.
  - destruct H as (ds & Heq & Hd & Hlen & Hval). exists ds.
    rewrite Heq. repeat split; try assumption; lia.
Qed.

Lemma fmtFrac_split (out : string) (v : Z) :
  0 <= v ->
  fmtFrac out v 9 = ((fraction (v mod 1000000000) ++ out)%string, v / 1000000000).
Proof.
  intros Hv. unfold fraction, fmtFrac.
  rewrite (fmtFrac_loop_app 9 out).
  change 1000000000 with (10 ^ Z.of_nat 9).
  rewrite (fmtFrac_loop_mod 9 v false Hv).
  pose proof (fmtFrac_loop_spec 9 v Hv) as H.
  destruct (v mod 10 ^ Z.of_nat 9 =? 0).
  - rewrite H. reflexivity.
  - destruct H as (ds & Heq & _). rewrite Heq. reflexivity.
Qed.

(** The magnitude [FormatDuration] works on. *)
Lemma magnitude (t : Z) :
  in_i64 t -> (if t <? 0 then u64 (- u64 t) else u64 t) = Z.abs t.
Proof.
  unfold in_i64, two63. intros Ht. destruct (Z.ltb_spec t 0).
  - assert (Hu : u64 t = two64 + t).
    { unfold u64. symmetry. apply Z.mod_unique with (q := -1); unfold two64; lia. }
    rewrite Hu. unfold u64.
    symmetry. apply Z.mod_unique with (q := -1); unfold two64; lia.
  - rewrite u64_small by (unfold two64; lia). lia.
Qed.

Lemma index_w_full (out : string) :
  (index_w out =? buf_len) = match out with EmptyString => true | _ => false end.
Proof.
  unfold index_w. destruct out as [|c out]; [reflexivity|].
  apply Z.eqb_neq. cbn [String.length]. lia.
Qed.

Lemma field_app (n : Z) (c : ascii) (out : string) :
  0 <= n ->
  (if n >? 0 then fmtInt (String c out) n else out)
    = (field n (String c "") ++ out)%string.
Proof.
  intros Hn. unfold field. destruct (n >? 0); [|reflexivity].
  now rewrite fmtInt_app, append_assoc.
Qed.

(** [FormatDuration] writes the canonical form. *)
Lemma FormatDuration_canonical (t : Z) :
  in_i64 t -> t <> 0 -> FormatDuration t = canonical t.
Proof.
  intros Ht Hnz. unfold FormatDuration, canonical.
  destruct (Z.eqb_spec t 0) as [|_]; [contradiction|].
  rewrite (magnitude t Ht).
  assert (Hu : 0 <= Z.abs t) by lia. set (u := Z.abs t) in *.
  rewrite (fmtFrac_split "S" u Hu).
  set (ns := u mod 1000000000). set (secs := u / 1000000000).
  assert (Hsecs : 0 <= secs) by (apply Z.div_pos; lia).
  assert (Hns : 0 <= ns < 1000000000) by (apply Z.mod_pos_bound; lia).
  assert (Hs : 0 <= secs mod 60 < 60) by (apply Z.mod_pos_bound; lia).
  set (mins := secs / 60).
  assert (Hmins : 0 <= mins) by (apply Z.div_pos; lia).
  assert (Hm : 0 <= mins mod 60 < 60) by (apply Z.mod_pos_bound; lia).
  set (hrs := mins / 60).
  assert (Hhrs : 0 <= hrs) by (apply Z.div_pos; lia).
  assert (Hh : 0 <= hrs mod 24 < 24) by (apply Z.mod_pos_bound; lia).
  assert (Hdays : 0 <= hrs / 24) by (apply Z.div_pos; lia).
  rewrite (fmtInt_app _ (secs mod 60)).
  (* the seconds, given up when they are "0S" *)
  set (seconds := if (secs mod 60 =? 0) && (ns =? 0) then ""
                  else (decimal (secs mod 60) ++ fraction ns ++ "S")%string).
  assert (Hseconds :
    (if (secs mod 60 =? 0)
        && (index_w (decimal (secs mod 60) ++ fraction ns ++ "S") + 2 =? buf_len)
     then skip 2 (decimal (secs mod 60) ++ fraction ns ++ "S")
     else (decimal (secs mod 60) ++ fraction ns ++ "S")%string) = seconds).
  { subst seconds. destruct (Z.eqb_spec (secs mod 60) 0) as [Hz|]; [|reflexivity].
    rewrite Hz. change (decimal 0) with "0".
    pose proof (fraction_spec ns Hns) as Hf.
    destruct (ns =? 0).
    - rewrite Hf. reflexivity.
    - destruct Hf as (ds & -> & _ & Hlen & _). cbn [andb].
      replace (index_w ("0" ++ String "." ds ++ "S") + 2 =? buf_len) with false;
        [reflexivity|].
      symmetry. apply Z.eqb_neq. unfold index_w, buf_len.
      cbn [append String.length]. rewrite length_append. cbn [String.length]. lia. }
  rewrite Hseconds. clearbody seconds.
  (* minutes, hours, days *)
  assert (Hm' : (if mins >? 0
                 then if mins mod 60 >? 0
                      then fmtInt (String "M" seconds) (mins mod 60) else seconds
                 else seconds) = (field (mins mod 60) "M" ++ seconds)%string).
  { rewrite <- field_app by lia. destruct (Z.gtb_spec mins 0) as [|Hz]; [reflexivity|].
    replace mins with 0 by lia. reflexivity. }
  rewrite Hm'. set (out1 := (field (mins mod 60) "M" ++ seconds)%string).
  assert (Hu1 : (if mins >? 0 then hrs else mins) = hrs).
  { destruct (Z.gtb_spec mins 0) as [|Hz]; [reflexivity|].
    subst hrs. replace mins with 0 by lia. reflexivity. }
  rewrite Hu1.
  assert (Hh' : (if mins >? 0
                 then if (hrs >? 0) && (hrs mod 24 >? 0)
                      then fmtInt (String "H" out1) (hrs mod 24) else out1
                 else out1) = (field (hrs mod 24) "H" ++ out1)%string).
  { rewrite <- field_app by lia.
    destruct (Z.gtb_spec mins 0) as [|Hz].
    - destruct (Z.gtb_spec hrs 0) as [|Hz']; [reflexivity|].
      replace hrs with 0 by lia. reflexivity.
    - subst hrs. replace mins with 0 by lia. reflexivity. }
  rewrite Hh'. set (time := (field (hrs mod 24) "H" ++ out1)%string).
  assert (Hu2 : (if mins >? 0 then hrs / 24 else mins) = hrs / 24).
  { destruct (Z.gtb_spec mins 0) as [|Hz]; [reflexivity|].
    subst hrs. replace mins with 0 by lia. reflexivity. }
  rewrite Hu2.
  rewrite index_w_full.
  assert (HT : (if negb match time with EmptyString => true | _ => false end
                then String "T" time else time)
               = match time with EmptyString => "" | _ => ("T" ++ time)%string end).
  { destruct time; reflexivity. }
  rewrite HT. rewrite (field_app (hrs / 24) "D") by assumption.
  destruct (t <? 0); reflexivity.
Qed.

End FormatFacts.

(** ** The loop of the parser *)

Section LoopFacts.

Context {rt : Runtime}.

Lemma leadingInt_from_length (s : string) (x v : Z) (s' : string) :
  leadingInt_from x s = Ok (v, s') -> (String.length s' <= String.length s)%nat.
Proof.
  revert x. induction s as [|c s IH]; intros x; simpl.
  - intros [= _ <-]. simpl. lia.
  - destruct (not_digit c); [intros [= _ <-]; simpl; lia|].
    destruct (x >? two63 / 10); [discriminate|].
    destruct (_ >? two63); [discriminate|].
    intros H. apply IH in H. lia.
Qed.

Lemma leadingFraction_from_length (s : string) (x : Z) (scale : float64)
    (overflow : bool) :
  (String.length (snd (leadingFraction_from x scale overflow s))
     <= String.length s)%nat.
Proof.
  revert x scale overflow. induction s as [|c s IH]; intros x scale overflow.
  - simpl. lia.
  - rewrite leadingFraction_from_cons. cbv zeta.
    destruct (not_digit c); [simpl; lia|].
    repeat match goal with
           | |- context [if ?b then _ else _] => destruct b
           end; etransitivity; try apply IH; simpl; lia.
Qed.

Lemma unit_end_le (s : string) : (unit_end s <= String.length s)%nat.
Proof.
  induction s as [|c s IH]; simpl; [lia|]. destruct (ends_unit c); lia.
Qed.

Lemma skip_length (n : nat) (s : string) :
  (n <= String.length s)%nat ->
  String.length (skip n s) = (String.length s - n)%nat.
Proof.
  revert s. induction n as [|n IH]; intros [|c s]; simpl; intros H; try lia.
  apply IH. lia.
Qed.

(** A turn that does not fail takes at least one byte. *)
Lemma token_shortens (d : Z) (from : Time) (in_time : bool) (s : string)
    (st' : pstate) (s' : string) :
  token d from in_time s = Ok (st', s') ->
  (String.length s' < String.length s)%nat.
Proof.
  unfold token. destruct s as [|c s]; [discriminate|].
  destruct (negb (dot_or_digit c)); [discriminate|].
  destruct (leadingInt (String c s)) as [[v s1]| | |] eqn:Hint; try discriminate.
  apply leadingInt_from_length in Hint.
  set (frac := match s1 with
               | String c0 s'0 =>
                   if (c0 =? ".")%char
                   then let pl := String.length s'0 in
                        let '(f, scale, s0) := leadingFraction s'0 in
                        (f, scale, s0, negb (Nat.eqb pl (String.length s0)))
                   else (0, one, s1, false)
               | EmptyString => (0, one, s1, false)
               end).
  assert (Hfrac : (String.length (snd (fst frac)) <= String.length s1)%nat).
  { subst frac. destruct s1 as [|c1 s1]; [simpl; lia|].
    destruct (c1 =? ".")%char; [|simpl; lia].
    pose proof (leadingFraction_from_length s1 0 one false) as Hl.
    unfold leadingFraction. cbv zeta.
    destruct (leadingFraction_from 0 one false s1) as [[f sc] s2].
    simpl in *. lia. }
  destruct frac as [[[f scale] s2] post]. cbn [fst snd] in Hfrac.
  destruct (_ && _); [discriminate|].
  pose proof (unit_end_le s2) as Hend.
  destruct (Nat.eqb_spec (unit_end s2) 0) as [|Hpos]; [discriminate|].
  intros H.
  assert (Hs' : s' = skip (unit_end s2) s2).
  { destruct (call_unit in_time from (take (unit_end s2) s2) v zero) as [[v1| | |] from1];
      try discriminate.
    destruct (f >? 0).
    - destruct (call_unit in_time from1 (take (unit_end s2) s2) f scale)
        as [[r| | |] from2]; try discriminate.
      destruct (d >? _); [discriminate|]. now injection H as _ <-.
    - destruct (d >? _); [discriminate|]. now injection H as _ <-. }
  rewrite Hs', skip_length by assumption. lia.
Qed.

Lemma turn_shortens (st st' : pstate) (s s' : string) :
  turn st s = Ok (st', s') -> (String.length s' < String.length s)%nat.
Proof.
  unfold turn. destruct s as [|c s]; [discriminate|].
  destruct (c =? "T")%char; intros H; apply token_shortens in H; simpl in *; lia.
Qed.

(** More fuel than the length of [s] changes nothing. *)
Lemma loop_fuel (fuel fuel' : nat) (neg : bool) (st : pstate) (s : string) :
  (String.length s <= fuel)%nat -> (String.length s <= fuel')%nat ->
  loop fuel neg st s = loop fuel' neg st s.
Proof.
  revert fuel' st s. induction fuel as [|fuel IH]; intros fuel' st s H1 H2.
  - destruct s; [|simpl in H1; lia]. destruct fuel'; reflexivity.
  - destruct s as [|c s]; [destruct fuel'; reflexivity|].
    destruct fuel' as [|fuel']; [simpl in H2; lia|].
    cbn [loop]. destruct (turn st (String c s)) as [[st' s']| | |] eqn:Hturn;
      try reflexivity.
    apply turn_shortens in Hturn. simpl in *. apply IH; lia.
Qed.

Lemma run_nil (neg : bool) (st : pstate) : run neg st "" = finish neg (acc st).
Proof. reflexivity. Qed.

Lemma run_turn (neg : bool) (st : pstate) (s : string) :
  s <> "" ->
  run neg st s =
    match turn st s with
    | Ok (st', s') => run neg st' s'
    | Err e => Err e
    | Panic => Panic
    | OutOfFuel => OutOfFuel
    end.
Proof.
  unfold run. destruct s as [|c s]; [contradiction|]. intros _.
  cbn [String.length loop].
  destruct (turn st (String c s)) as [[st' s']| | |] eqn:Hturn; try reflexivity.
  apply turn_shortens in Hturn. simpl in Hturn. apply loop_fuel; lia.
Qed.

End LoopFacts.

Section TokenFacts.

Context {rt : Runtime}.

Lemma ends_unit_false (c : ascii) :
  ends_unit c = false ->
  (c =? ".")%char = false /\ not_digit c = true /\ (c =? "T")%char = false.
Proof.
  unfold ends_unit, dot_or_digit. rewrite is_digit_not_digit.
  intros H. apply orb_false_iff in H. destruct H as [H HT].
  apply orb_false_iff in H. destruct H as [Hdot Hdig].
  apply negb_false_iff in Hdig. auto.
Qed.

Lemma digit_begins (c : ascii) :
  not_digit c = false -> dot_or_digit c = true /\ (c =? "T")%char = false.
Proof.
  intros Hc. unfold dot_or_digit. rewrite is_digit_not_digit, Hc, orb_true_r.
  split; [reflexivity|]. apply digit_code in Hc.
  destruct (Ascii.eqb_spec c "T") as [->|]; [|reflexivity].
  change (code "T") with 84 in Hc. lia.
Qed.

Lemma unit_end_one (c : ascii) (rest : string) :
  ends_unit c = false -> ends_here rest -> unit_end (String c rest) = 1%nat.
Proof.
  intros Hc Hrest. cbn [unit_end]. rewrite Hc.
  destruct rest as [|c' rest]; [reflexivity|]. simpl in *. now rewrite Hrest.
Qed.

(** [leadingFraction] on a run of digits that stays within [1<<63]. *)
Lemma leadingFraction_from_digits (ds rest : string) (x : Z) (scale : float64) :
  all_digits ds = true -> no_digit_ahead rest ->
  0 <= x -> dec_value_from x ds <= two63 ->
  leadingFraction_from x scale false (ds ++ rest)
    = (dec_value_from x ds, scale_up (String.length ds) scale, rest).
Proof.
  revert x scale. induction ds as [|c ds IH]; intros x scale Hds Hrest Hx Hval.
  - destruct rest as [|c rest]; [reflexivity|]. simpl in *. now rewrite Hrest.
  - cbn [append all_digits] in *. apply andb_true_iff in Hds. destruct Hds as [Hc Hds].
    apply negb_true_iff in Hc. rewrite leadingFraction_from_cons, Hc. cbv zeta.
    pose proof (digit_code c Hc) as Hcode.
    cbn [dec_value_from] in Hval. change (code "0") with 48 in *.
    pose proof (dec_value_from_lower ds (x * 10 + (code c - 48)) Hds) as Hlow.
    assert (Hx' : 0 <= x <= two63 / 10).
    { change (two63 / 10) with 922337203685477580. unfold two63 in *. lia. }
    destruct (Z.gtb_spec x ((two63 - 1) / 10)) as [Hbig|_].
    { change ((two63 - 1) / 10) with (two63 / 10) in Hbig. lia. }
    pose proof (accumulate_no_wrap x c Hx' Hc) as Hacc.
    change (code "0") with 48 in Hacc. rewrite Hacc.
    destruct (Z.gtb_spec (x * 10 + (code c - 48)) two63) as [Hbig|_]; [lia|].
    rewrite IH; try assumption; [reflexivity | lia].
Qed.

(** The turn of the loop on a whole number and a one-letter unit. *)
Lemma token_whole (d : Z) (from : Time) (in_time : bool)
    (ds : string) (c : ascii) (rest : string) :
  ds <> "" -> all_digits ds = true -> dec_value ds <= two63 ->
  ends_unit c = false -> ends_here rest ->
  token d from in_time (ds ++ String c rest) =
    match call_unit in_time from (String c "") (dec_value ds) zero with
    | (Ok v, from') =>
        if d >? u64 (two63 - v) then Err ErrOverflow
        else Ok (PState (u64 (d + v)) from' in_time, rest)
    | (Err e, _) => Err e
    | (Panic, _) => Panic
    | (OutOfFuel, _) => OutOfFuel
    end.
Proof.
  intros Hne Hds Hval Hc Hrest.
  destruct (ends_unit_false c Hc) as (Hdot & Hnd & _).
  destruct ds as [|c0 ds]; [contradiction|].
  assert (Hc0 : not_digit c0 = false).
  { cbn [all_digits] in Hds. apply andb_true_iff in Hds.
    now apply negb_true_iff. }
  unfold token. cbn [append]. rewrite (proj1 (digit_begins c0 Hc0)). cbn [negb].
  change (String c0 (ds ++ String c rest)) with (String c0 ds ++ String c rest)%string.
  rewrite leadingInt_digits by assumption.
  destruct (Z.leb_spec (dec_value (String c0 ds)) two63); [|lia].
  rewrite Hdot.
  replace (Nat.eqb (String.length (String c0 ds ++ String c rest))
                   (String.length (String c rest))) with false
    by (symmetry; apply Nat.eqb_neq; rewrite length_append; simpl; lia).
  cbn [negb andb]. rewrite (unit_end_one c rest Hc Hrest).
  cbn [Nat.eqb take skip].
  destruct (call_unit in_time from (String c "") (dec_value (String c0 ds)) zero)
    as [[v| | |] from']; reflexivity.
Qed.

(** The turn of the loop on a number with a fraction and a one-letter
    unit, when the digits of the fraction stay within [1<<63]. *)
Lemma token_fraction (d : Z) (from : Time) (in_time : bool)
    (ds fs : string) (c : ascii) (rest : string) :
  ds <> "" -> all_digits ds = true -> dec_value ds <= two63 ->
  fs <> "" -> all_digits fs = true -> dec_value fs <= two63 ->
  ends_unit c = false -> ends_here rest ->
  token d from in_time (ds ++ String "." (fs ++ String c rest)) =
    match call_unit in_time from (String c "") (dec_value ds) zero with
    | (Ok v, from1) =>
        let with_fraction :=
          if dec_value fs >? 0 then
            match call_unit in_time from1 (String c "") (dec_value fs)
                    (scale_up (String.length fs) one) with
            | (Ok r, from2) => Ok (u64 (v + r), from2)
            | (Err e, _) => Err e
            | (Panic, _) => Panic
            | (OutOfFuel, _) => OutOfFuel
            end
          else Ok (v, from1) in
        match with_fraction with
        | Ok (v, from') =>
            if d >? u64 (two63 - v) then Err ErrOverflow
            else Ok (PState (u64 (d + v)) from' in_time, rest)
        | Err e => Err e
        | Panic => Panic
        | OutOfFuel => OutOfFuel
        end
    | (Err e, _) => Err e
    | (Panic, _) => Panic
    | (OutOfFuel, _) => OutOfFuel
    end.
Proof.
  intros Hne Hds Hval Hfne Hfs Hfval Hc Hrest.
  destruct (ends_unit_false c Hc) as (Hdot & Hnd & _).
  destruct ds as [|c0 ds]; [contradiction|].
  assert (Hc0 : not_digit c0 = false).
  { cbn [all_digits] in Hds. apply andb_true_iff in Hds.
    now apply negb_true_iff. }
  unfold token. cbn [append]. rewrite (proj1 (digit_begins c0 Hc0)). cbn [negb].
  change (String c0 (ds ++ String "." (fs ++ String c rest)))
    with (String c0 ds ++ String "." (fs ++ String c rest))%string.
  rewrite leadingInt_digits by (assumption || reflexivity).
  destruct (Z.leb_spec (dec_value (String c0 ds)) two63); [|lia].
  change ("." =? ".")%char with true. cbv iota beta.
  unfold leadingFraction.
  rewrite leadingFraction_from_digits; try assumption; try lia.
  fold (dec_value fs).
  replace (Nat.eqb (String.length (String c0 ds ++ String "." (fs ++ String c rest)))
                   (String.length (String "." (fs ++ String c rest)))) with false
    by (symmetry; apply Nat.eqb_neq; rewrite length_append; simpl; lia).
  cbn [negb andb]. rewrite (unit_end_one c rest Hc Hrest).
  cbn [Nat.eqb take skip]. reflexivity.
Qed.

Lemma turn_digit (st : pstate) (c : ascii) (s : string) :
  not_digit c = false ->
  turn st (String c s) = token (acc st) (ref st) (in_time st) (String c s).
Proof.
  intros Hc. unfold turn. now rewrite (proj2 (digit_begins c Hc)).
Qed.

Lemma turn_T (st : pstate) (s : string) :
  turn st (String "T" s) = token (acc st) (ref st) true s.
Proof. reflexivity. Qed.

End TokenFacts.

Section FieldFacts.

Context {rt : Runtime}.

Lemma sampleUnits_whole (tbl : sampleUnits) (name : string) (unit v : Z) :
  get tbl name = Some unit ->
  sampleUnits_unit tbl name v zero =
    if v >? two63 / unit then Err ErrOverflow else Ok (u64 (v * unit)).
Proof. intros H. unfold sampleUnits_unit. now rewrite H. Qed.

Lemma sampleUnits_missing (tbl : sampleUnits) (name : string) (v : Z)
    (scale : float64) :
  get tbl name = None -> sampleUnits_unit tbl name v scale = Err ErrMissingUnit.
Proof. intros H. unfold sampleUnits_unit. now rewrite H. Qed.

Lemma call_unit_fixed (in_time : bool) (from : Time) (c : ascii) (unit v : Z) :
  fixed_unit in_time c = Some unit ->
  call_unit in_time from (String c "") v zero =
    (if v >? two63 / unit then Err ErrOverflow else Ok (u64 (v * unit)), from).
Proof.
  unfold fixed_unit, call_unit, duration_unit. destruct in_time; intros H.
  - now rewrite (sampleUnits_whole _ _ unit).
  - rewrite H. now rewrite (sampleUnits_whole _ _ unit).
Qed.

Lemma fixed_unit_value (in_time : bool) (c : ascii) (unit : Z) :
  fixed_unit in_time c = Some unit ->
  ends_unit c = false /\ 1000000000 <= unit <= 86400000000000.
Proof.
  unfold fixed_unit, dateUnit, timeUnits. cbn [get].
  destruct in_time.
  - destruct (String.eqb_spec (String c "") "S") as [[= ->]|_];
      [intros [= <-]; split; [reflexivity | vm_compute; split; discriminate]|].
    destruct (String.eqb_spec (String c "") "M") as [[= ->]|_];
      [intros [= <-]; split; [reflexivity | vm_compute; split; discriminate]|].
    destruct (String.eqb_spec (String c "") "H") as [[= ->]|_];
      [intros [= <-]; split; [reflexivity | vm_compute; split; discriminate]|].
    discriminate.
  - destruct (String.eqb_spec (String c "") "D") as [[= ->]|_];
      [intros [= <-]; split; [reflexivity | vm_compute; split; discriminate]|].
    discriminate.
Qed.

Lemma decimal_cons (n : Z) :
  0 <= n < two64 ->
  exists c r, decimal n = String c r /\ not_digit c = false.
Proof.
  intros Hn. destruct (decimal_spec n Hn) as (Hd & _ & Hne).
  destruct (decimal n) as [|c r]; [contradiction|].
  exists c, r. split; [reflexivity|].
  cbn [all_digits] in Hd. apply andb_true_iff in Hd. now apply negb_true_iff.
Qed.

(** A field of the canonical form with a unit of fixed length adds
    its value to the total. *)
Lemma run_field (neg : bool) (d : Z) (from : Time) (it : bool)
    (c : ascii) (unit n : Z) (rest : string) :
  fixed_unit it c = Some unit ->
  0 <= n -> 0 <= d -> d + n * unit <= two63 -> ends_here rest ->
  run neg (PState d from it) (field n (String c "") ++ rest)
    = run neg (PState (d + n * unit) from it) rest.
Proof.
  intros Hunit Hn Hd Hsum Hrest.
  destruct (fixed_unit_value _ _ _ Hunit) as (Hc & Hu).
  unfold field. destruct (Z.gtb_spec n 0) as [Hpos|Hz].
  - assert (Hn64 : 0 <= n < two64) by (unfold two63, two64 in *; nia).
    destruct (decimal_spec n Hn64) as (Hdig & Hval & Hne).
    destruct (decimal_cons n Hn64) as (c0 & r & Heq & Hc0).
    rewrite append_assoc. cbn [append].
    rewrite run_turn by (rewrite Heq; discriminate).
    rewrite Heq at 1. cbn [append]. rewrite turn_digit by assumption.
    change (String c0 (r ++ String c rest)) with (String c0 r ++ String c rest)%string.
    rewrite <- Heq. cbn [acc ref in_time].
    rewrite token_whole; try assumption; [|rewrite Hval; unfold two63 in *; nia].
    rewrite Hval.
    rewrite (call_unit_fixed _ _ _ unit) by assumption.
    destruct (Z.gtb_spec n (two63 / unit)) as [Hbig|_].
    { assert (n <= two63 / unit) by (apply Z.div_le_lower_bound; lia). lia. }
    rewrite (u64_small (n * unit)) by (unfold two63, two64 in *; nia).
    rewrite (u64_small (two63 - n * unit)) by (unfold two63, two64 in *; nia).
    destruct (Z.gtb_spec d (two63 - n * unit)); [lia|].
    rewrite u64_small by (unfold two63, two64 in *; nia). reflexivity.
  - replace n with 0 by lia. cbn [append]. now rewrite Z.mul_0_l, Z.add_0_r.
Qed.

End FieldFacts.

Section RoundTrip.

Context {rt : Runtime}.

(** The scales of the fractions [fmtFrac] writes, one to nine digits:
    each divides the float of [time.Second] exactly. *)
Lemma second_scale (k : nat) :
  (1 <= k <= 9)%nat ->
  is_zero (scale_up k one) = false /\
  div (of_Z (u64 Second)) (scale_up k one) = of_Z (10 ^ (9 - Z.of_nat k)).
Proof.
  intros Hk.
  do 10 (destruct k as [|k]; [try lia; split; vm_compute; reflexivity|]).
  lia.
Qed.

Lemma pow10_bounds (j : Z) : 0 <= j <= 9 -> 0 < 10 ^ j <= 1000000000.
Proof.
  intros Hj. split; [apply Z.pow_pos_nonneg; lia|].
  change 1000000000 with (10 ^ 9). apply Z.pow_le_mono_r; lia.
Qed.

(** The seconds of the canonical form, with their fraction, add
    [s] seconds and [ns] nanoseconds to the total and end the text. *)
Lemma run_seconds (neg : bool) (d : Z) (from : Time) (s ns : Z) :
  0 <= s < 60 -> 0 <= ns < 1000000000 ->
  0 <= d -> d + s * 1000000000 + ns <= two63 ->
  run neg (PState d from true)
      (if (s =? 0) && (ns =? 0) then ""
       else decimal s ++ fraction ns ++ "S")
    = finish neg (d + s * 1000000000 + ns).
Proof.
  intros Hs Hns Hd Hsum.
  pose proof (fraction_spec ns Hns) as Hfrac.
  destruct (Z.eqb_spec ns 0) as [Hns0|Hns0].
  - (* no fraction: a field of seconds *)
    rewrite Hfrac, Hns0, Z.add_0_r, andb_true_r. cbn [append].
    destruct (Z.eqb_spec s 0) as [->|Hs0].
    + rewrite run_nil. now rewrite Z.add_0_r.
    + pose proof (run_field neg d from true "S" 1000000000 s "") as H.
      unfold field in H. destruct (Z.gtb_spec s 0); [|lia].
      rewrite append_nil_r in H.
      rewrite H; try (reflexivity || lia || exact I).
  - destruct Hfrac as (fs & -> & Hfs & Hlen & Hfval).
    rewrite andb_false_r.
    assert (Hs64 : 0 <= s < two64) by (unfold two64; lia).
    destruct (decimal_spec s Hs64) as (Hdig & Hval & Hne).
    destruct (decimal_cons s Hs64) as (c0 & r & Heq & Hc0).
    assert (Hpow := pow10_bounds (9 - Z.of_nat (String.length fs))).
    assert (Hf : 0 < dec_value fs < 1000000000) by nia.
    rewrite run_turn by (rewrite Heq; discriminate).
    rewrite Heq at 1. cbn [append]. rewrite turn_digit by assumption.
    change (String c0 (r ++ String "." (fs ++ "S")))
      with (String c0 r ++ String "." (fs ++ "S"))%string.
    rewrite <- Heq. cbn [acc ref in_time].
    rewrite token_fraction; try assumption; try reflexivity; try exact I;
      try (rewrite ?Hval; unfold two63; lia);
      try (intros ->; simpl in Hlen; lia).
    rewrite Hval.
    rewrite (call_unit_fixed true from "S" 1000000000) by reflexivity.
    destruct (Z.gtb_spec s (two63 / 1000000000)) as [Hbig|_].
    { change (two63 / 1000000000) with 9223372036 in Hbig. lia. }
    rewrite (u64_small (s * 1000000000)) by (unfold two64; lia).
    cbv zeta. destruct (Z.gtb_spec (dec_value fs) 0); [|lia].
    unfold call_unit, sampleUnits_unit. cbn [get timeUnits String.eqb Ascii.eqb Bool.eqb].
    destruct (second_scale (String.length fs) Hlen) as (Hnz & Hdiv).
    rewrite Hnz, Hdiv. cbn [negb].
    rewrite to_u64_mul by (change (2 ^ 53) with 9007199254740992; nia).
    rewrite Hfval.
    destruct (Z.gtb_spec ns two63); [unfold two63 in *; lia|].
    rewrite (u64_small (s * 1000000000 + ns)) by (unfold two64; lia).
    rewrite (u64_small (two63 - _)) by (unfold two63, two64 in *; lia).
    destruct (Z.gtb_spec d (two63 - (s * 1000000000 + ns))); [lia|].
    rewrite u64_small by (unfold two63, two64 in *; lia).
    rewrite run_nil. cbn [acc]. f_equal. lia.
Qed.

End RoundTrip.

Section RoundTripTheorem.

Context {rt : Runtime}.

Lemma ParseDuration_P (from : Time) (body : string) :
  ParseDuration from (String "P" body) = run false (PState 0 from false) body.
Proof. reflexivity. Qed.

Lemma ParseDuration_minus_P (from : Time) (body : string) :
  ParseDuration from (String "-" (String "P" body))
    = run true (PState 0 from false) body.
Proof. reflexivity. Qed.

Lemma digit_ahead_ends_here (s : string) : digit_ahead s -> ends_here s.
Proof.
  destruct s as [|c s]; [trivial|]. simpl. intros Hc.
  unfold ends_unit. now rewrite (proj1 (digit_begins c Hc)).
Qed.

Lemma digit_ahead_decimal (n : Z) (rest : string) :
  0 <= n < two64 -> digit_ahead (decimal n ++ rest).
Proof.
  intros Hn. destruct (decimal_cons n Hn) as (c & r & -> & Hc). exact Hc.
Qed.

Lemma digit_ahead_field (n : Z) (letter rest : string) :
  0 <= n < two64 -> digit_ahead rest -> digit_ahead (field n letter ++ rest).
Proof.
  intros Hn Hrest. unfold field. destruct (n >? 0); [|exact Hrest].
  rewrite append_assoc. now apply digit_ahead_decimal.
Qed.

(** The [T] in front of a time section is taken by the turn of the
    first field after it. *)
Lemma run_T (neg : bool) (d : Z) (from : Time) (it : bool) (time : string) :
  digit_ahead time ->
  run neg (PState d from it)
      (match time with EmptyString => "" | _ => "T" ++ time end)
    = run neg (PState d from true) time.
Proof.
  intros Htime. destruct time as [|c s]; [reflexivity|].
  cbn [append]. rewrite !run_turn by discriminate.
  rewrite turn_T, turn_digit by exact Htime. reflexivity.
Qed.

Lemma finish_magnitude (t : Z) :
  in_i64 t -> finish (t <? 0) (Z.abs t) = Ok t.
Proof.
  unfold in_i64, finish. intros Ht. destruct (Z.ltb_spec t 0) as [Hneg|Hpos].
  - f_equal. destruct (Z.eq_dec (Z.abs t) two63) as [Heq|Hne].
    + rewrite Heq. replace t with (- two63) by lia. reflexivity.
    + rewrite (i64_small (Z.abs t)) by lia. rewrite i64_neg by lia. lia.
  - destruct (Z.gtb_spec (Z.abs t) (two63 - 1)); [lia|].
    rewrite i64_small by lia. f_equal. lia.
Qed.

(** Parsing the canonical form of [t] gives [t]. *)
Lemma ParseDuration_canonical (from : Time) (t : Z) :
  in_i64 t -> t <> 0 -> ParseDuration from (canonical t) = Ok t.
Proof.
  intros Ht Hnz. unfold canonical.
  assert (Hu : 0 < Z.abs t <= two63) by (unfold in_i64 in Ht; lia).
  set (u := Z.abs t) in *.
  set (ns := u mod 1000000000). set (secs := u / 1000000000).
  set (mins := secs / 60). set (hrs := mins / 60). set (days := hrs / 24).
  assert (Hns : 0 <= ns < 1000000000) by (apply Z.mod_pos_bound; lia).
  assert (Hsecs : 0 <= secs) by (apply Z.div_pos; lia).
  assert (Hs : 0 <= secs mod 60 < 60) by (apply Z.mod_pos_bound; lia).
  assert (Hmins : 0 <= mins) by (apply Z.div_pos; lia).
  assert (Hm : 0 <= mins mod 60 < 60) by (apply Z.mod_pos_bound; lia).
  assert (Hhrs : 0 <= hrs) by (apply Z.div_pos; lia).
  assert (Hh : 0 <= hrs mod 24 < 24) by (apply Z.mod_pos_bound; lia).
  assert (Hdays : 0 <= days) by (apply Z.div_pos; lia).
  assert (Eu : u = secs * 1000000000 + ns)
    by (pose proof (Z.div_mod u 1000000000); lia).
  assert (Es : secs = mins * 60 + secs mod 60)
    by (pose proof (Z.div_mod secs 60); lia).
  assert (Em : mins = hrs * 60 + mins mod 60)
    by (pose proof (Z.div_mod mins 60); lia).
  assert (Eh : hrs = days * 24 + hrs mod 24)
    by (pose proof (Z.div_mod hrs 24); lia).
  set (s := secs mod 60) in *. set (m := mins mod 60) in *.
  set (h := hrs mod 24) in *.
  set (seconds := if (s =? 0) && (ns =? 0) then ""
                  else (decimal s ++ fraction ns ++ "S")%string).
  assert (Hsec_ahead : digit_ahead seconds).
  { subst seconds. destruct ((s =? 0) && (ns =? 0)); [exact I|].
    apply digit_ahead_decimal. unfold two64. lia. }
  assert (Hprefix :
    ParseDuration from
      ((if t <? 0 then "-" else "") ++ "P" ++ field days "D" ++
       match (field h "H" ++ field m "M" ++ seconds)%string with
       | EmptyString => ""
       | _ => "T" ++ field h "H" ++ field m "M" ++ seconds
       end)
    = run (t <? 0) (PState 0 from false)
        (field days "D" ++
         match (field h "H" ++ field m "M" ++ seconds)%string with
         | EmptyString => ""
         | _ => "T" ++ field h "H" ++ field m "M" ++ seconds
         end)).
  { destruct (t <? 0); reflexivity. }
  rewrite Hprefix. clear Hprefix.
  assert (Htime_ahead : digit_ahead (field h "H" ++ field m "M" ++ seconds)).
  { apply digit_ahead_field; [unfold two64; lia|].
    apply digit_ahead_field; [unfold two64; lia|]. exact Hsec_ahead. }
  unfold two63 in Hu.
  rewrite (run_field _ 0 from false "D" 86400000000000 days);
    try reflexivity; try (unfold two63; lia).
  2:{ destruct (field h "H" ++ field m "M" ++ seconds)%string; [exact I|reflexivity]. }
  rewrite run_T by assumption.
  rewrite (run_field _ _ from true "H" 3600000000000 h);
    try reflexivity; try (unfold two63; lia).
  2:{ apply digit_ahead_ends_here, digit_ahead_field; [unfold two64; lia|assumption]. }
  rewrite (run_field _ _ from true "M" 60000000000 m);
    try reflexivity; try (unfold two63; lia).
  2:{ now apply digit_ahead_ends_here. }
  subst seconds. rewrite run_seconds; try (unfold two63; lia).
  replace (0 + days * 86400000000000 + h * 3600000000000 + m * 60000000000
           + s * 1000000000 + ns) with u by lia.
  now apply finish_magnitude.
Qed.

(** C4. Round trip: for every [int64] value [t], from every reference
    instant, parsing the text [FormatDuration] writes for [t] gives
    [t], without an error. *)
Theorem ParseDuration_FormatDuration (from : Time) (t : Z) :
  in_i64 t -> ParseDuration from (FormatDuration t) = Ok t.
Proof.
  intros Ht. destruct (Z.eq_dec t 0) as [->|Hnz].
  - vm_compute. reflexivity.
  - rewrite FormatDuration_canonical by assumption.
    now apply ParseDuration_canonical.
Qed.

End RoundTripTheorem.

Section OmissionRule.

Lemma last_byte_none (s : string) : last_byte s = None -> s = "".
Proof.
  induction s as [|c s IH]; [reflexivity|]. cbn [last_byte].
  destruct s as [|d s]; [discriminate|]. intros H. apply IH in H. discriminate.
Qed.

Lemma last_byte_app (a b : string) :
  last_byte (a ++ b) =
    match last_byte b with Some c => Some c | None => last_byte a end.
Proof.
  induction a as [|x a IH]; cbn [append].
  - destruct (last_byte b); reflexivity.
  - cbn [last_byte]. destruct (a ++ b)%string as [|y r] eqn:E.
    + destruct a; [|discriminate]. cbn [append] in E. subst b. reflexivity.
    + rewrite IH. destruct (last_byte b) eqn:Eb; [reflexivity|].
      apply last_byte_none in Eb. subst b. rewrite append_nil_r in E.
      subst a. reflexivity.
Qed.

Lemma last_byte_field (n : Z) (c : ascii) (a : string) :
  0 < n -> last_byte (a ++ field n (String c "")) = Some c.
Proof.
  intros Hn. unfold field. destruct (Z.gtb_spec n 0); [|lia].
  now rewrite !last_byte_app.
Qed.

Lemma last_byte_field' (n : Z) (c : ascii) :
  0 < n -> last_byte (field n (String c "")) = Some c.
Proof. intros Hn. now rewrite <- (last_byte_field n c ""). Qed.

Lemma field_zero (letter : string) : field 0 letter = "".
Proof. reflexivity. Qed.

Lemma append_not_nil_r (a b : string) :
  b <> "" -> exists c r, (a ++ b)%string = String c r.
Proof.
  intros Hb. destruct a as [|x a]; cbn [append].
  - destruct b as [|y b]; [contradiction|]. now exists y, b.
  - now exists x, (a ++ b)%string.
Qed.

Lemma field_not_nil (n : Z) (letter rest : string) :
  0 < n -> letter <> "" -> exists c r, (field n letter ++ rest)%string = String c r.
Proof.
  intros Hn Hl. unfold field. destruct (Z.gtb_spec n 0); [|lia].
  rewrite append_assoc. apply append_not_nil_r.
  destruct letter; [contradiction|discriminate].
Qed.

(** C2, as the code has it. For a tick value [t] other than zero,
    [FormatDuration] writes the sign, [P], the days and the [T]
    section of hours, minutes and seconds, and leaves out every field
    that is zero, the seconds too: the seconds are written, with their
    fraction, when the seconds or the nanoseconds are not zero, and
    only then does the text end with [S]. The [T] is written when one
    of hours, minutes, seconds and nanoseconds is not zero. The text of
    zero is [PT0S]. *)
Theorem FormatDuration_omits_zero_fields (t : Z) :
  in_i64 t -> t <> 0 ->
  let u := Z.abs t in
  let ns := u mod 1000000000 in
  let s := u / 1000000000 mod 60 in
  let m := u / 1000000000 / 60 mod 60 in
  let h := u / 1000000000 / 60 / 60 mod 24 in
  let days := u / 1000000000 / 60 / 60 / 24 in
  FormatDuration t
    = ((if (t <? 0)%Z then "-" else "") ++ "P" ++ field days "D"
       ++ time_section h m s ns)%string /\
  (last_byte (FormatDuration t) = Some "S"%char <-> s <> 0 \/ ns <> 0) /\
  FormatDuration 0 = "PT0S".
Proof.
  intros Ht Hnz u ns s m h days.
  assert (Hu : 0 < u) by (subst u; lia).
  assert (Hns : 0 <= ns < 1000000000) by (apply Z.mod_pos_bound; lia).
  assert (Hsecs : 0 <= u / 1000000000) by (apply Z.div_pos; lia).
  assert (Hs : 0 <= s < 60) by (apply Z.mod_pos_bound; lia).
  assert (Hmins : 0 <= u / 1000000000 / 60) by (apply Z.div_pos; lia).
  assert (Hm : 0 <= m < 60) by (apply Z.mod_pos_bound; lia).
  assert (Hhrs : 0 <= u / 1000000000 / 60 / 60) by (apply Z.div_pos; lia).
  assert (Hh : 0 <= h < 24) by (apply Z.mod_pos_bound; lia).
  assert (Hdays : 0 <= days) by (apply Z.div_pos; lia).
  assert (Hform : FormatDuration t
    = ((if (t <? 0)%Z then "-" else "") ++ "P" ++ field days "D"
       ++ time_section h m s ns)%string).
  { rewrite FormatDuration_canonical by assumption. unfold canonical.
    fold u. fold ns. fold s. fold m. fold h. fold days.
    do 3 f_equal. unfold time_section.
    set (seconds := if (s =? 0) && (ns =? 0) then ""
                    else (decimal s ++ fraction ns ++ "S")%string).
    destruct (Z.eqb_spec h 0) as [->|Hh0];
      [destruct (Z.eqb_spec m 0) as [->|Hm0]|]; cbn [andb].
    - rewrite !field_zero. cbn [append]. subst seconds.
      destruct ((s =? 0) && (ns =? 0)); [reflexivity|].
      destruct (append_not_nil_r (decimal s) (fraction ns ++ "S")) as (c & r & ->);
        [|reflexivity].
      destruct (fraction ns); discriminate.
    - rewrite field_zero. cbn [append].
      destruct (field_not_nil m "M" seconds) as (c & r & ->); [lia|discriminate|].
      reflexivity.
    - destruct (field_not_nil h "H" (field m "M" ++ seconds)) as (c & r & ->);
        [lia|discriminate|].
      reflexivity. }
  split; [exact Hform|]. split; [|reflexivity].
  rewrite Hform. unfold time_section.
  destruct (Z.eqb_spec s 0) as [Hs0|Hs0]; destruct (Z.eqb_spec ns 0) as [Hn0|Hn0];
    cbn [andb];
    try (rewrite ?andb_true_r, ?andb_false_r, !last_byte_app; cbn [last_byte];
         split; [intros _; lia | reflexivity]).
  (* neither seconds nor nanoseconds: the last field written is M, H or D *)
  split; [|lia]. intros Hlast. exfalso. revert Hlast.
  rewrite !andb_true_r.
  destruct (Z.eqb_spec m 0) as [Hm0|Hm0].
  - destruct (Z.eqb_spec h 0) as [Hh0|Hh0]; cbn [andb].
    + assert (0 < days).
      { assert (days <> 0); [|lia]. intros Hd0.
        pose proof (Z.div_mod u 1000000000).
        pose proof (Z.div_mod (u / 1000000000) 60).
        pose proof (Z.div_mod (u / 1000000000 / 60) 60).
        pose proof (Z.div_mod (u / 1000000000 / 60 / 60) 24).
        subst ns s m h days. lia. }
      rewrite !last_byte_app, (last_byte_field' days) by assumption.
      discriminate.
    + rewrite Hm0, field_zero.
      rewrite !last_byte_app, (last_byte_field' h) by lia.
      discriminate.
  - rewrite andb_false_r. cbn [andb].
    rewrite !last_byte_app, (last_byte_field' m) by lia.
    discriminate.
Qed.

End OmissionRule.

Section SignSymmetry.

Context {rt : Runtime}.

Lemma token_acc (d : Z) (from : Time) (it : bool) (s : string)
    (st' : pstate) (s' : string) :
  token d from it s = Ok (st', s') -> 0 <= acc st' < two64.
Proof.
  unfold token. destruct s as [|c s]; [discriminate|].
  destruct (negb (dot_or_digit c)); [discriminate|].
  destruct (leadingInt (String c s)) as [[v s1]| | |]; try discriminate.
  destruct (match s1 with
            | String c0 s'0 =>
                if (c0 =? ".")%char
                then let pl := String.length s'0 in
                     let '(f, scale, s0) := leadingFraction s'0 in
                     (f, scale, s0, negb (Nat.eqb pl (String.length s0)))
                else (0, one, s1, false)
            | EmptyString => (0, one, s1, false)
            end) as [[[f scale] s2] post].
  destruct (_ && _); [discriminate|].
  destruct (Nat.eqb (unit_end s2) 0); [discriminate|].
  destruct (call_unit it from (take (unit_end s2) s2) v zero) as [[v1| | |] from1];
    try discriminate.
  destruct (f >? 0).
  - destruct (call_unit it from1 (take (unit_end s2) s2) f scale)
      as [[r| | |] from2]; try discriminate.
    destruct (d >? _); [discriminate|]. intros [= <- _]. apply u64_range.
  - destruct (d >? _); [discriminate|]. intros [= <- _]. apply u64_range.
Qed.

Lemma turn_acc (st st' : pstate) (s s' : string) :
  turn st s = Ok (st', s') -> 0 <= acc st' < two64.
Proof.
  unfold turn. destruct s as [|c s]; [discriminate|].
  destruct (c =? "T")%char; apply token_acc.
Qed.

Lemma finish_negate (a d : Z) :
  0 <= a -> finish false a = Ok d -> finish true a = Ok (- d).
Proof.
  unfold finish. intros Ha. destruct (Z.gtb_spec a (two63 - 1)); [discriminate|].
  intros [= <-]. rewrite (i64_small a) by lia. f_equal.
  destruct (Z.eq_dec a 0) as [->|]; [reflexivity|]. apply i64_neg. lia.
Qed.

(** The sign is applied after the loop, to the same total. *)
Lemma loop_negate (fuel : nat) (st : pstate) (s : string) (d : Z) :
  0 <= acc st ->
  loop fuel false st s = Ok d -> loop fuel true st s = Ok (- d).
Proof.
  revert st s. induction fuel as [|fuel IH]; intros st s Hacc.
  - destruct s; [apply finish_negate; assumption | discriminate].
  - destruct s as [|c s]; [apply finish_negate; assumption|].
    cbn [loop]. destruct (turn st (String c s)) as [[st' s']| | |] eqn:Hturn;
      try discriminate.
    apply IH. apply turn_acc in Hturn. lia.
Qed.

(** C6, as the code has it. For a positive tick value [t] the text of
    [-t] is the text of [t] behind a [-]; and for a text [s] that
    carries no sign of its own and parses to [d], the text [s] behind
    a [-] parses to [-d]. *)
Theorem sign_symmetry :
  (forall t : Z, 0 < t < two63 ->
     FormatDuration (- t) = ("-" ++ FormatDuration t)%string) /\
  (forall (from : Time) (s : string) (d : Z),
     has_sign s = false -> ParseDuration from s = Ok d ->
     ParseDuration from ("-" ++ s) = Ok (- d)).
Proof.
  split.
  - intros t Ht.
    rewrite !FormatDuration_canonical by (unfold in_i64; lia).
    unfold canonical. rewrite Z.abs_opp.
    destruct (Z.ltb_spec (- t) 0); [|lia]. destruct (Z.ltb_spec t 0); [lia|].
    reflexivity.
  - intros from s d Hsign. cbn [append]. unfold ParseDuration.
    change ("-" =? "-")%char with true. cbn [orb].
    destruct s as [|c s]; [discriminate|].
    cbn [has_sign] in Hsign. rewrite Hsign.
    destruct (negb (c =? "P")%char); [discriminate|].
    apply loop_negate. cbn [acc]. lia.
Qed.

End SignSymmetry.

Section CalendarFacts.

Context {rt : Runtime}.

Lemma to_u64_range (x : float64) : 0 <= to_u64 x < two64.
Proof.
  unfold to_u64. destruct (trunc x) as [z|]; [|apply u64_range].
  destruct (Z.leb_spec 0 z); destruct (Z.ltb_spec z two64); cbn [andb];
    try apply u64_range. lia.
Qed.

Lemma resolve_range (u : cal_unit) (from : Time) (v : Z) (scale : float64) :
  0 <= resolve u from v scale < two64.
Proof.
  destruct u; unfold resolve, year, month; destruct (is_zero scale);
    (apply u64_range || apply to_u64_range).
Qed.

Lemma ends_unit_letter (u : cal_unit) : ends_unit (letter u) = false.
Proof. destruct u; reflexivity. Qed.

(** [duration.unit] on the letter of a calendar unit: the value
    [units[name]] computes, within [1<<63], and the new instant. *)
Lemma duration_unit_calendar (u : cal_unit) (from : Time) (v : Z)
    (scale : float64) :
  duration_unit from (String (letter u) "") v scale =
    let out := resolve u from v scale in
    if out >? two63 then (Err ErrOverflow, from)
    else (Ok out, Add from (i64 out)).
Proof. destruct u; reflexivity. Qed.

Lemma leadingFraction_from_app (fs rest : string) (x : Z) (scale : float64)
    (overflow : bool) :
  all_digits fs = true -> no_digit_ahead rest ->
  leadingFraction_from x scale overflow (fs ++ rest) =
    (fst (fst (leadingFraction_from x scale overflow fs)),
     snd (fst (leadingFraction_from x scale overflow fs)), rest).
Proof.
  revert x scale overflow.
  induction fs as [|c fs IH]; intros x scale overflow Hfs Hrest.
  - cbn [append]. destruct rest as [|c rest]; [reflexivity|].
    simpl in Hrest. rewrite leadingFraction_from_cons, Hrest. reflexivity.
  - cbn [append all_digits] in *. apply andb_true_iff in Hfs.
    destruct Hfs as [Hc Hfs]. apply negb_true_iff in Hc.
    rewrite !leadingFraction_from_cons, Hc. cbv zeta.
    repeat match goal with
           | |- context [if ?b then _ else _] => destruct b
           end; now apply IH.
Qed.

(** The turn of the loop on a number with a fraction and a one-letter
    unit, for any digits behind the point. *)
Lemma token_fraction_any (d : Z) (from : Time) (it : bool)
    (ds fs : string) (c : ascii) (rest : string) :
  ds <> "" -> all_digits ds = true -> dec_value ds <= two63 ->
  fs <> "" -> all_digits fs = true ->
  ends_unit c = false -> ends_here rest ->
  token d from it (ds ++ String "." (fs ++ String c rest)) =
    match call_unit it from (String c "") (dec_value ds) zero with
    | (Ok v, from1) =>
        let with_fraction :=
          if fraction_value fs >? 0 then
            match call_unit it from1 (String c "") (fraction_value fs)
                    (fraction_scale fs) with
            | (Ok r, from2) => Ok (u64 (v + r), from2)
            | (Err e, _) => Err e
            | (Panic, _) => Panic
            | (OutOfFuel, _) => OutOfFuel
            end
          else Ok (v, from1) in
        match with_fraction with
        | Ok (v, from') =>
            if d >? u64 (two63 - v) then Err ErrOverflow
            else Ok (PState (u64 (d + v)) from' it, rest)
        | Err e => Err e
        | Panic => Panic
        | OutOfFuel => OutOfFuel
        end
    | (Err e, _) => Err e
    | (Panic, _) => Panic
    | (OutOfFuel, _) => OutOfFuel
    end.
Proof.
  intros Hne Hds Hval Hfne Hfs Hc Hrest.
  destruct (ends_unit_false c Hc) as (Hdot & Hnd & _).
  destruct ds as [|c0 ds]; [contradiction|].
  assert (Hc0 : not_digit c0 = false).
  { cbn [all_digits] in Hds. apply andb_true_iff in Hds.
    now apply negb_true_iff. }
  unfold token. cbn [append]. rewrite (proj1 (digit_begins c0 Hc0)). cbn [negb].
  change (String c0 (ds ++ String "." (fs ++ String c rest)))
    with (String c0 ds ++ String "." (fs ++ String c rest))%string.
  rewrite leadingInt_digits by (assumption || reflexivity).
  destruct (Z.leb_spec (dec_value (String c0 ds)) two63); [|lia].
  change ("." =? ".")%char with true. cbv iota beta.
  unfold leadingFraction.
  rewrite leadingFraction_from_app by assumption.
  fold (leadingFraction fs). fold (fraction_value fs). fold (fraction_scale fs).
  replace (Nat.eqb (String.length (String c0 ds ++ String "." (fs ++ String c rest)))
                   (String.length (String "." (fs ++ String c rest)))) with false
    by (symmetry; apply Nat.eqb_neq; rewrite length_append; simpl; lia).
  cbn [negb andb]. rewrite (unit_end_one c rest Hc Hrest).
  cbn [Nat.eqb take skip]. reflexivity.
Qed.

Lemma digit_ahead_render_tokens (toks : list cal_token) :
  Forall token_ok toks -> digit_ahead (render_tokens toks).
Proof.
  intros H. destruct H as [|tok toks Htok _]; [exact I|].
  cbn [render_tokens]. apply digit_ahead_decimal.
  destruct Htok as [Hw _]. unfold two63, two64 in *. lia.
Qed.

Lemma total_tokens_nonneg (toks : list cal_token) (from : Time) :
  0 <= total_tokens from toks.
Proof.
  revert from. induction toks as [|tok toks IH]; intros from; cbn [total_tokens].
  - lia.
  - cbv zeta. destruct (digits tok) as [fs|].
    + pose proof (resolve_range (unit_of tok) from (whole tok) zero).
      pose proof (resolve_range (unit_of tok)
                    (Add from (resolve (unit_of tok) from (whole tok) zero))
                    (fraction_value fs) (fraction_scale fs)).
      specialize (IH (Add (Add from (resolve (unit_of tok) from (whole tok) zero))
                       (resolve (unit_of tok)
                          (Add from (resolve (unit_of tok) from (whole tok) zero))
                          (fraction_value fs) (fraction_scale fs)))).
      lia.
    + pose proof (resolve_range (unit_of tok) from (whole tok) zero).
      specialize (IH (Add from (resolve (unit_of tok) from (whole tok) zero))).
      lia.
Qed.

(** The loop on a text of calendar tokens: every token is resolved at
    the instant the token before it has left. *)
Lemma ends_here_render_tokens (toks : list cal_token) (rest : string) :
  Forall token_ok toks -> ends_here rest ->
  ends_here (render_tokens toks ++ rest).
Proof.
  intros Hok Hrest. destruct toks as [|tok toks]; [exact Hrest|].
  apply digit_ahead_ends_here. cbn [render_tokens]. rewrite append_assoc.
  apply digit_ahead_decimal.
  inversion Hok as [|tok' toks' [Hw _] _]; subst.
  unfold two63, two64 in *. lia.
Qed.

(** The loop on a text of calendar tokens, followed by [rest]: every
    token is resolved at the instant the token before it has left, and
    the loop goes on with the sum and the instant the last token has
    left. *)
Lemma run_tokens (toks : list cal_token) (neg : bool) (d : Z) (from : Time)
    (rest : string) :
  Forall token_ok toks -> ends_here rest ->
  0 <= d -> d + total_tokens from toks < two63 ->
  run neg (PState d from false) (render_tokens toks ++ rest)
    = run neg (PState (d + total_tokens from toks) (instant_tokens from toks) false)
        rest.
Proof.
  intros Hok Hrest. revert d from.
  induction toks as [|tok toks IH]; intros d from Hd Hsum.
  - cbn [render_tokens total_tokens instant_tokens append]. now rewrite Z.add_0_r.
  - inversion Hok as [|tok' toks' Htok Hoks]; subst.
    specialize (IH Hoks).
    destruct Htok as [Hw Hfrac].
    assert (Hw64 : 0 <= whole tok < two64) by (unfold two63, two64 in *; lia).
    destruct (decimal_spec _ Hw64) as (Hdig & Hval & Hne).
    destruct (decimal_cons _ Hw64) as (c0 & r0 & Heq & Hc0).
    pose proof (ends_here_render_tokens toks rest Hoks Hrest) as Hends.
    cbn [render_tokens total_tokens instant_tokens] in *. cbv zeta in Hsum |- *.
    set (out := resolve (unit_of tok) from (whole tok) zero) in *.
    pose proof (resolve_range (unit_of tok) from (whole tok) zero) as Hout.
    fold out in Hout.
    rewrite !append_assoc. cbn [append].
    rewrite run_turn by (rewrite Heq; discriminate).
    rewrite Heq at 1. cbn [append]. rewrite turn_digit by assumption.
    cbn [acc ref in_time].
    destruct (digits tok) as [fs|].
    + destruct Hfrac as (Hfne & Hfs & Hfpos).
      set (r := resolve (unit_of tok) (Add from out) (fraction_value fs)
                  (fraction_scale fs)) in *.
      pose proof (resolve_range (unit_of tok) (Add from out) (fraction_value fs)
                    (fraction_scale fs)) as Hr.
      fold r in Hr.
      pose proof (total_tokens_nonneg toks (Add (Add from out) r)) as Htot.
      cbn [append].
      change (String c0 (r0 ++ String "." (fs ++ String (letter (unit_of tok))
                                   (render_tokens toks ++ rest))))
        with (String c0 r0 ++ String "." (fs ++ String (letter (unit_of tok))
                                   (render_tokens toks ++ rest)))%string.
      rewrite <- Heq.
      rewrite token_fraction_any; try assumption;
        [|rewrite Hval; lia|apply ends_unit_letter].
      rewrite Hval. unfold call_unit.
      rewrite !duration_unit_calendar. cbv zeta. fold out.
      destruct (Z.gtb_spec out two63); [lia|].
      rewrite (i64_small out) by lia. fold r.
      destruct (Z.gtb_spec (fraction_value fs) 0); [|lia].
      rewrite duration_unit_calendar. cbv zeta. fold r.
      destruct (Z.gtb_spec r two63); [lia|].
      rewrite (i64_small r) by lia.
      rewrite (u64_small (out + r)) by (unfold two63, two64 in *; lia).
      rewrite (u64_small (two63 - (out + r))) by (unfold two63, two64 in *; lia).
      destruct (Z.gtb_spec d (two63 - (out + r))); [lia|].
      rewrite (u64_small (d + (out + r))) by (unfold two63, two64 in *; lia).
      rewrite IH by lia. do 2 f_equal. lia.
    + pose proof (total_tokens_nonneg toks (Add from out)) as Htot.
      cbn [append].
      change (String c0 (r0 ++ String (letter (unit_of tok))
                                   (render_tokens toks ++ rest)))
        with (String c0 r0 ++ String (letter (unit_of tok))
                                   (render_tokens toks ++ rest))%string.
      rewrite <- Heq.
      rewrite token_whole; try assumption;
        [|rewrite Hval; lia|apply ends_unit_letter].
      rewrite Hval. unfold call_unit.
      rewrite duration_unit_calendar. cbv zeta. fold out.
      destruct (Z.gtb_spec out two63); [lia|].
      rewrite (i64_small out) by lia.
      rewrite (u64_small (two63 - out)) by (unfold two63, two64 in *; lia).
      destruct (Z.gtb_spec d (two63 - out)); [lia|].
      rewrite (u64_small (d + out)) by (unfold two63, two64 in *; lia).
      rewrite IH by lia. do 2 f_equal. lia.
Qed.

End CalendarFacts.

Section CalendarTheorems.

Context {rt : Runtime}.

Lemma finish_positive (d : Z) : 0 <= d < two63 -> finish false d = Ok d.
Proof.
  intros Hd. unfold finish. destruct (Z.gtb_spec d (two63 - 1)); [lia|].
  now rewrite i64_small.
Qed.

Lemma render_whole_tokens (toks : list (Z * cal_unit)) :
  render_tokens (map whole_token toks) = render_whole toks.
Proof.
  induction toks as [|[n u] toks IH]; [reflexivity|].
  cbn [map render_tokens render_whole whole_token fst snd whole digits unit_of append].
  now rewrite IH.
Qed.

Lemma total_whole_tokens (toks : list (Z * cal_unit)) (from : Time) :
  total_tokens from (map whole_token toks) = total_whole from toks.
Proof.
  revert from. induction toks as [|[n u] toks IH]; intros from; [reflexivity|].
  cbn [map total_tokens total_whole whole_token fst snd whole digits unit_of].
  cbv zeta. now rewrite IH.
Qed.

Lemma instant_whole_tokens (toks : list (Z * cal_unit)) (from : Time) :
  instant_tokens from (map whole_token toks) = instant_whole from toks.
Proof.
  revert from. induction toks as [|[n u] toks IH]; intros from; [reflexivity|].
  cbn [map instant_tokens instant_whole whole_token fst snd whole digits unit_of].
  cbv zeta. now rewrite IH.
Qed.

(** C7. A text of whole month and year tokens parses to the sum of
    what the tokens resolve to in turn ([total_whole]): the first at
    the reference instant, every following one at the instant the
    token before it was resolved at, moved forward by the ticks that
    token resolved to. When more text follows the tokens, the loop goes
    on with that sum and the instant the last token has left
    ([instant_whole]). This holds for every list of tokens whose
    numbers are at most [1<<63] and whose sum stays below [1<<63]. *)
Theorem calendar_tokens_resolve_in_turn (from : Time)
    (toks : list (Z * cal_unit)) :
  Forall (fun tok => 0 <= fst tok <= two63) toks ->
  total_whole from toks < two63 ->
  ParseDuration from (String "P" (render_whole toks))
    = Ok (total_whole from toks) /\
  (forall rest : string, ends_here rest ->
     ParseDuration from (String "P" (render_whole toks ++ rest))
       = run false (PState (total_whole from toks) (instant_whole from toks) false)
           rest).
Proof.
  intros Hok Hsum.
  assert (Hoks : Forall token_ok (map whole_token toks)).
  { apply Forall_map. eapply Forall_impl; [|exact Hok].
    intros [n u] Hn. split; [exact Hn | exact I]. }
  assert (Hrun : forall rest : string, ends_here rest ->
     ParseDuration from (String "P" (render_whole toks ++ rest))
       = run false (PState (total_whole from toks) (instant_whole from toks) false)
           rest).
  { intros rest Hrest. rewrite ParseDuration_P.
    rewrite <- render_whole_tokens, <- total_whole_tokens, <- instant_whole_tokens in *.
    rewrite run_tokens; try assumption; try lia. now rewrite Z.add_0_l. }
  split; [|exact Hrun].
  specialize (Hrun "" I). rewrite append_nil_r in Hrun. rewrite Hrun, run_nil.
  cbn [acc]. apply finish_positive.
  rewrite <- total_whole_tokens in *.
  split; [apply total_tokens_nonneg | assumption].
Qed.

(** C10. In a text of month and year tokens, a token with a fraction
    moves the reference instant twice ([total_tokens],
    [instant_tokens]): by the ticks its whole part resolved to, and
    then by the ticks its fraction resolved to, the fraction being
    resolved at the instant the whole part has left. The token after it
    is resolved at the instant moved by both, and so is whatever
    follows the tokens. This holds for every list of tokens with
    numbers up to [1<<63], fractions of a value other than zero, and a
    sum below [1<<63]. *)
Theorem fraction_moves_reference (from : Time) (toks : list cal_token) :
  Forall token_ok toks ->
  total_tokens from toks < two63 ->
  ParseDuration from (String "P" (render_tokens toks))
    = Ok (total_tokens from toks) /\
  (forall rest : string, ends_here rest ->
     ParseDuration from (String "P" (render_tokens toks ++ rest))
       = run false
           (PState (total_tokens from toks) (instant_tokens from toks) false)
           rest).
Proof.
  intros Hok Hsum.
  assert (Hrun : forall rest : string, ends_here rest ->
     ParseDuration from (String "P" (render_tokens toks ++ rest))
       = run false
           (PState (total_tokens from toks) (instant_tokens from toks) false)
           rest).
  { intros rest Hrest. rewrite ParseDuration_P.
    rewrite run_tokens; try assumption; try lia. now rewrite Z.add_0_l. }
  split; [|exact Hrun].
  specialize (Hrun "" I). rewrite append_nil_r in Hrun. rewrite Hrun, run_nil.
  cbn [acc]. apply finish_positive.
  split; [apply total_tokens_nonneg | assumption].
Qed.

End CalendarTheorems.

(** ** Instances in UTC *)

Section Instances.

Import UTC.

(** The examples of the package documentation. *)
Example parse_P1Y1M1D_zero :
  ParseDuration zero_time "P1Y1M1D" = Ok (9528 * Hour).
Proof. vm_compute. reflexivity. Qed.

Example parse_P1Y1M1D_2020 :
  ParseDuration (at_utc 2020 1 1 1 1 1 1) "P1Y1M1D" = Ok (9552 * Hour).
Proof. vm_compute. reflexivity. Qed.

Example parse_from_2006 :
  ParseDuration (at_utc 2006 1 2 15 4 5 0) "P3Y6M4DT12H30M17S"
    = Ok (30756 * Hour + 30 * Minute + 17 * Second).
Proof. vm_compute. reflexivity. Qed.

Example parse_half_minute :
  ParseDuration (at_utc 2006 1 2 15 4 5 0) "PT12H30.5M"
    = Ok (12 * Hour + 30 * Minute + 30 * Second).
Proof. vm_compute. reflexivity. Qed.

(** Three years from the zero instant end on January 1 of year 4, a
    leap year: the six months after them have 182 days. Six months
    from the zero instant itself have 181. *)
Example parse_P3Y6M_in_turn :
  ParseDuration zero_time "P3Y6M" = Ok ((1095 + 182) * 24 * Hour) /\
  year zero_time 3 zero = 1095 * 24 * Hour /\
  month zero_time 6 zero = 181 * 24 * Hour.
Proof. vm_compute. repeat split; reflexivity. Qed.

Lemma calendar_tokens_resolve_in_turn_witness :
  Forall (fun tok => 0 <= fst tok <= two63) [(3, Years); (6, Months)] /\
  total_whole zero_time [(3, Years); (6, Months)] < two63 /\
  ParseDuration zero_time (String "P" (render_whole [(3, Years); (6, Months)]))
    = Ok (total_whole zero_time [(3, Years); (6, Months)]).
Proof.
  assert (Hok : Forall (fun tok => 0 <= fst tok <= two63) [(3, Years); (6, Months)])
    by (repeat constructor; simpl; unfold two63; lia).
  assert (Hsum : total_whole zero_time [(3, Years); (6, Months)] < two63)
    by (vm_compute; reflexivity).
  exact (conj Hok (conj Hsum
           (proj1 (calendar_tokens_resolve_in_turn zero_time _ Hok Hsum)))).
Defined.

Lemma fraction_moves_reference_witness :
  Forall token_ok [CalToken 1 (Some "5") Months; CalToken 1 None Years] /\
  total_tokens zero_time [CalToken 1 (Some "5") Months; CalToken 1 None Years]
    < two63 /\
  ParseDuration zero_time
    (String "P" (render_tokens [CalToken 1 (Some "5") Months; CalToken 1 None Years]))
    = Ok (total_tokens zero_time
            [CalToken 1 (Some "5") Months; CalToken 1 None Years]).
Proof.
  assert (Hok : Forall token_ok
                  [CalToken 1 (Some "5") Months; CalToken 1 None Years])
    by (repeat constructor; simpl; unfold two63; try lia; try discriminate).
  assert (Hsum : total_tokens zero_time
                   [CalToken 1 (Some "5") Months; CalToken 1 None Years] < two63)
    by (vm_compute; reflexivity).
  exact (conj Hok (conj Hsum
           (proj1 (fraction_moves_reference zero_time _ Hok Hsum)))).
Defined.

(** One and a half months and a year from the zero instant: January,
    half of February, and the year from February 15. *)
Example parse_P1_5M1Y :
  ParseDuration zero_time "P1.5M1Y" = Ok ((31 + 14 + 365) * 24 * Hour).
Proof. vm_compute. reflexivity. Qed.

End Instances.

(** ** The kinds of error the parser reports *)

Section ErrorKinds.

Context {rt : Runtime}.

Lemma sampleUnits_unit_error (tbl : sampleUnits) (name : string) (v : Z)
    (scale : float64) (e : error) :
  sampleUnits_unit tbl name v scale = Err e -> reported e.
Proof.
  unfold sampleUnits_unit, reported. destruct (get tbl name) as [unit|].
  - destruct (negb (is_zero scale)).
    + destruct (_ >? two63); [intros [= <-]; tauto | discriminate].
    + destruct (v >? two63 / unit); [intros [= <-]; tauto | discriminate].
  - intros [= <-]. tauto.
Qed.

Lemma call_unit_error (it : bool) (from : Time) (u : string) (v : Z)
    (scale : float64) (e : error) :
  fst (call_unit it from u v scale) = Err e -> reported e.
Proof.
  unfold call_unit, duration_unit. destruct it; cbn [fst].
  - apply sampleUnits_unit_error.
  - destruct (get dateUnit u); cbn [fst]; [apply sampleUnits_unit_error|].
    destruct (get units u) as [unit|]; cbn [fst].
    + destruct (_ >? two63); cbn [fst]; [|discriminate].
      intros [= <-]. unfold reported. tauto.
    + intros [= <-]. unfold reported. tauto.
Qed.

Lemma token_error (d : Z) (from : Time) (it : bool) (s : string) (e : error) :
  token d from it s = Err e -> reported e.
Proof.
  unfold token. destruct s as [|c s]; [discriminate|].
  destruct (negb (dot_or_digit c)); [intros [= <-]; unfold reported; tauto|].
  destruct (leadingInt (String c s)) as [[v s1]|e1| |]; try discriminate;
    [|intros [= <-]; unfold reported; tauto].
  destruct (match s1 with
            | String c0 s'0 =>
                if (c0 =? ".")%char
                then let pl := String.length s'0 in
                     let '(f, scale, s0) := leadingFraction s'0 in
                     (f, scale, s0, negb (Nat.eqb pl (String.length s0)))
                else (0, one, s1, false)
            | EmptyString => (0, one, s1, false)
            end) as [[[f scale] s2] post].
  destruct (_ && _); [intros [= <-]; unfold reported; tauto|].
  destruct (Nat.eqb (unit_end s2) 0); [intros [= <-]; unfold reported; tauto|].
  destruct (call_unit it from (take (unit_end s2) s2) v zero)
    as [[v1|e1| |] from1] eqn:Hcall; try discriminate.
  - destruct (f >? 0).
    + destruct (call_unit it from1 (take (unit_end s2) s2) f scale)
        as [[r|e2| |] from2] eqn:Hcall2; try discriminate.
      * destruct (d >? _); [intros [= <-]; unfold reported; tauto|discriminate].
      * intros [= <-].
        apply (call_unit_error it from1 (take (unit_end s2) s2) f scale).
        now rewrite Hcall2.
    + destruct (d >? _); [intros [= <-]; unfold reported; tauto|discriminate].
  - intros [= <-].
    apply (call_unit_error it from (take (unit_end s2) s2) v zero).
    now rewrite Hcall.
Qed.

Lemma loop_error (fuel : nat) (neg : bool) (st : pstate) (s : string)
    (e : error) :
  loop fuel neg st s = Err e -> reported e.
Proof.
  revert st s. induction fuel as [|fuel IH]; intros st s.
  - destruct s; [|discriminate]. cbn [loop]. unfold finish.
    destruct neg; [discriminate|].
    destruct (_ >? _); [intros [= <-]; unfold reported; tauto|discriminate].
  - destruct s as [|c s].
    + cbn [loop]. unfold finish. destruct neg; [discriminate|].
      destruct (_ >? _); [intros [= <-]; unfold reported; tauto|discriminate].
    + cbn [loop]. destruct (turn st (String c s)) as [[st' s']|e1| |] eqn:Hturn;
        try discriminate; [apply IH|].
      intros [= <-]. unfold turn in Hturn.
      destruct (c =? "T")%char; now apply token_error in Hturn.
Qed.

(** Every error of [ParseDuration] wraps [ErrInvalidDuration],
    [ErrMissingUnit] or [ErrOverflow]. *)
Lemma ParseDuration_error (from : Time) (s : string) (e : error) :
  ParseDuration from s = Err e -> reported e.
Proof.
  unfold ParseDuration.
  destruct (match s with
            | String c s' =>
                if (c =? "-")%char || (c =? "+")%char
                then ((c =? "-")%char, s') else (false, s)
            | EmptyString => (false, s)
            end) as [neg s0].
  destruct s0 as [|c s0]; [intros [= <-]; unfold reported; tauto|].
  destruct (negb (c =? "P")%char); [intros [= <-]; unfold reported; tauto|].
  apply loop_error.
Qed.

(** The fuel of the loop never runs out. *)
Lemma token_fuel (d : Z) (from : Time) (it : bool) (s : string) :
  token d from it s <> OutOfFuel.
Proof.
  unfold token. destruct s as [|c s]; [discriminate|].
  destruct (negb (dot_or_digit c)); [discriminate|].
  assert (Hint : forall x s, leadingInt_from x s <> OutOfFuel).
  { intros x s0. revert x. induction s0 as [|c0 s0 IH]; intros x; simpl;
      [discriminate|].
    destruct (not_digit c0); [discriminate|].
    destruct (x >? two63 / 10); [discriminate|].
    destruct (_ >? two63); [discriminate|apply IH]. }
  specialize (Hint 0 (String c s)). fold (leadingInt (String c s)) in Hint.
  destruct (leadingInt (String c s)) as [[v s1]|e1| |]; try discriminate;
    [|contradiction].
  destruct (match s1 with
            | String c0 s'0 =>
                if (c0 =? ".")%char
                then let pl := String.length s'0 in
                     let '(f, scale, s0) := leadingFraction s'0 in
                     (f, scale, s0, negb (Nat.eqb pl (String.length s0)))
                else (0, one, s1, false)
            | EmptyString => (0, one, s1, false)
            end) as [[[f scale] s2] post].
  destruct (_ && _); [discriminate|].
  destruct (Nat.eqb (unit_end s2) 0); [discriminate|].
  assert (Hcall : forall from u v scale,
             fst (call_unit it from u v scale) <> OutOfFuel).
  { intros from0 u v0 scale0. unfold call_unit, duration_unit, sampleUnits_unit.
    destruct it; cbn [fst].
    - destruct (get timeUnits u); [|discriminate].
      destruct (negb (is_zero scale0)); [destruct (_ >? two63)|destruct (_ >? _)];
        discriminate.
    - destruct (get dateUnit u); cbn [fst].
      + destruct (negb (is_zero scale0)); [destruct (_ >? two63)|destruct (_ >? _)];
          discriminate.
      + destruct (get units u); cbn [fst]; [|discriminate].
        destruct (_ >? two63); discriminate. }
  pose proof (Hcall from (take (unit_end s2) s2) v zero) as H1.
  destruct (call_unit it from (take (unit_end s2) s2) v zero)
    as [[v1|e1| |] from1]; try discriminate; [|now cbn [fst] in H1].
  destruct (f >? 0).
  - pose proof (Hcall from1 (take (unit_end s2) s2) f scale) as H2.
    destruct (call_unit it from1 (take (unit_end s2) s2) f scale)
      as [[r|e2| |] from2]; try discriminate; [|now cbn [fst] in H2].
    destruct (d >? _); discriminate.
  - destruct (d >? _); discriminate.
Qed.

Lemma ParseDuration_fuel (from : Time) (s : string) :
  ParseDuration from s <> OutOfFuel.
Proof.
  assert (Hloop : forall neg s st, run neg st s <> OutOfFuel).
  { intros neg s0. remember (String.length s0) as n eqn:Hn.
    revert s0 Hn. induction n as [n IH] using lt_wf_ind. intros s0 Hn st.
    destruct s0 as [|c s0].
    - rewrite run_nil. unfold finish. destruct neg; [discriminate|].
      destruct (_ >? _); discriminate.
    - rewrite run_turn by discriminate.
      destruct (turn st (String c s0)) as [[st' s']|e| |] eqn:Hturn;
        try discriminate.
      + apply turn_shortens in Hturn. apply (IH (String.length s')); [lia|reflexivity].
      + unfold turn in Hturn. destruct (c =? "T")%char;
          now apply token_fuel in Hturn. }
  unfold ParseDuration.
  destruct (match s with
            | String c s' =>
                if (c =? "-")%char || (c =? "+")%char
                then ((c =? "-")%char, s') else (false, s)
            | EmptyString => (false, s)
            end) as [neg s0].
  destruct s0 as [|c s0]; [discriminate|].
  destruct (negb (c =? "P")%char); [discriminate|]. apply Hloop.
Qed.

End ErrorKinds.

(** ** Malformed texts, unknown units and overflow *)

Section Rejections.

Context {rt : Runtime}.

(** C1, as the code has it. The empty text, a text without the
    leading [P], digits without a unit and a point without digits are
    rejected, each with one fixed kind of error: [ErrInvalidDuration]
    for the first, the second and the fourth, [ErrMissingUnit] for the
    third. *)
Theorem malformed_texts_rejected (from : Time) :
  ParseDuration from "" = Err ErrInvalidDuration /\
  ParseDuration from "1D" = Err ErrInvalidDuration /\
  ParseDuration from "P1" = Err ErrMissingUnit /\
  ParseDuration from "P.D" = Err ErrInvalidDuration.
Proof. repeat split; reflexivity. Qed.

(** The resolvers answer a name that is in none of their tables with
    [ErrMissingUnit]. *)
Lemma unknown_name_missing (in_time : bool) (from : Time) (name : string)
    (v : Z) (scale : float64) :
  (if in_time then get timeUnits name
   else match get dateUnit name with
        | Some u => Some u
        | None => match get units name with Some _ => Some 0 | None => None end
        end) = None ->
  fst (call_unit in_time from name v scale) = Err ErrMissingUnit.
Proof.
  unfold call_unit, duration_unit. destruct in_time; intros H.
  - cbn [fst]. now apply sampleUnits_missing.
  - destruct (get dateUnit name); [discriminate|].
    destruct (get units name); [discriminate|]. reflexivity.
Qed.

(** A name that is in no table of the resolver in force. *)
Lemma token_unknown_unit (d : Z) (from : Time) (it : bool)
    (ds : string) (c : ascii) (rest : string) :
  ds <> "" -> all_digits ds = true -> dec_value ds <= two63 ->
  ends_unit c = false -> ends_here rest ->
  fixed_unit it c = None -> (it = false -> get units (String c "") = None) ->
  token d from it (ds ++ String c rest) = Err ErrMissingUnit.
Proof.
  intros Hne Hds Hval Hc Hrest Hfixed Hcal.
  rewrite token_whole by assumption.
  pose proof (unknown_name_missing it from (String c "") (dec_value ds) zero) as H.
  destruct (call_unit it from (String c "") (dec_value ds) zero) as [o from'].
  cbn [fst] in H. rewrite H; [reflexivity|].
  unfold fixed_unit in Hfixed. destruct it; [exact Hfixed|].
  rewrite Hfixed, Hcal; reflexivity.
Qed.

(** No parse fails with [ErrUnknownUnit] or with [ErrLeadingInt]. *)
Lemma unused_kinds_never_reported (from : Time) (s : string) :
  ParseDuration from s <> Err ErrUnknownUnit /\
  ParseDuration from s <> Err ErrLeadingInt.
Proof.
  split; intros H; apply ParseDuration_error in H;
    destruct H as [H|[H|H]]; discriminate.
Qed.

(** C3, what the code does. A first token with a unit letter that is in
    no table of the resolver in force, in front of the [T] or behind
    it, makes the parse fail with [ErrMissingUnit], the kind of a number
    without a unit (["P1"]); and no parse at all fails with
    [ErrUnknownUnit]. *)
Theorem unknown_unit_reported_as_missing (from : Time)
    (ds : string) (c : ascii) (rest : string) :
  ds <> "" -> all_digits ds = true -> dec_value ds <= two63 ->
  ends_unit c = false -> ends_here rest ->
  (get dateUnit (String c "") = None -> get units (String c "") = None ->
   ParseDuration from (String "P" (ds ++ String c rest)) = Err ErrMissingUnit) /\
  (get timeUnits (String c "") = None ->
   ParseDuration from (String "P" (String "T" (ds ++ String c rest)))
     = Err ErrMissingUnit) /\
  (forall s : string, ParseDuration from s <> Err ErrUnknownUnit).
Proof.
  intros Hne Hds Hval Hc Hrest.
  assert (Hdigit : exists c0 r0, ds = String c0 r0 /\ not_digit c0 = false).
  { destruct ds as [|c0 r0]; [contradiction|]. exists c0, r0.
    split; [reflexivity|]. cbn [all_digits] in Hds.
    apply andb_true_iff in Hds. now apply negb_true_iff. }
  destruct Hdigit as (c0 & r0 & Heq & Hc0).
  split; [|split].
  - intros Hdate Hcal. rewrite ParseDuration_P.
    rewrite run_turn by (rewrite Heq; discriminate).
    rewrite Heq at 1. cbn [append]. rewrite turn_digit by assumption.
    change (String c0 (r0 ++ String c rest)) with (String c0 r0 ++ String c rest)%string.
    rewrite <- Heq. cbn [acc ref in_time].
    now rewrite token_unknown_unit.
  - intros Htime. rewrite ParseDuration_P.
    rewrite run_turn by discriminate. rewrite turn_T. cbn [acc ref].
    rewrite token_unknown_unit; try assumption; [reflexivity|discriminate].
  - intros s. apply unused_kinds_never_reported.
Qed.

(** A run of digits above [1<<63] in the turn of the loop. *)
Lemma token_leading_int_overflow (d : Z) (from : Time) (it : bool)
    (ds rest : string) :
  ds <> "" -> all_digits ds = true -> no_digit_ahead rest ->
  two63 < dec_value ds ->
  leadingInt (ds ++ rest) = Err ErrLeadingInt /\
  token d from it (ds ++ rest) = Err ErrInvalidDuration.
Proof.
  intros Hne Hds Hrest Hval.
  assert (Hint : leadingInt (ds ++ rest) = Err ErrLeadingInt).
  { rewrite leadingInt_digits by assumption.
    destruct (Z.leb_spec (dec_value ds) two63); [lia | reflexivity]. }
  split; [exact Hint|].
  destruct ds as [|c0 ds]; [contradiction|].
  assert (Hc0 : not_digit c0 = false).
  { cbn [all_digits] in Hds. apply andb_true_iff in Hds.
    now apply negb_true_iff. }
  unfold token. cbn [append] in *. rewrite (proj1 (digit_begins c0 Hc0)).
  cbn [negb]. now rewrite Hint.
Qed.

(** The loop goes on from where [turns] has arrived. *)
Lemma run_turns (n : nat) (neg : bool) (st st' : pstate) (s s' : string) :
  turns n st s = Ok (st', s') -> run neg st s = run neg st' s'.
Proof.
  revert st s. induction n as [|n IH]; intros st s.
  - cbn [turns]. now intros [= <- <-].
  - destruct s as [|c s0]; cbn [turns]; [now intros [= <- <-]|].
    rewrite run_turn by discriminate.
    destruct (turn st (String c s0)) as [[st1 s1]|e| |]; try discriminate.
    apply IH.
Qed.

(** A turn of the loop in front of a run of digits above [1<<63], with
    or without a [T] before the run. *)
Lemma turn_leading_int_overflow (st : pstate) (tee : bool) (ds rest : string) :
  ds <> "" -> all_digits ds = true -> no_digit_ahead rest ->
  two63 < dec_value ds ->
  turn st ((if tee then "T" else "") ++ ds ++ rest) = Err ErrInvalidDuration.
Proof.
  intros Hne Hds Hrest Hval. destruct tee; cbn [append].
  - rewrite turn_T.
    exact (proj2 (token_leading_int_overflow _ _ true ds rest Hne Hds Hrest Hval)).
  - destruct ds as [|c0 r0] eqn:Eds; [contradiction|].
    assert (Hc0 : not_digit c0 = false).
    { cbn [all_digits] in Hds. apply andb_true_iff in Hds.
      now apply negb_true_iff. }
    cbn [append]. rewrite turn_digit by assumption.
    change (String c0 (r0 ++ rest)) with (String c0 r0 ++ rest)%string.
    exact (proj2 (token_leading_int_overflow _ _ _ (String c0 r0) rest
                    Hne Hds Hrest Hval)).
Qed.

(** C8, as the code has it. Wherever it stands in the text: when the
    loop, after any number of turns that have not failed, is in front
    of a token (behind a [T] or not) whose run of digits in front of
    the point denotes more than [1<<63], [leadingInt] returns
    [ErrLeadingInt] and [ParseDuration] puts [ErrInvalidDuration] in
    its place, for the text without a sign, behind a [-] and behind a
    [+]: the caller gets the kind of a malformed text, which is not the
    kind [ErrOverflow] of the tests after the units are resolved; and
    no parse at all fails with [ErrLeadingInt]. *)
Theorem leading_int_overflow_reported_as_invalid (from : Time) (n : nat)
    (body : string) (st : pstate) (tee : bool) (ds rest : string) :
  turns n (PState 0 from false) body
    = Ok (st, ((if tee then "T" else "") ++ ds ++ rest)%string) ->
  ds <> "" -> all_digits ds = true -> no_digit_ahead rest ->
  two63 < dec_value ds ->
  leadingInt (ds ++ rest) = Err ErrLeadingInt /\
  ParseDuration from (String "P" body) = Err ErrInvalidDuration /\
  ParseDuration from (String "-" (String "P" body)) = Err ErrInvalidDuration /\
  ParseDuration from (String "+" (String "P" body)) = Err ErrInvalidDuration /\
  (forall s : string, ParseDuration from s <> Err ErrLeadingInt).
Proof.
  intros Hturns Hne Hds Hrest Hval.
  split; [now apply (token_leading_int_overflow 0 from false)|].
  assert (Hrun : forall neg, run neg (PState 0 from false) body
                             = Err ErrInvalidDuration).
  { intros neg. rewrite (run_turns n neg _ _ _ _ Hturns).
    rewrite run_turn.
    - now rewrite turn_leading_int_overflow.
    - destruct tee; [discriminate|]. cbn [append].
      destruct ds; [contradiction | discriminate]. }
  split; [rewrite ParseDuration_P; apply Hrun|].
  split; [rewrite ParseDuration_minus_P; apply Hrun|].
  split; [exact (Hrun false)|].
  intros s. apply unused_kinds_never_reported.
Qed.

(** The test before [d += v] catches a sum above [1<<63] when the
    token itself is within [1<<63]. *)
Lemma accumulation_guard (d v : Z) :
  0 <= d <= two63 -> 0 <= v <= two63 ->
  (d >? u64 (two63 - v)) = (d + v >? two63).
Proof.
  intros Hd Hv. rewrite u64_small by (unfold two63, two64 in *; lia).
  destruct (Z.gtb_spec d (two63 - v)); destruct (Z.gtb_spec (d + v) two63); lia.
Qed.

(** For a token above [1<<63] the bound [1<<63 - v] wraps around and
    the test never fires. *)
Lemma accumulation_guard_wraps (d v : Z) :
  0 <= d <= two63 -> two63 < v < two64 -> (d >? u64 (two63 - v)) = false.
Proof.
  intros Hd Hv.
  assert (Hw : u64 (two63 - v) = two64 + two63 - v).
  { unfold u64. symmetry.
    apply Z.mod_unique with (q := -1); unfold two63, two64 in *; lia. }
  rewrite Hw. destruct (Z.gtb_spec d (two64 + two63 - v)); [|reflexivity].
  unfold two63, two64 in *. lia.
Qed.

(** The ends of the range: a total of exactly [1<<63] is the least
    [int64] behind a [-] and an overflow without it. *)
Lemma finish_boundary :
  finish true two63 = Ok (- two63) /\ finish false two63 = Err ErrOverflow.
Proof. split; reflexivity. Qed.

Example parse_boundary (from : Time) :
  ParseDuration from "-PT9223372036.854775808S" = Ok (- two63) /\
  ParseDuration from "PT9223372036.854775808S" = Err ErrOverflow /\
  ParseDuration from "PT9223372036.854775807S" = Ok (two63 - 1).
Proof. repeat split; vm_compute; reflexivity. Qed.

(** C5, what the code does at the boundary and above it. A total of
    exactly [1<<63] gives the least [int64] behind a [-] and
    [ErrOverflow] without a sign, and the test before [d += v] reports
    a sum above [1<<63] as long as the token is within [1<<63]. But the
    fraction of a token is added to its whole part without a test: in
    [9223372036.9S] the token is worth more than [1<<63], the bound
    [1<<63 - v] of the test wraps around, and the total is accepted.
    Behind a [-] the parse then succeeds, with the positive value the
    total has as an [int64] negated; without a sign the test after the
    loop reports the overflow. *)
Theorem overflow_above_boundary_wraps (from : Time) :
  (finish true two63 = Ok (- two63) /\ finish false two63 = Err ErrOverflow) /\
  (forall d v : Z, 0 <= d <= two63 -> 0 <= v <= two63 ->
     (d >? u64 (two63 - v)) = (d + v >? two63)) /\
  (forall d v : Z, 0 <= d <= two63 -> two63 < v < two64 ->
     (d >? u64 (two63 - v)) = false) /\
  9223372036 * Second + 900000000 > two63 /\
  ParseDuration from "-PT9223372036.9S" = Ok 9223372036809551616 /\
  ParseDuration from "PT9223372036.9S" = Err ErrOverflow.
Proof.
  split; [exact finish_boundary|].
  split; [exact accumulation_guard|].
  split; [exact accumulation_guard_wraps|].
  repeat split; vm_compute; reflexivity.
Qed.

End Rejections.

(** ** Counterexamples and instances *)

Section Counterexamples.

Import UTC.

(** C1 as stated fails for the bare designator: ["P"] is not rejected,
    it parses to the zero duration. *)
Lemma bare_designator_accepted :
  ParseDuration zero_time "P" = Ok 0 /\
  ~ (exists e : error, ParseDuration zero_time "P" = Err e).
Proof.
  split; [reflexivity|]. intros [e H]. discriminate H.
Qed.

(** C2 as stated fails for one hour: the text has a [T] section and
    does not end with the seconds. *)
Lemma one_hour_without_seconds :
  FormatDuration (1 * Hour) = "PT1H" /\
  has_byte "T" (FormatDuration (1 * Hour)) = true /\
  last_byte (FormatDuration (1 * Hour)) <> Some "S"%char.
Proof. repeat split; try reflexivity. vm_compute. discriminate. Qed.

(** C6 as stated fails for a negative tick value, and for a text that
    has a sign already. *)
Lemma sign_symmetry_fails :
  -1 <> 0 /\
  FormatDuration (- (-1)) <> ("-" ++ FormatDuration (-1))%string /\
  ParseDuration zero_time "-P1D" = Ok (- (24 * Hour)) /\
  ParseDuration zero_time ("-" ++ "-P1D") <> Ok (- - (24 * Hour)).
Proof.
  split; [discriminate|].
  split; [intros H; apply String.eqb_eq in H; vm_compute in H; discriminate H|].
  split; [vm_compute; reflexivity|]. intros H. vm_compute in H. discriminate H.
Qed.

(** C8 as stated fails for a run of digits above [1<<63]: the caller
    gets [ErrInvalidDuration], not [ErrLeadingInt]. And not every run
    of digits that overflows makes the parse fail: behind the point
    [leadingFraction] stops adding digits and the text parses, and in
    front of such a run a token that fails decides the kind. *)
Lemma leading_int_kind_replaced :
  leadingInt "9223372036854775809D" = Err ErrLeadingInt /\
  ParseDuration zero_time "P9223372036854775809D" = Err ErrInvalidDuration /\
  ParseDuration zero_time "P9223372036854775809D" <> Err ErrLeadingInt /\
  ParseDuration zero_time "PT0.99999999999999999999S" = Ok 1000000000 /\
  ParseDuration zero_time "P1X9223372036854775809D" = Err ErrMissingUnit.
Proof.
  split; [reflexivity|]. split; [reflexivity|]. split; [discriminate|].
  split; vm_compute; reflexivity.
Qed.

Lemma leading_int_overflow_reported_as_invalid_witness :
  (turns 2 (PState 0 zero_time false) "1Y2DT9223372036854775809S"
     = Ok (PState 31708800000000000 (at_utc 2 1 1 0 0 0 0) false,
           (("T" ++ "9223372036854775809" ++ "S")%string)) /\
   "9223372036854775809" <> "" /\ all_digits "9223372036854775809" = true /\
   no_digit_ahead "S" /\ two63 < dec_value "9223372036854775809") /\
  leadingInt ("9223372036854775809" ++ "S") = Err ErrLeadingInt /\
  ParseDuration zero_time "P1Y2DT9223372036854775809S" = Err ErrInvalidDuration /\
  ParseDuration zero_time "-P1Y2DT9223372036854775809S" = Err ErrInvalidDuration.
Proof.
  assert (H0 : turns 2 (PState 0 zero_time false) "1Y2DT9223372036854775809S"
     = Ok (PState 31708800000000000 (at_utc 2 1 1 0 0 0 0) false,
           (((if true then "T" else "") ++ "9223372036854775809" ++ "S")%string)))
    by reflexivity.
  assert (H1 : "9223372036854775809" <> "") by discriminate.
  assert (H2 : all_digits "9223372036854775809" = true) by reflexivity.
  assert (H3 : no_digit_ahead "S") by reflexivity.
  assert (H4 : two63 < dec_value "9223372036854775809") by reflexivity.
  pose proof (leading_int_overflow_reported_as_invalid zero_time 2 _ _ true _ _
                H0 H1 H2 H3 H4) as H.
  exact (conj (conj H0 (conj H1 (conj H2 (conj H3 H4))))
              (conj (proj1 H)
                    (conj (proj1 (proj2 H)) (proj1 (proj2 (proj2 H)))))).
Defined.

Lemma unknown_unit_reported_as_missing_witness :
  ("1" <> "" /\ all_digits "1" = true /\ dec_value "1" <= two63 /\
   ends_unit "X" = false /\ ends_here "") /\
  ParseDuration zero_time "P1X" = Err ErrMissingUnit /\
  ParseDuration zero_time "PT1X" = Err ErrMissingUnit.
Proof.
  assert (H1 : "1" <> "") by discriminate.
  assert (H2 : all_digits "1" = true) by reflexivity.
  assert (H3 : dec_value "1" <= two63) by discriminate.
  assert (H4 : ends_unit "X" = false) by reflexivity.
  assert (H5 : ends_here "") by exact I.
  pose proof (unknown_unit_reported_as_missing zero_time "1" "X" "" H1 H2 H3 H4 H5)
    as H.
  exact (conj (conj H1 (conj H2 (conj H3 (conj H4 H5))))
              (conj (proj1 H eq_refl eq_refl) (proj1 (proj2 H) eq_refl))).
Defined.

Lemma FormatDuration_omits_zero_fields_witness :
  in_i64 (25 * Hour) /\ 25 * Hour <> 0 /\
  FormatDuration (25 * Hour) = "P1DT1H".
Proof.
  assert (H1 : in_i64 (25 * Hour)) by (vm_compute; split; [discriminate | reflexivity]).
  assert (H2 : 25 * Hour <> 0) by discriminate.
  exact (conj H1 (conj H2
           (proj1 (FormatDuration_omits_zero_fields (25 * Hour) H1 H2)))).
Defined.

Lemma ParseDuration_FormatDuration_witness :
  in_i64 (- two63) /\
  ParseDuration zero_time (FormatDuration (- two63)) = Ok (- two63).
Proof.
  assert (H1 : in_i64 (- two63)) by (vm_compute; split; [discriminate | reflexivity]).
  exact (conj H1 (ParseDuration_FormatDuration zero_time (- two63) H1)).
Defined.

Lemma sign_symmetry_witness :
  (0 < 90061000000001 < two63 /\
   FormatDuration (- 90061000000001)
     = ("-" ++ FormatDuration 90061000000001)%string) /\
  (has_sign "P1DT1H1M1.000000001S" = false /\
   ParseDuration zero_time "P1DT1H1M1.000000001S" = Ok 90061000000001 /\
   ParseDuration zero_time ("-" ++ "P1DT1H1M1.000000001S")
     = Ok (- 90061000000001)).
Proof.
  assert (H1 : 0 < 90061000000001 < two63) by (unfold two63; lia).
  assert (H2 : has_sign "P1DT1H1M1.000000001S" = false) by reflexivity.
  assert (H3 : ParseDuration zero_time "P1DT1H1M1.000000001S"
               = Ok 90061000000001) by (vm_compute; reflexivity).
  exact (conj (conj H1 (proj1 sign_symmetry _ H1))
              (conj H2 (conj H3 (proj2 sign_symmetry zero_time _ _ H2 H3)))).
Defined.

End Counterexamples.

(** ** The buffer of the formatter is long enough *)

Section BufferLength.

Lemma fmtInt_loop_length (fuel : nat) (v : Z) (k : nat) :
  0 <= v < 10 ^ Z.of_nat k -> (String.length (fmtInt_loop fuel "" v) <= k)%nat.
Proof.
  revert v k. induction fuel as [|fuel IH]; intros v k Hv; [simpl; lia|].
  cbn [fmtInt_loop]. destruct (Z.gtb_spec v 0) as [Hpos|_]; [|simpl; lia].
  destruct k as [|k]; [simpl in Hv; lia|].
  rewrite fmtInt_loop_app, length_append. cbn [String.length].
  assert (Hdiv : 0 <= v / 10 < 10 ^ Z.of_nat k).
  { rewrite Nat2Z.inj_succ, Z.pow_succ_r in Hv by lia.
    split; [apply Z.div_pos; lia | apply Z.div_lt_upper_bound; lia]. }
  specialize (IH (v / 10) k Hdiv). lia.
Qed.

Lemma field_length (n : Z) (letter : string) (k : nat) :
  0 <= n < 10 ^ Z.of_nat k ->
  (String.length (field n letter) <= k + String.length letter)%nat.
Proof.
  intros Hn. unfold field. destruct (Z.gtb_spec n 0) as [Hpos|_]; [|simpl; lia].
  rewrite length_append. unfold decimal, fmtInt.
  destruct (Z.eqb_spec n 0); [lia|].
  pose proof (fmtInt_loop_length 20 n k Hn). lia.
Qed.

Lemma decimal_length (n : Z) (k : nat) :
  0 <= n < 10 ^ Z.of_nat k -> (String.length (decimal n) <= Nat.max k 1)%nat.
Proof.
  intros Hn. unfold decimal, fmtInt. destruct (Z.eqb_spec n 0); [simpl; lia|].
  pose proof (fmtInt_loop_length 20 n k Hn). lia.
Qed.

Lemma fraction_length (ns : Z) :
  0 <= ns < 1000000000 -> (String.length (fraction ns) <= 10)%nat.
Proof.
  intros Hns. pose proof (fraction_spec ns Hns) as H.
  destruct (ns =? 0); [rewrite H; simpl; lia|].
  destruct H as (ds & -> & _ & Hlen & _). simpl. lia.
Qed.

(** X4. The text [FormatDuration] writes for an [int64] has at most 29
    bytes, so the index [w] never runs below the start of
    [buf [32]byte]. *)
Lemma FormatDuration_length (t : Z) :
  in_i64 t -> (String.length (FormatDuration t) <= 29)%nat.
Proof.
  intros Ht. destruct (Z.eq_dec t 0) as [->|Hnz]; [simpl; lia|].
  rewrite FormatDuration_canonical by assumption. unfold canonical.
  assert (Hu : 0 < Z.abs t <= two63) by (unfold in_i64 in Ht; lia).
  set (u := Z.abs t) in *. unfold two63 in Hu.
  set (ns := u mod 1000000000). set (secs := u / 1000000000).
  set (mins := secs / 60). set (hrs := mins / 60). set (days := hrs / 24).
  assert (Hns : 0 <= ns < 1000000000) by (apply Z.mod_pos_bound; lia).
  assert (Hsecs : 0 <= secs) by (apply Z.div_pos; lia).
  assert (Hs : 0 <= secs mod 60 < 60) by (apply Z.mod_pos_bound; lia).
  assert (Hmins : 0 <= mins) by (apply Z.div_pos; lia).
  assert (Hm : 0 <= mins mod 60 < 60) by (apply Z.mod_pos_bound; lia).
  assert (Hhrs : 0 <= hrs) by (apply Z.div_pos; lia).
  assert (Hh : 0 <= hrs mod 24 < 24) by (apply Z.mod_pos_bound; lia).
  assert (Hdays : 0 <= days < 1000000).
  { pose proof (Z.div_mod u 1000000000). pose proof (Z.div_mod secs 60).
    pose proof (Z.div_mod mins 60). pose proof (Z.div_mod hrs 24).
    split; [apply Z.div_pos; lia|]. subst ns secs mins hrs days. lia. }
  pose proof (field_length days "D" 6 Hdays) as Ld.
  pose proof (field_length (hrs mod 24) "H" 2 ltac:(simpl; lia)) as Lh.
  pose proof (field_length (mins mod 60) "M" 2 ltac:(simpl; lia)) as Lm.
  pose proof (decimal_length (secs mod 60) 2 ltac:(simpl; lia)) as Ls.
  pose proof (fraction_length ns Hns) as Lf.
  set (seconds := if (secs mod 60 =? 0) && (ns =? 0) then ""
                  else (decimal (secs mod 60) ++ fraction ns ++ "S")%string).
  assert (Lsec : (String.length seconds <= 13)%nat).
  { subst seconds. destruct (_ && _); [simpl; lia|].
    rewrite !length_append. simpl in *. lia. }
  set (time := (field (hrs mod 24) "H" ++ field (mins mod 60) "M" ++ seconds)%string).
  assert (Ltime : (String.length time <= 19)%nat).
  { subst time. rewrite !length_append. simpl in *. lia. }
  assert (LT : (String.length (match time with
                               | EmptyString => ""
                               | _ => "T" ++ time
                               end) <= 20)%nat).
  { destruct time; [simpl; lia|]. cbn [append String.length] in *. lia. }
  rewrite !length_append. cbn [String.length] in *.
  destruct (t <? 0); cbn [String.length]; lia.
Qed.

Lemma FormatDuration_length_witness :
  in_i64 (- two63) /\ (String.length (FormatDuration (- two63)) <= 29)%nat.
Proof.
  assert (H : in_i64 (- two63)) by (unfold in_i64, two63; lia).
  exact (conj H (FormatDuration_length (- two63) H)).
Defined.

End BufferLength.

(** ** The cases of the tests of the package *)

Section PackageTests.

Import UTC.

Example format_cases :
  FormatDuration (24 * Hour) = "P1D" /\
  FormatDuration Hour = "PT1H" /\
  FormatDuration Second = "PT1S" /\
  FormatDuration 1 = "PT0.000000001S" /\
  FormatDuration (- (24 * Hour)) = "-P1D" /\
  FormatDuration 0 = "PT0S" /\
  FormatDuration (25 * Hour) = "P1DT1H" /\
  FormatDuration (Second / 5) = "PT0.2S".
Proof. repeat split; reflexivity. Qed.

Example parse_cases :
  ParseDuration zero_time "PT12H30M17S"
    = Ok (12 * Hour + 30 * Minute + 17 * Second) /\
  ParseDuration zero_time "P10DT12H30M17S"
    = Ok (252 * Hour + 30 * Minute + 17 * Second) /\
  ParseDuration zero_time "P1D" = Ok (24 * Hour) /\
  ParseDuration zero_time "PT0.000000001S" = Ok 1 /\
  ParseDuration zero_time "PT1S" = Ok Second /\
  ParseDuration zero_time "P1DT1H" = Ok (25 * Hour) /\
  ParseDuration zero_time "PT0.2S" = Ok (200 * 1000000).
Proof. repeat split; vm_compute; reflexivity. Qed.

(** The text of the test named "zero time". The three years end on
    January 1 of year 4, where the six months have 182 days, so the loop
    arrives at 1281 days and 12h30m17s; the test of the package expects
    30732h30m17s, which is 1280 days and 12h30m17s, the value with the
    six months taken at the zero instant. *)
Example parse_from_zero_time :
  ParseDuration zero_time "P3Y6M4DT12H30M17S"
    = Ok (30756 * Hour + 30 * Minute + 17 * Second).
Proof. vm_compute. reflexivity. Qed.

(** A text that ends behind its [T] panics: [s[0]] of the empty rest. *)
Example parse_PT_panics : ParseDuration zero_time "PT" = Panic.
Proof. reflexivity. Qed.

End PackageTests.

(** * Further properties of the code *)

(** ** The scanner of whole numbers *)

Section LeadingIntFacts.

Lemma dec_value_from_bounds (s : string) (x : Z) :
  all_digits s = true -> 0 <= x ->
  x * 10 ^ Z.of_nat (String.length s) <= dec_value_from x s
    < (x + 1) * 10 ^ Z.of_nat (String.length s).
Proof.
  revert x. induction s as [|c s IH]; intros x Hs Hx.
  - cbn [dec_value_from String.length]. change (10 ^ Z.of_nat 0) with 1. lia.
  - cbn [all_digits] in Hs. apply andb_true_iff in Hs. destruct Hs as [Hc Hs].
    apply negb_true_iff, digit_code in Hc.
    cbn [dec_value_from String.length]. change (code "0") with 48.
    rewrite Nat2Z.inj_succ, Z.pow_succ_r by lia.
    specialize (IH (x * 10 + (code c - 48)) Hs ltac:(lia)).
    assert (0 < 10 ^ Z.of_nat (String.length s)) by (apply Z.pow_pos_nonneg; lia).
    nia.
Qed.

Lemma dec_value_bounds (s : string) :
  all_digits s = true -> 0 <= dec_value s < 10 ^ Z.of_nat (String.length s).
Proof.
  intros Hs. pose proof (dec_value_from_bounds s 0 Hs ltac:(lia)) as H.
  unfold dec_value. lia.
Qed.

(** [leadingInt] on any text: it reads the run of digits the text
    begins with. *)
Lemma leadingInt_run (s : string) :
  leadingInt s =
    if dec_value (take (digit_run s) s) <=? two63
    then Ok (dec_value (take (digit_run s) s), skip (digit_run s) s)
    else Err ErrLeadingInt.
Proof.
  rewrite <- (take_skip (digit_run s) s) at 1.
  apply leadingInt_digits; [apply digit_run_all_digits | apply digit_run_rest].
Qed.

(** X1. [leadingInt] is defined by the run of digits its input begins
    with: when the number the run denotes is at most [1<<63] it returns
    that number (0 for an empty run) and the input behind the run; when
    the number is larger it returns [ErrLeadingInt]. Zeros in front of
    the number do not count. *)
Theorem leadingInt_reads_digit_run (s : string) :
  let run := take (digit_run s) s in
  all_digits run = true /\ no_digit_ahead (skip (digit_run s) s) /\
  (run ++ skip (digit_run s) s)%string = s /\
  leadingInt s =
    if dec_value run <=? two63
    then Ok (dec_value run, skip (digit_run s) s)
    else Err ErrLeadingInt.
Proof.
  cbv zeta. split; [apply digit_run_all_digits|].
  split; [apply digit_run_rest|]. split; [apply take_skip|apply leadingInt_run].
Qed.

(** X2. What [fmtInt] writes, [leadingInt] reads: for a [uint64] value
    [v] written in front of a text that does not begin with a digit,
    [leadingInt] returns [v] and that text when [v] is at most [1<<63],
    and [ErrLeadingInt] when it is larger. *)
Theorem leadingInt_fmtInt (v : Z) (rest : string) :
  0 <= v < two64 -> no_digit_ahead rest ->
  leadingInt (fmtInt rest v) =
    if v <=? two63 then Ok (v, rest) else Err ErrLeadingInt.
Proof.
  intros Hv Hrest. rewrite fmtInt_app.
  destruct (decimal_spec v Hv) as (Hd & Hval & _).
  rewrite leadingInt_digits by assumption. now rewrite Hval.
Qed.

Lemma leadingInt_fmtInt_witness :
  (0 <= 9223372036854775808 < two64 /\ no_digit_ahead "D") /\
  leadingInt (fmtInt "D" 9223372036854775808) = Ok (9223372036854775808, "D").
Proof.
  assert (H1 : 0 <= 9223372036854775808 < two64) by (unfold two64; lia).
  assert (H2 : no_digit_ahead "D") by reflexivity.
  exact (conj (conj H1 H2) (leadingInt_fmtInt 9223372036854775808 "D" H1 H2)).
Defined.

End LeadingIntFacts.

(** ** The resolver of the fixed units *)

Section ResolverFacts.

Context {rt : Runtime}.

Lemma sampleUnits_whole_exact (tbl : sampleUnits) (name : string)
    (unit v : Z) :
  get tbl name = Some unit -> 0 < unit -> 0 <= v < two64 ->
  sampleUnits_unit tbl name v zero =
    if v * unit <=? two63 then Ok (v * unit) else Err ErrOverflow.
Proof.
  intros Hget Hunit Hv. rewrite (sampleUnits_whole tbl name unit v Hget).
  destruct (Z.gtb_spec v (two63 / unit)) as [Hbig|Hsmall].
  - destruct (Z.leb_spec (v * unit) two63) as [Hle|]; [|reflexivity].
    assert (v <= two63 / unit) by (apply Z.div_le_lower_bound; lia). lia.
  - assert (Hle : v * unit <= two63).
    { pose proof (Z.mul_div_le two63 unit Hunit).
      assert (v * unit <= (two63 / unit) * unit)
        by (apply Z.mul_le_mono_nonneg_r; lia).
      lia. }
    destruct (Z.leb_spec (v * unit) two63); [|lia].
    rewrite u64_small; [reflexivity|]. unfold two63, two64 in *. nia.
Qed.

(** X3. The overflow test of [sampleUnits.unit] for a whole number is
    exact: for a unit of the table that is not zero and a [uint64]
    number [v], the result is [v * unit] when that product is at most
    [1<<63], and [ErrOverflow] when it is larger; the product never
    wraps around. *)
Theorem sampleUnits_unit_overflow_exact (tbl : sampleUnits) (name : string)
    (unit v : Z) :
  get tbl name = Some unit -> 0 < unit -> 0 <= v < two64 ->
  sampleUnits_unit tbl name v zero =
    if v * unit <=? two63 then Ok (v * unit) else Err ErrOverflow.
Proof. exact (sampleUnits_whole_exact tbl name unit v). Qed.

End ResolverFacts.

Section ResolverInstances.

Import UTC.

Lemma sampleUnits_unit_overflow_exact_witness :
  (get timeUnits "H" = Some 3600000000000 /\
   0 < 3600000000000 /\ 0 <= 2562048 < two64) /\
  sampleUnits_unit timeUnits "H" 2562048 zero = Err ErrOverflow.
Proof.
  assert (H1 : get timeUnits "H" = Some 3600000000000) by reflexivity.
  assert (H2 : 0 < 3600000000000) by lia.
  assert (H3 : 0 <= 2562048 < two64) by (unfold two64; lia).
  exact (conj (conj H1 (conj H2 H3))
              (sampleUnits_unit_overflow_exact
                 timeUnits "H" 3600000000000 2562048 H1 H2 H3)).
Defined.

End ResolverInstances.

(** ** The numerals of the formatter *)

Section NumeralFacts.

Lemma digit_byte_not_zero (d : Z) : 0 < d < 10 -> digit_byte d <> "0"%char.
Proof.
  intros Hd Heq. pose proof (digit_byte_code d ltac:(lia)) as Hc.
  rewrite Heq in Hc. change (code "0") with 48 in Hc. lia.
Qed.

Lemma fmtInt_loop_zero (fuel : nat) (out : string) : fmtInt_loop fuel out 0 = out.
Proof. destruct fuel; reflexivity. Qed.

Lemma fmtInt_loop_head (fuel : nat) (v : Z) :
  0 < v < 10 ^ Z.of_nat fuel ->
  exists c ds, fmtInt_loop fuel "" v = String c ds /\ c <> "0"%char.
Proof.
  revert v. induction fuel as [|fuel IH]; intros v Hv; [simpl in Hv; lia|].
  cbn [fmtInt_loop]. destruct (Z.gtb_spec v 0) as [_|]; [|lia].
  rewrite fmtInt_loop_app.
  assert (Hm : 0 <= v mod 10 < 10) by (apply Z.mod_pos_bound; lia).
  destruct (Z.eq_dec (v / 10) 0) as [Hq|Hq].
  - rewrite Hq, fmtInt_loop_zero. cbn [append].
    exists (digit_byte (v mod 10)), "". split; [reflexivity|].
    apply digit_byte_not_zero. pose proof (Z.div_mod v 10). lia.
  - assert (Hdiv : 0 < v / 10 < 10 ^ Z.of_nat fuel).
    { rewrite Nat2Z.inj_succ, Z.pow_succ_r in Hv by lia.
      assert (0 <= v / 10) by (apply Z.div_pos; lia).
      split; [lia | apply Z.div_lt_upper_bound; lia]. }
    destruct (IH (v / 10) Hdiv) as (c & ds & Heq & Hc).
    rewrite Heq. cbn [append]. eauto.
Qed.

(** X5. [fmtInt] writes the shortest decimal numeral of a [uint64] in
    front of the text it is given: digits only, which denote the value,
    and a first digit that is [0] only for the value [0], written as the
    single digit [0]. *)
Theorem fmtInt_shortest_numeral (out : string) (v : Z) :
  0 <= v < two64 ->
  exists c ds,
    fmtInt out v = String c (ds ++ out) /\
    all_digits (String c ds) = true /\ dec_value (String c ds) = v /\
    (c = "0"%char -> v = 0 /\ ds = "").
Proof.
  intros Hv. rewrite fmtInt_app.
  destruct (decimal_spec v Hv) as (Hd & Hval & _).
  destruct (Z.eq_dec v 0) as [->|Hnz].
  - exists "0"%char, "". repeat split.
  - destruct (fmtInt_loop_head 20 v) as (c & ds & Heq & Hc).
    { unfold two64 in Hv. change (10 ^ Z.of_nat 20) with 100000000000000000000. lia. }
    assert (Hdec : decimal v = String c ds).
    { unfold decimal, fmtInt. destruct (Z.eqb_spec v 0); [contradiction|assumption]. }
    exists c, ds. rewrite <- Hdec. repeat split; try assumption.
    + now rewrite Hdec.
    + contradiction.
    + contradiction.
Qed.

Lemma fmtInt_shortest_numeral_witness :
  0 <= 18446744073709551615 < two64 /\
  exists c ds,
    fmtInt "S" 18446744073709551615 = String c (ds ++ "S") /\
    all_digits (String c ds) = true /\
    dec_value (String c ds) = 18446744073709551615 /\
    (c = "0"%char -> 18446744073709551615 = 0 /\ ds = "").
Proof.
  assert (H : 0 <= 18446744073709551615 < two64) by (unfold two64; lia).
  exact (conj H (fmtInt_shortest_numeral "S" 18446744073709551615 H)).
Defined.

Lemma fmtFrac_loop_last (n : nat) (v : Z) (ds : string) (q : Z) :
  0 <= v -> fmtFrac_loop n "" v false = (ds, q, true) ->
  exists c, last_byte ds = Some c /\ c <> "0"%char.
Proof.
  revert v. induction n as [|n IH]; intros v Hv; [discriminate|].
  cbn [fmtFrac_loop orb]. cbv zeta.
  assert (Hm : 0 <= v mod 10 < 10) by (apply Z.mod_pos_bound; lia).
  assert (Hq : 0 <= v / 10) by (apply Z.div_pos; lia).
  destruct (Z.eqb_spec (v mod 10) 0) as [Hz|Hnz]; cbn [negb].
  - apply IH; assumption.
  - rewrite fmtFrac_loop_app.
    destruct (fmtFrac_loop n "" (v / 10) true) as [[ds' v'] p'].
    intros H. cbv beta iota in H. injection H as <- _ _.
    exists (digit_byte (v mod 10)).
    rewrite last_byte_app. cbn [last_byte]. split; [reflexivity|].
    apply digit_byte_not_zero. lia.
Qed.

(** X6. [fmtFrac] with the precision 9 writes the fraction of
    [v mod 10^9] in front of the text it is given and returns [v / 10^9]:
    nothing when the nine digits are all zero, and otherwise the point
    and between one and nine digits which, filled up to nine digits with
    zeros, denote [v mod 10^9], and whose last digit is not [0]. *)
Theorem fmtFrac_drops_trailing_zeros (out : string) (v : Z) :
  0 <= v ->
  exists ds,
    fmtFrac out v 9 = ((ds ++ out)%string, v / 1000000000) /\
    if v mod 1000000000 =? 0 then ds = ""
    else exists fs c,
      ds = String "." fs /\ all_digits fs = true /\
      (1 <= String.length fs <= 9)%nat /\
      dec_value fs * 10 ^ (9 - Z.of_nat (String.length fs)) = v mod 1000000000 /\
      last_byte fs = Some c /\ c <> "0"%char.
Proof.
  intros Hv. exists (fraction (v mod 1000000000)).
  split; [apply fmtFrac_split; assumption|].
  assert (Hns : 0 <= v mod 1000000000 < 1000000000)
    by (apply Z.mod_pos_bound; lia).
  pose proof (fmtFrac_loop_spec 9 _ (proj1 Hns)) as H.
  change (10 ^ Z.of_nat 9) with 1000000000 in H.
  rewrite Z.mod_mod in H by lia. unfold fraction, fmtFrac.
  destruct (Z.eqb_spec (v mod 1000000000) 0) as [Hz|Hnz].
  - now rewrite H.
  - destruct H as (fs & Hloop & Hd & Hlen & Hval).
    destruct (fmtFrac_loop_last 9 _ _ _ (proj1 Hns) Hloop) as (c & Hlast & Hc).
    rewrite Hloop. cbn [fst]. exists fs, c.
    repeat split; try assumption; lia.
Qed.

Lemma fmtFrac_drops_trailing_zeros_witness :
  0 <= 61500000000 /\
  exists ds,
    fmtFrac "S" 61500000000 9 = ((ds ++ "S")%string, 61500000000 / 1000000000) /\
    if 61500000000 mod 1000000000 =? 0 then ds = ""
    else exists fs c,
      ds = String "." fs /\ all_digits fs = true /\
      (1 <= String.length fs <= 9)%nat /\
      dec_value fs * 10 ^ (9 - Z.of_nat (String.length fs))
        = 61500000000 mod 1000000000 /\
      last_byte fs = Some c /\ c <> "0"%char.
Proof.
  assert (H : 0 <= 61500000000) by lia.
  exact (conj H (fmtFrac_drops_trailing_zeros "S" 61500000000 H)).
Defined.

End NumeralFacts.

(** ** The formatter as an encoding *)

Section Encoding.

Import UTC.

Lemma ParseDuration_of_FormatDuration (t : Z) :
  in_i64 t -> ParseDuration zero_time (FormatDuration t) = Ok t.
Proof.
  intros Ht. destruct (Z.eq_dec t 0) as [->|Hnz]; [reflexivity|].
  rewrite FormatDuration_canonical by assumption.
  now apply ParseDuration_canonical.
Qed.

(** X7. [FormatDuration] gives different texts to different [int64]
    durations: no two durations share a text. *)
Theorem FormatDuration_injective (t1 t2 : Z) :
  in_i64 t1 -> in_i64 t2 -> FormatDuration t1 = FormatDuration t2 -> t1 = t2.
Proof.
  intros H1 H2 Heq.
  pose proof (ParseDuration_of_FormatDuration t1 H1) as P1.
  pose proof (ParseDuration_of_FormatDuration t2 H2) as P2.
  rewrite Heq in P1. congruence.
Qed.

Lemma FormatDuration_injective_witness :
  (in_i64 (- two63) /\ in_i64 (- two63) /\
   FormatDuration (- two63) = FormatDuration (- two63)) /\
  - two63 = - two63.
Proof.
  assert (H : in_i64 (- two63)) by (unfold in_i64, two63; lia).
  assert (E : FormatDuration (- two63) = FormatDuration (- two63)) by reflexivity.
  exact (conj (conj H (conj H E)) (FormatDuration_injective _ _ H H E)).
Defined.

End Encoding.

(** ** Fractions *)

Section FractionReading.

Lemma scale_up_pow10 (k : nat) :
  (k <= 18)%nat -> scale_up k one = of_Z (10 ^ Z.of_nat k).
Proof.
  intros Hk.
  do 19 (destruct k as [|k]; [vm_compute; reflexivity|]).
  lia.
Qed.

(** X8. Up to eighteen digits [leadingFraction] reads all of them: it
    returns the number the digits denote, the scale [10^k] for [k]
    digits as a float without rounding, and the input behind the
    digits. *)
Theorem leadingFraction_exact (fs rest : string) :
  all_digits fs = true -> (String.length fs <= 18)%nat -> no_digit_ahead rest ->
  leadingFraction (fs ++ rest)
    = (dec_value fs, of_Z (10 ^ Z.of_nat (String.length fs)), rest).
Proof.
  intros Hfs Hlen Hrest. unfold leadingFraction.
  pose proof (dec_value_bounds fs Hfs) as Hb.
  assert (Hpow : 10 ^ Z.of_nat (String.length fs) <= 10 ^ 18)
    by (apply Z.pow_le_mono_r; lia).
  rewrite leadingFraction_from_digits; try assumption; try lia.
  - fold (dec_value fs). now rewrite scale_up_pow10.
  - fold (dec_value fs). unfold two63. change (10 ^ 18) with 1000000000000000000 in Hpow.
    lia.
Qed.

Lemma leadingFraction_exact_witness :
  (all_digits "000000001" = true /\ (String.length "000000001" <= 18)%nat /\
   no_digit_ahead "S") /\
  leadingFraction ("000000001" ++ "S")
    = (dec_value "000000001", of_Z (10 ^ Z.of_nat (String.length "000000001")), "S").
Proof.
  assert (H1 : all_digits "000000001" = true) by reflexivity.
  assert (H2 : (String.length "000000001" <= 18)%nat) by (simpl; lia).
  assert (H3 : no_digit_ahead "S") by reflexivity.
  exact (conj (conj H1 (conj H2 H3)) (leadingFraction_exact _ _ H1 H2 H3)).
Defined.

End FractionReading.

(** ** Tokens of units of fixed length *)

Section FixedTokens.

Context {rt : Runtime}.

Lemma fixed_unit_cases (it : bool) (c : ascii) (unit : Z) :
  fixed_unit it c = Some unit ->
  unit = 1000000000 \/ unit = 60000000000 \/ unit = 3600000000000 \/
  unit = 86400000000000.
Proof.
  unfold fixed_unit, dateUnit, timeUnits. cbn [get].
  destruct it.
  - destruct (String.eqb (String c "") "S"); [intros [= <-]; vm_compute; tauto|].
    destruct (String.eqb (String c "") "M"); [intros [= <-]; vm_compute; tauto|].
    destruct (String.eqb (String c "") "H"); [intros [= <-]; vm_compute; tauto|].
    discriminate.
  - destruct (String.eqb (String c "") "D"); [intros [= <-]; vm_compute; tauto|].
    discriminate.
Qed.

(** The scales of fractions of one to nine digits divide the float of
    every unit of fixed length exactly. *)
Lemma fixed_scale (unit : Z) (k : nat) :
  unit = 1000000000 \/ unit = 60000000000 \/ unit = 3600000000000 \/
  unit = 86400000000000 ->
  (1 <= k <= 9)%nat ->
  is_zero (scale_up k one) = false /\
  div (of_Z unit) (scale_up k one) = of_Z (unit / 10 ^ Z.of_nat k).
Proof.
  intros Hunit Hk.
  destruct Hunit as [->|[->|[->| ->]]];
    (do 10 (destruct k as [|k]; [try lia; split; vm_compute; reflexivity|]); lia).
Qed.

Lemma fixed_quotient (unit : Z) (k : nat) :
  unit = 1000000000 \/ unit = 60000000000 \/ unit = 3600000000000 \/
  unit = 86400000000000 ->
  (1 <= k <= 9)%nat ->
  0 < unit / 10 ^ Z.of_nat k /\ 10 ^ Z.of_nat k * (unit / 10 ^ Z.of_nat k) = unit.
Proof.
  intros Hunit Hk.
  destruct Hunit as [->|[->|[->| ->]]];
    (do 10 (destruct k as [|k]; [try lia; split; vm_compute; reflexivity|]); lia).
Qed.

Lemma call_unit_fixed_fraction (it : bool) (from : Time) (c : ascii)
    (unit f : Z) (k : nat) :
  fixed_unit it c = Some unit -> (1 <= k <= 9)%nat ->
  0 <= f < 10 ^ Z.of_nat k ->
  call_unit it from (String c "") f (scale_up k one)
    = (Ok (f * (unit / 10 ^ Z.of_nat k)), from).
Proof.
  intros Hunit Hk Hf.
  pose proof (fixed_unit_cases it c unit Hunit) as Hcases.
  destruct (fixed_scale unit k Hcases Hk) as (Hnz & Hdiv).
  destruct (fixed_quotient unit k Hcases Hk) as (Hq & Hmul).
  assert (Hprod : f * (unit / 10 ^ Z.of_nat k) < unit) by nia.
  assert (Hu : unit <= 86400000000000) by lia.
  assert (Hsampled : forall tbl, get tbl (String c "") = Some unit ->
            sampleUnits_unit tbl (String c "") f (scale_up k one)
              = Ok (f * (unit / 10 ^ Z.of_nat k))).
  { intros tbl Hget. unfold sampleUnits_unit. rewrite Hget, Hnz, Hdiv. cbn [negb].
    rewrite to_u64_mul by (change (2 ^ 53) with 9007199254740992; nia).
    destruct (Z.gtb_spec (f * (unit / 10 ^ Z.of_nat k)) two63);
      [unfold two63 in *; lia | reflexivity]. }
  unfold fixed_unit in Hunit. unfold call_unit, duration_unit. destruct it.
  - now rewrite Hsampled.
  - rewrite Hunit. now rewrite Hsampled.
Qed.

Lemma fixed_value_nonneg (it : bool) (tok : fixed_token) :
  fixed_token_ok it tok -> 0 <= fixed_value it tok.
Proof.
  intros (Hn & Hunit & Hfs). unfold fixed_value.
  destruct (fixed_unit it (symbol tok)) as [unit|] eqn:Hu; [|lia].
  pose proof (fixed_unit_cases _ _ _ Hu) as Hcases.
  destruct (decimals tok) as [fs|].
  - destruct Hfs as (Hd & Hlen).
    destruct (fixed_quotient unit _ Hcases Hlen) as (Hq & _).
    pose proof (dec_value_bounds fs Hd). nia.
  - nia.
Qed.

Lemma fixed_total_nonneg (it : bool) (toks : list fixed_token) :
  Forall (fixed_token_ok it) toks -> 0 <= fixed_total it toks.
Proof.
  induction 1 as [|tok toks Htok _ IH]; cbn [fixed_total fold_right]; [lia|].
  pose proof (fixed_value_nonneg it tok Htok). unfold fixed_total in IH. lia.
Qed.

(** One token of a unit of fixed length adds its value to the total. *)
Lemma run_fixed_token (neg : bool) (d : Z) (from : Time) (it : bool)
    (tok : fixed_token) (rest : string) :
  fixed_token_ok it tok -> 0 <= d -> d + fixed_value it tok <= two63 ->
  ends_here rest ->
  run neg (PState d from it)
      (decimal (number tok)
       ++ match decimals tok with Some fs => String "." fs | None => "" end
       ++ String (symbol tok) rest)
    = run neg (PState (d + fixed_value it tok) from it) rest.
Proof.
  intros (Hn & Hsome & Hfs) Hd Hsum Hrest. unfold fixed_value in *.
  destruct (fixed_unit it (symbol tok)) as [unit|] eqn:Hunit; [|contradiction].
  destruct (fixed_unit_value _ _ _ Hunit) as (Hc & Hu).
  pose proof (fixed_unit_cases _ _ _ Hunit) as Hcases.
  set (n := number tok) in *. set (c := symbol tok) in *.
  assert (Hfrac : 0 <= match decimals tok with
                       | Some fs => dec_value fs * (unit / 10 ^ Z.of_nat (String.length fs))
                       | None => 0
                       end).
  { destruct (decimals tok) as [fs|]; [|lia]. destruct Hfs as (Hdg & Hlen).
    destruct (fixed_quotient unit _ Hcases Hlen) as (Hq & _).
    pose proof (dec_value_bounds fs Hdg). nia. }
  assert (Hn64 : 0 <= n < two64) by (unfold two63, two64 in *; nia).
  destruct (decimal_spec n Hn64) as (Hdig & Hval & Hne).
  destruct (decimal_cons n Hn64) as (c0 & r & Heq & Hc0).
  rewrite run_turn by (rewrite Heq; discriminate).
  rewrite Heq at 1. cbn [append]. rewrite turn_digit by assumption.
  cbn [acc ref in_time].
  assert (Hwhole : call_unit it from (String c "") n zero = (Ok (n * unit), from)).
  { rewrite (call_unit_fixed _ _ _ unit) by assumption.
    destruct (Z.gtb_spec n (two63 / unit)) as [Hbig|_].
    { assert (n <= two63 / unit) by (apply Z.div_le_lower_bound; lia). lia. }
    now rewrite (u64_small (n * unit)) by (unfold two63, two64 in *; nia). }
  destruct (decimals tok) as [fs|].
  - destruct Hfs as (Hdg & Hlen).
    destruct (fixed_quotient unit _ Hcases Hlen) as (Hq & _).
    pose proof (dec_value_bounds fs Hdg) as Hb.
    assert (Hp9 : 10 ^ Z.of_nat (String.length fs) <= 10 ^ 9)
      by (apply Z.pow_le_mono_r; lia).
    change (10 ^ 9) with 1000000000 in Hp9.
    change (String c0 (r ++ String "." fs ++ String c rest))
      with (String c0 r ++ String "." (fs ++ String c rest))%string.
    rewrite <- Heq.
    rewrite token_fraction; try assumption;
      try (rewrite ?Hval; unfold two63 in *; nia);
      try (intros ->; simpl in Hlen; lia).
    rewrite Hval, Hwhole. cbv zeta.
    destruct (Z.gtb_spec (dec_value fs) 0) as [Hpos|Hzero].
    + rewrite (call_unit_fixed_fraction it from c unit) by (assumption || lia).
      set (v := n * unit + dec_value fs * (unit / 10 ^ Z.of_nat (String.length fs))) in *.
      rewrite (u64_small v) by (unfold two63, two64 in *; lia).
      rewrite (u64_small (two63 - v)) by (unfold two63, two64 in *; lia).
      destruct (Z.gtb_spec d (two63 - v)); [lia|].
      now rewrite u64_small by (unfold two63, two64 in *; lia).
    + replace (dec_value fs) with 0 in * by lia.
      rewrite Z.mul_0_l, Z.add_0_r in *.
      rewrite (u64_small (two63 - n * unit)) by (unfold two63, two64 in *; lia).
      destruct (Z.gtb_spec d (two63 - n * unit)); [lia|].
      now rewrite u64_small by (unfold two63, two64 in *; lia).
  - cbn [append].
    change (String c0 (r ++ String c rest)) with (String c0 r ++ String c rest)%string.
    rewrite <- Heq.
    rewrite token_whole; try assumption; [|rewrite Hval; unfold two63 in *; nia].
    rewrite Hval, Hwhole, Z.add_0_r in *.
    rewrite (u64_small (two63 - n * unit)) by (unfold two63, two64 in *; lia).
    destruct (Z.gtb_spec d (two63 - n * unit)); [lia|].
    now rewrite u64_small by (unfold two63, two64 in *; lia).
Qed.

Lemma fixed_value_lower (it : bool) (tok : fixed_token) :
  fixed_token_ok it tok -> number tok <= fixed_value it tok.
Proof.
  intros (Hn & Hunit & Hfs). unfold fixed_value.
  destruct (fixed_unit it (symbol tok)) as [unit|] eqn:Hu; [|contradiction].
  pose proof (fixed_unit_cases _ _ _ Hu) as Hcases.
  destruct (decimals tok) as [fs|].
  - destruct Hfs as (Hd & Hlen).
    destruct (fixed_quotient unit _ Hcases Hlen) as (Hq & _).
    pose proof (dec_value_bounds fs Hd). nia.
  - nia.
Qed.

Lemma run_fixed_tokens (toks : list fixed_token) (neg : bool) (d : Z)
    (from : Time) (it : bool) (rest : string) :
  Forall (fixed_token_ok it) toks -> ends_here rest ->
  0 <= d -> d + fixed_total it toks <= two63 ->
  run neg (PState d from it) (fixed_text toks ++ rest)
    = run neg (PState (d + fixed_total it toks) from it) rest.
Proof.
  intros Hok Hrest. revert d.
  induction Hok as [|tok toks Htok Hoks IH]; intros d Hd Hsum.
  - cbn [fixed_text fixed_total fold_right append]. now rewrite Z.add_0_r.
  - cbn [fixed_text fixed_total fold_right] in *. fold (fixed_total it toks) in *.
    pose proof (fixed_value_nonneg it tok Htok) as Hv.
    pose proof (fixed_total_nonneg it toks Hoks) as Ht.
    assert (Hnext : ends_here (fixed_text toks ++ rest)).
    { destruct Hoks as [|tok' toks' Htok' Hoks']; [exact Hrest|].
      apply digit_ahead_ends_here. cbn [fixed_text]. rewrite append_assoc.
      apply digit_ahead_decimal.
      pose proof (fixed_value_lower it tok' Htok') as Hlow.
      pose proof (fixed_total_nonneg it toks' Hoks') as Ht'.
      cbn [fixed_total fold_right] in Hsum. fold (fixed_total it toks') in Hsum.
      destruct Htok' as (Hn' & _). unfold two63, two64 in *. lia. }
    assert (Hshape : forall a b c t,
              ((a ++ b ++ String c t) ++ rest)%string
                = (a ++ b ++ String c (t ++ rest))%string).
    { intros a b c t. now rewrite !append_assoc. }
    rewrite Hshape.
    rewrite (run_fixed_token neg d from it tok) by (assumption || lia).
    rewrite IH by lia. f_equal. f_equal. lia.
Qed.

Lemma fixed_text_digit_ahead (it : bool) (toks : list fixed_token) :
  Forall (fixed_token_ok it) toks -> fixed_total it toks <= two63 ->
  digit_ahead (fixed_text toks).
Proof.
  intros Hoks Hsum. destruct Hoks as [|tok toks Htok Hoks]; [exact I|].
  cbn [fixed_text]. apply digit_ahead_decimal.
  pose proof (fixed_value_lower it tok Htok) as Hlow.
  pose proof (fixed_total_nonneg it toks Hoks) as Ht.
  cbn [fixed_total fold_right] in Hsum. fold (fixed_total it toks) in Hsum.
  destruct Htok as (Hn & _). unfold two63, two64 in *. lia.
Qed.

(** X9. Tokens of the units of fixed length add up, in any order and
    any number: for tokens with the unit [D] in front of the [T] and
    tokens with the units [H], [M] and [S] behind it, each with at most
    nine digits behind a point, [ParseDuration] returns the sum of their
    values when it is below [1<<63], with the sign of the text. The
    value of a token is its number times the unit and, for the digits
    behind the point, their value times the unit over the power of ten:
    these fractions are resolved without rounding. The reference
    instant plays no part. *)
Theorem fixed_tokens_add_up (from : Time) (neg : bool)
    (ds ts : list fixed_token) :
  Forall (fixed_token_ok false) ds -> Forall (fixed_token_ok true) ts ->
  fixed_total false ds + fixed_total true ts < two63 ->
  ParseDuration from
    ((if neg then "-" else "") ++ "P" ++ fixed_text ds ++
     match ts with [] => "" | _ => "T" ++ fixed_text ts end)
    = Ok (if neg then - (fixed_total false ds + fixed_total true ts)
          else fixed_total false ds + fixed_total true ts).
Proof.
  intros Hds Hts Hsum.
  pose proof (fixed_total_nonneg false ds Hds) as Hd.
  pose proof (fixed_total_nonneg true ts Hts) as Ht.
  assert (Hdigit : digit_ahead (fixed_text ts))
    by (apply (fixed_text_digit_ahead true); [assumption | lia]).
  assert (Hsame : match ts with [] => "" | _ => "T" ++ fixed_text ts end
                  = match fixed_text ts with
                    | EmptyString => ""
                    | _ => "T" ++ fixed_text ts
                    end).
  { destruct ts as [|tok ts']; [reflexivity|].
    inversion Hts as [|tok0 ts0 Htok Hoks]; subst.
    assert (Hn64 : 0 <= number tok < two64).
    { pose proof (fixed_value_lower true tok Htok).
      pose proof (fixed_total_nonneg true ts' Hoks).
      cbn [fixed_total fold_right] in Hsum. fold (fixed_total true ts') in Hsum.
      destruct Htok as (Hn & _). unfold two63, two64 in *. lia. }
    cbn [fixed_text].
    destruct (decimal_cons _ Hn64) as (c0 & r & -> & _). reflexivity. }
  assert (Hrun : forall sign,
    run sign (PState 0 from false)
        (fixed_text ds ++ match ts with [] => "" | _ => "T" ++ fixed_text ts end)
      = finish sign (fixed_total false ds + fixed_total true ts)).
  { intros sign. rewrite Hsame.
    rewrite run_fixed_tokens; try assumption; try lia.
    - rewrite run_T by assumption. cbn [Z.add].
      rewrite <- (append_nil_r (fixed_text ts)).
      rewrite run_fixed_tokens; try assumption; try exact I; try lia.
      now rewrite run_nil.
    - destruct (fixed_text ts); [exact I | reflexivity]. }
  destruct neg; cbn [append].
  - rewrite ParseDuration_minus_P, Hrun.
    apply finish_negate; [lia|]. apply finish_positive. lia.
  - rewrite ParseDuration_P, Hrun. apply finish_positive. lia.
Qed.

End FixedTokens.

Section FixedTokenInstances.

Import UTC.

Lemma fixed_tokens_add_up_witness :
  (Forall (fixed_token_ok false) [FixedToken 2 (Some "5") "D"] /\
   Forall (fixed_token_ok true)
     [FixedToken 30 None "S"; FixedToken 1 (Some "25") "H"; FixedToken 0 None "M";
      FixedToken 1 None "S"] /\
   fixed_total false [FixedToken 2 (Some "5") "D"]
   + fixed_total true
       [FixedToken 30 None "S"; FixedToken 1 (Some "25") "H"; FixedToken 0 None "M";
        FixedToken 1 None "S"] < two63) /\
  ParseDuration zero_time "-P2.5DT30S1.25H0M1S"
    = Ok (- (60 * Hour + Hour + 15 * Minute + 31 * Second)).
Proof.
  assert (H1 : Forall (fixed_token_ok false) [FixedToken 2 (Some "5") "D"]).
  { repeat constructor; cbn; (lia || discriminate). }
  assert (H2 : Forall (fixed_token_ok true)
     [FixedToken 30 None "S"; FixedToken 1 (Some "25") "H"; FixedToken 0 None "M";
      FixedToken 1 None "S"]).
  { repeat constructor; cbn; (lia || discriminate). }
  assert (H3 : fixed_total false [FixedToken 2 (Some "5") "D"]
   + fixed_total true
       [FixedToken 30 None "S"; FixedToken 1 (Some "25") "H"; FixedToken 0 None "M";
        FixedToken 1 None "S"] < two63) by (vm_compute; reflexivity).
  exact (conj (conj H1 (conj H2 H3))
              (fixed_tokens_add_up zero_time true _ _ H1 H2 H3)).
Defined.

End FixedTokenInstances.

(** ** A [T] at the end of the text *)

Section TrailingT.

Context {rt : Runtime}.

Lemma leadingInt_from_app_T (s : string) (x v : Z) (r : string) :
  leadingInt_from x s = Ok (v, r) ->
  leadingInt_from x (s ++ "T") = Ok (v, (r ++ "T")%string).
Proof.
  revert x. induction s as [|c s IH]; intros x.
  - cbn. intros [= <- <-]. reflexivity.
  - cbn [leadingInt_from append]. destruct (not_digit c).
    + intros [= <- <-]. reflexivity.
    + destruct (x >? two63 / 10); [discriminate|].
      destruct (_ >? two63); [discriminate|]. apply IH.
Qed.

Lemma leadingFraction_from_app_T (s : string) (x : Z) (scale : float64)
    (overflow : bool) :
  leadingFraction_from x scale overflow (s ++ "T") =
    let '(f, sc, r) := leadingFraction_from x scale overflow s in
    (f, sc, (r ++ "T")%string).
Proof.
  revert x scale overflow. induction s as [|c s IH]; intros x scale overflow.
  - reflexivity.
  - cbn [leadingFraction_from append]. destruct (not_digit c); [reflexivity|].
    destruct overflow; [apply IH|].
    destruct (x >? (two63 - 1) / 10); [apply IH|].
    destruct (_ >? two63); apply IH.
Qed.

Lemma unit_end_app_T (s : string) : unit_end (s ++ "T") = unit_end s.
Proof.
  induction s as [|c s IH]; [reflexivity|].
  cbn [unit_end append]. destruct (ends_unit c); [reflexivity|]. now rewrite IH.
Qed.

Lemma take_app (k : nat) (s t : string) :
  (k <= String.length s)%nat -> take k (s ++ t) = take k s.
Proof.
  revert s. induction k as [|k IH]; intros s Hk; [reflexivity|].
  destruct s as [|c s]; [simpl in Hk; lia|].
  cbn [take append]. rewrite IH by (simpl in Hk; lia). reflexivity.
Qed.

Lemma skip_app (k : nat) (s t : string) :
  (k <= String.length s)%nat -> skip k (s ++ t) = (skip k s ++ t)%string.
Proof.
  revert s. induction k as [|k IH]; intros s Hk; [reflexivity|].
  destruct s as [|c s]; [simpl in Hk; lia|].
  cbn [skip append]. apply IH. simpl in Hk. lia.
Qed.

Lemma length_app_eqb (a b t : string) :
  Nat.eqb (String.length (a ++ t)) (String.length (b ++ t))
    = Nat.eqb (String.length a) (String.length b).
Proof.
  rewrite !length_append.
  destruct (Nat.eqb_spec (String.length a) (String.length b)) as [->|Hne].
  - apply Nat.eqb_refl.
  - apply Nat.eqb_neq. lia.
Qed.

(** The statements of a turn from "Consume unit" on take the same way
    with a [T] behind the text. *)
Ltac resolve_the_same :=
  rewrite unit_end_app_T;
  match goal with
  | |- context [Nat.eqb (unit_end ?s) 0] =>
      destruct (Nat.eqb (unit_end s) 0); [discriminate|];
      rewrite (take_app (unit_end s) s "T") by apply unit_end_le;
      rewrite (skip_app (unit_end s) s "T") by apply unit_end_le
  end;
  match goal with
  | |- context [call_unit ?it ?from ?u ?v zero] =>
      destruct (call_unit it from u v zero) as [[v1|e1| |] from1];
      try discriminate
  end;
  cbv zeta;
  match goal with
  | |- context [?f >? 0] => destruct (f >? 0)
  end;
  try match goal with
  | |- context [call_unit ?it ?from ?u ?v ?scale] =>
      destruct (call_unit it from u v scale) as [[r|e2| |] from2];
      try discriminate
  end;
  match goal with
  | |- context [?d >? u64 (two63 - ?v)] =>
      destruct (d >? u64 (two63 - v)); [discriminate|]
  end;
  intros [= <- <-]; reflexivity.

Lemma token_app_T (d : Z) (from : Time) (it : bool) (s : string)
    (st' : pstate) (s' : string) :
  token d from it s = Ok (st', s') ->
  token d from it (s ++ "T") = Ok (st', (s' ++ "T")%string).
Proof.
  destruct s as [|c s0]; [discriminate|].
  unfold token. cbn [append]. destruct (dot_or_digit c); [|discriminate].
  cbn [negb].
  change (String c (s0 ++ "T")) with (String c s0 ++ "T")%string.
  destruct (leadingInt (String c s0)) as [[v s1]|e| |] eqn:HL; try discriminate.
  unfold leadingInt in *. rewrite (leadingInt_from_app_T _ _ _ _ HL).
  rewrite length_app_eqb.
  destruct s1 as [|c1 s1'].
  - cbn [append]. change ("T" =? ".")%char with false. cbv iota beta.
    change (String "T" "") with ("" ++ "T")%string.
    destruct (negb (negb (Nat.eqb (String.length (String c s0)) (String.length "")))
              && negb false); [discriminate|].
    resolve_the_same.
  - cbn [append]. destruct (c1 =? ".")%char.
    + unfold leadingFraction. rewrite leadingFraction_from_app_T.
      destruct (leadingFraction_from 0 one false s1') as [[f sc] s2].
      rewrite length_app_eqb.
      destruct (negb (negb (Nat.eqb (String.length (String c s0))
                                    (String.length (String c1 s1'))))
                && negb (negb (Nat.eqb (String.length s1') (String.length s2))));
        [discriminate|].
      resolve_the_same.
    + change (String c1 (s1' ++ "T")) with (String c1 s1' ++ "T")%string.
      destruct (negb (negb (Nat.eqb (String.length (String c s0))
                                    (String.length (String c1 s1'))))
                && negb false); [discriminate|].
      resolve_the_same.
Qed.

Lemma turn_app_T (st st' : pstate) (s s' : string) :
  turn st s = Ok (st', s') ->
  turn st (s ++ "T") = Ok (st', (s' ++ "T")%string).
Proof.
  destruct s as [|c s0]; [discriminate|].
  unfold turn. cbn [append]. destruct (c =? "T")%char.
  - apply token_app_T.
  - apply (token_app_T _ _ _ (String c s0)).
Qed.

Lemma run_app_T (n : nat) (neg : bool) (st : pstate) (s : string) (d : Z) :
  (String.length s <= n)%nat ->
  run neg st s = Ok d -> run neg st (s ++ "T") = Panic.
Proof.
  revert st s. induction n as [|n IH]; intros st s Hlen.
  - destruct s; [reflexivity | simpl in Hlen; lia].
  - destruct s as [|c s0]; [reflexivity|].
    rewrite run_turn by discriminate.
    rewrite (run_turn neg st (String c s0 ++ "T")) by discriminate.
    destruct (turn st (String c s0)) as [[st' s']|e| |] eqn:Hturn; try discriminate.
    rewrite (turn_app_T _ _ _ _ Hturn).
    apply IH. apply turn_shortens in Hturn. simpl in *. lia.
Qed.

(** X10. A text that [ParseDuration] accepts is no longer accepted with
    a [T] behind it: the loop takes the same turns, finds the [T] and
    nothing after it, and panics at [s[0]] of the empty rest. This holds
    for every accepted text, [P] and [-PT1S] alike. *)
Theorem accepted_text_with_T_panics (from : Time) (s : string) (d : Z) :
  ParseDuration from s = Ok d -> ParseDuration from (s ++ "T") = Panic.
Proof.
  unfold ParseDuration. destruct s as [|c s0]; [discriminate|].
  cbn [append]. destruct ((c =? "-")%char || (c =? "+")%char).
  - destruct s0 as [|c1 s1]; [discriminate|]. cbn [append].
    destruct (negb (c1 =? "P")%char); [discriminate|].
    apply (run_app_T (String.length s1)). lia.
  - change (String c (s0 ++ "T")) with (String c s0 ++ "T")%string.
    cbn [append]. destruct (negb (c =? "P")%char); [discriminate|].
    apply (run_app_T (String.length s0)). lia.
Qed.

(** X11. The loop of [ParseDuration] ends: a turn that does not fail
    leaves a text that is shorter by at least one byte, so a text of [n]
    bytes takes at most [n] turns, and [ParseDuration] returns a
    duration, returns an error or panics on every text. *)
Theorem ParseDuration_loop_ends :
  (forall (st st' : pstate) (s s' : string),
      turn st s = Ok (st', s') -> (String.length s' < String.length s)%nat) /\
  (forall (from : Time) (s : string),
      (exists d, ParseDuration from s = Ok d) \/
      (exists e, ParseDuration from s = Err e) \/
      ParseDuration from s = Panic).
Proof.
  split; [exact turn_shortens|].
  intros from s. pose proof (ParseDuration_fuel from s) as H.
  destruct (ParseDuration from s) as [d|e| |]; eauto. contradiction.
Qed.

End TrailingT.

Section TrailingTInstances.

Import UTC.

Lemma accepted_text_with_T_panics_witness :
  ParseDuration zero_time "P1Y2M3D" = Ok (10248 * Hour) /\
  ParseDuration zero_time ("P1Y2M3D" ++ "T") = Panic.
Proof.
  assert (H : ParseDuration zero_time "P1Y2M3D" = Ok (10248 * Hour))
    by (vm_compute; reflexivity).
  exact (conj H (accepted_text_with_T_panics zero_time "P1Y2M3D" _ H)).
Defined.

End TrailingTInstances.

(** ** The reference instant *)

Section ReferenceInstant.

Context {rt : Runtime}.

Lemma digit_not_letter (c : ascii) :
  not_digit c = false ->
  (c =? "T")%char = false /\ (c =? "Y")%char = false /\ (c =? "M")%char = false.
Proof.
  intros H. apply digit_code in H.
  repeat split;
    match goal with
    | |- (c =? ?l)%char = false =>
        destruct (Ascii.eqb_spec c l) as [->|_];
          [vm_compute in H; destruct H as [_ H]; exfalso; apply H; reflexivity
          | reflexivity]
    end.
Qed.

Lemma calendar_free_digits (s : string) :
  calendar_free s = true -> calendar_free (skip (digit_run s) s) = true.
Proof.
  induction s as [|c s IH]; [reflexivity|].
  cbn [digit_run]. destruct (not_digit c) eqn:Hc; [now cbn [skip]|].
  cbn [skip calendar_free]. destruct (digit_not_letter c Hc) as (-> & -> & ->).
  exact IH.
Qed.

Lemma calendar_free_unit (s : string) :
  calendar_free s = true ->
  has_byte "Y" (take (unit_end s) s) = false /\
  has_byte "M" (take (unit_end s) s) = false /\
  calendar_free (skip (unit_end s) s) = true.
Proof.
  induction s as [|c s IH]; [now cbn|].
  cbn [unit_end]. destruct (ends_unit c) eqn:Hc; [now cbn [take skip has_byte]|].
  destruct (ends_unit_false c Hc) as (_ & _ & HT).
  cbn [calendar_free take skip has_byte]. rewrite HT.
  destruct (c =? "Y")%char; [discriminate|].
  destruct (c =? "M")%char; [discriminate|]. cbn [orb]. exact IH.
Qed.

Lemma leadingInt_rest (s : string) (v : Z) (r : string) :
  leadingInt s = Ok (v, r) -> r = skip (digit_run s) s.
Proof.
  rewrite leadingInt_run. destruct (_ <=? two63); [|discriminate].
  now intros [= _ <-].
Qed.

Lemma leadingFraction_rest (s : string) :
  snd (leadingFraction s) = skip (digit_run s) s.
Proof.
  destruct (leadingFraction_from_spec s 0 one) as (k & _ & Heq & _).
  - unfold two63. lia.
  - unfold leadingFraction. now rewrite Heq.
Qed.

(** Without the names ["Y"] and ["M"], [duration.unit] is
    [dateUnit.unit] and leaves [d.from] alone. *)
Lemma duration_unit_free (from : Time) (u : string) (v : Z) (scale : float64) :
  has_byte "Y" u = false -> has_byte "M" u = false ->
  duration_unit from u v scale = (sampleUnits_unit dateUnit u v scale, from).
Proof.
  intros HY HM. unfold duration_unit.
  destruct (get dateUnit u) as [unit|] eqn:Hget; [reflexivity|].
  rewrite (sampleUnits_missing dateUnit u v scale Hget).
  unfold units. cbn [get].
  destruct (String.eqb_spec u "M") as [->|_]; [discriminate HM|].
  destruct (String.eqb_spec u "Y") as [->|_]; [discriminate HY|].
  reflexivity.
Qed.

Lemma call_unit_free (it : bool) (from : Time) (u : string) (v : Z)
    (scale : float64) :
  it = true \/ (has_byte "Y" u = false /\ has_byte "M" u = false) ->
  call_unit it from u v scale
    = (sampleUnits_unit (if it then timeUnits else dateUnit) u v scale, from).
Proof.
  intros H. unfold call_unit. destruct it; [reflexivity|].
  destruct H as [H|[HY HM]]; [discriminate|]. now apply duration_unit_free.
Qed.

(** The statements of a turn from "Consume unit" on, for two reference
    instants. *)
Lemma calendar_free_name (it : bool) (s : string) :
  it = true \/ calendar_free s = true ->
  it = true \/ (has_byte "Y" (take (unit_end s) s) = false /\
                has_byte "M" (take (unit_end s) s) = false).
Proof.
  intros [Ht|Hc]; [now left|right].
  destruct (calendar_free_unit s Hc) as (? & ? & _). now split.
Qed.

Lemma calendar_free_after_name (it : bool) (s : string) :
  it = true \/ calendar_free s = true ->
  it = true \/ calendar_free (skip (unit_end s) s) = true.
Proof.
  intros [Ht|Hc]; [now left|right].
  now destruct (calendar_free_unit s Hc) as (_ & _ & ?).
Qed.

Ltac resolve_alike Hfree :=
  match goal with
  | |- context [Nat.eqb (unit_end ?s) 0] =>
      destruct (Nat.eqb (unit_end s) 0); [reflexivity|]
  end;
  rewrite !call_unit_free by (apply calendar_free_name; exact Hfree);
  match goal with
  | |- context [sampleUnits_unit ?tbl ?u ?v zero] =>
      destruct (sampleUnits_unit tbl u v zero) as [v1|e1| |];
      try (cbv beta iota; reflexivity); try exact I
  end;
  cbv zeta;
  match goal with
  | |- context [?f >? 0] => destruct (f >? 0)
  end;
  rewrite ?call_unit_free by (apply calendar_free_name; exact Hfree);
  try match goal with
  | |- context [sampleUnits_unit ?tbl ?u ?v ?scale] =>
      destruct (sampleUnits_unit tbl u v scale) as [r|e2| |];
      try (cbv beta iota; reflexivity); try exact I
  end;
  match goal with
  | |- context [?d >? u64 (two63 - ?v)] =>
      destruct (d >? u64 (two63 - v)); [reflexivity|]
  end;
  cbn [agree acc in_time]; repeat split;
  apply calendar_free_after_name; exact Hfree.

Lemma token_free (d : Z) (from1 from2 : Time) (it : bool) (s : string) :
  it = true \/ calendar_free s = true ->
  agree (token d from1 it s) (token d from2 it s).
Proof.
  intros Hfree. destruct s as [|c s0]; [exact I|].
  unfold token. destruct (dot_or_digit c); [|reflexivity]. cbn [negb].
  destruct (leadingInt (String c s0)) as [[v s1]|e| |] eqn:HL;
    try reflexivity; try exact I.
  apply leadingInt_rest in HL.
  assert (H1 : it = true \/ calendar_free s1 = true).
  { destruct Hfree as [Ht|Hc]; [now left|right].
    rewrite HL. now apply calendar_free_digits. }
  clear HL Hfree.
  destruct s1 as [|c1 s1'].
  - destruct (negb (negb (Nat.eqb (String.length (String c s0)) (String.length "")))
              && negb false); [reflexivity|].
    resolve_alike H1.
  - destruct (Ascii.eqb_spec c1 ".") as [->|_].
    + pose proof (leadingFraction_rest s1') as HF.
      destruct (leadingFraction s1') as [[f sc] s2]. cbn [snd] in HF.
      assert (H2 : it = true \/ calendar_free s2 = true).
      { destruct H1 as [Ht|Hc]; [now left|right].
        rewrite HF. apply calendar_free_digits. exact Hc. }
      destruct (negb (negb (Nat.eqb (String.length (String c s0))
                                    (String.length (String "." s1'))))
                && negb (negb (Nat.eqb (String.length s1') (String.length s2))));
        [reflexivity|].
      resolve_alike H2.
    + destruct (negb (negb (Nat.eqb (String.length (String c s0))
                                    (String.length (String c1 s1'))))
                && negb false); [reflexivity|].
      resolve_alike H1.
Qed.

Lemma turn_free (st1 st2 : pstate) (s : string) :
  acc st1 = acc st2 -> in_time st1 = in_time st2 ->
  in_time st1 = true \/ calendar_free s = true ->
  agree (turn st1 s) (turn st2 s).
Proof.
  intros Hacc Hit Hfree. destruct s as [|c s0]; [exact I|].
  unfold turn. rewrite <- Hacc, <- Hit.
  destruct (Ascii.eqb_spec c "T") as [->|Hc].
  - apply token_free. now left.
  - apply token_free. exact Hfree.
Qed.

Lemma loop_free (fuel : nat) (neg : bool) (st1 st2 : pstate) (s : string) :
  acc st1 = acc st2 -> in_time st1 = in_time st2 ->
  in_time st1 = true \/ calendar_free s = true ->
  loop fuel neg st1 s = loop fuel neg st2 s.
Proof.
  revert st1 st2 s. induction fuel as [|fuel IH]; intros st1 st2 s Hacc Hit Hfree.
  - destruct s; cbn [loop]; [now rewrite Hacc | reflexivity].
  - destruct s as [|c s0]; cbn [loop]; [now rewrite Hacc|].
    pose proof (turn_free st1 st2 (String c s0) Hacc Hit Hfree) as H.
    unfold agree in H.
    destruct (turn st1 (String c s0)) as [[st1' r1]|e1| |];
      destruct (turn st2 (String c s0)) as [[st2' r2]|e2| |];
      try contradiction; try reflexivity.
    + destruct H as (Ha & Hi & <- & Hf). now apply IH.
    + now subst.
Qed.

(** X12. The reference instant counts only for the calendar units: for
    a text with neither [Y] nor [M] in front of its first [T],
    [ParseDuration] gives the same result, a duration, an error or a
    panic, whatever the function given with [From] returns. *)
Theorem ParseDuration_reference_unused (from1 from2 : Time) (s : string) :
  calendar_free s = true -> ParseDuration from1 s = ParseDuration from2 s.
Proof.
  intros Hfree. unfold ParseDuration. destruct s as [|c s0]; [reflexivity|].
  destruct (Ascii.eqb_spec c "-") as [->|Hm]; cbn [orb].
  - destruct s0 as [|c1 s1]; [reflexivity|].
    destruct (Ascii.eqb_spec c1 "P") as [->|_]; [|reflexivity].
    cbn [negb]. apply loop_free; [reflexivity | reflexivity | now right].
  - destruct (Ascii.eqb_spec c "+") as [->|Hp].
    + destruct s0 as [|c1 s1]; [reflexivity|].
      destruct (Ascii.eqb_spec c1 "P") as [->|_]; [|reflexivity].
      cbn [negb]. apply loop_free; [reflexivity | reflexivity | now right].
    + destruct (Ascii.eqb_spec c "P") as [->|_]; [|reflexivity].
      cbn [negb]. apply loop_free; [reflexivity | reflexivity | now right].
Qed.

End ReferenceInstant.

Section ReferenceInstances.

Import UTC.

Lemma ParseDuration_reference_unused_witness :
  calendar_free "P10.5DT12H30M17S" = true /\
  ParseDuration zero_time "P10.5DT12H30M17S"
    = ParseDuration (at_utc 2020 2 29 0 0 0 0) "P10.5DT12H30M17S".
Proof.
  assert (H : calendar_free "P10.5DT12H30M17S" = true) by reflexivity.
  exact (conj H (ParseDuration_reference_unused zero_time
                   (at_utc 2020 2 29 0 0 0 0) "P10.5DT12H30M17S" H)).
Defined.

End ReferenceInstances.

(** ** The units of the formatter *)

Section FormatterUnits.

Lemma has_byte_app (b : ascii) (s t : string) :
  has_byte b (s ++ t) = has_byte b s || has_byte b t.
Proof.
  induction s as [|c s IH]; [reflexivity|].
  cbn [append has_byte]. now rewrite IH, orb_assoc.
Qed.

Lemma has_byte_digits (b : ascii) (ds : string) :
  all_digits ds = true -> not_digit b = true -> has_byte b ds = false.
Proof.
  intros Hds Hb. induction ds as [|c ds IH]; [reflexivity|].
  cbn [all_digits] in Hds. apply andb_true_iff in Hds. destruct Hds as [Hc Hds].
  apply negb_true_iff in Hc. cbn [has_byte]. rewrite (IH Hds), orb_false_r.
  destruct (Ascii.eqb_spec c b) as [->|_]; [congruence | reflexivity].
Qed.

Lemma has_Y_field (n : Z) (l : string) :
  0 <= n < two64 -> has_byte "Y" l = false -> has_byte "Y" (field n l) = false.
Proof.
  intros Hn Hl. unfold field. destruct (n >? 0); [|reflexivity].
  destruct (decimal_spec n Hn) as (Hd & _).
  now rewrite has_byte_app, (has_byte_digits "Y" _ Hd), Hl.
Qed.

Lemma has_Y_fraction (ns : Z) :
  0 <= ns < 1000000000 -> has_byte "Y" (fraction ns) = false.
Proof.
  intros Hns. pose proof (fraction_spec ns Hns) as H.
  destruct (ns =? 0); [now rewrite H|].
  destruct H as (ds & -> & Hd & _). cbn [has_byte].
  now rewrite (has_byte_digits "Y" _ Hd).
Qed.

Lemma calendar_free_app_digits (ds r : string) :
  all_digits ds = true -> calendar_free (ds ++ r) = calendar_free r.
Proof.
  intros Hds. induction ds as [|c ds IH]; [reflexivity|].
  cbn [all_digits] in Hds. apply andb_true_iff in Hds. destruct Hds as [Hc Hds].
  apply negb_true_iff in Hc. cbn [append calendar_free].
  destruct (digit_not_letter c Hc) as (-> & -> & ->). now apply IH.
Qed.

(** X13. [FormatDuration] writes no calendar unit: in its text for an
    [int64] there is no [Y] at all and no [M] in front of the [T], so
    the largest unit it writes is the day, and every [M] it writes is a
    minute. *)
Theorem FormatDuration_no_calendar_unit (t : Z) :
  in_i64 t ->
  has_byte "Y" (FormatDuration t) = false /\
  calendar_free (FormatDuration t) = true.
Proof.
  intros Ht. destruct (Z.eq_dec t 0) as [->|Hnz]; [split; reflexivity|].
  rewrite FormatDuration_canonical by assumption. unfold canonical.
  assert (Hu : 0 < Z.abs t <= two63) by (unfold in_i64 in Ht; lia).
  set (u := Z.abs t) in *. unfold two63 in Hu.
  set (ns := u mod 1000000000). set (secs := u / 1000000000).
  set (mins := secs / 60). set (hrs := mins / 60). set (days := hrs / 24).
  assert (Hns : 0 <= ns < 1000000000) by (apply Z.mod_pos_bound; lia).
  assert (Hsecs : 0 <= secs) by (apply Z.div_pos; lia).
  assert (Hs : 0 <= secs mod 60 < 60) by (apply Z.mod_pos_bound; lia).
  assert (Hmins : 0 <= mins) by (apply Z.div_pos; lia).
  assert (Hm : 0 <= mins mod 60 < 60) by (apply Z.mod_pos_bound; lia).
  assert (Hhrs : 0 <= hrs) by (apply Z.div_pos; lia).
  assert (Hh : 0 <= hrs mod 24 < 24) by (apply Z.mod_pos_bound; lia).
  assert (Hdays : 0 <= days < two64).
  { pose proof (Z.div_mod u 1000000000). pose proof (Z.div_mod secs 60).
    pose proof (Z.div_mod mins 60). pose proof (Z.div_mod hrs 24).
    split; [apply Z.div_pos; lia|]. unfold two64. subst ns secs mins hrs days. lia. }
  set (seconds := if (secs mod 60 =? 0) && (ns =? 0) then ""
                  else (decimal (secs mod 60) ++ fraction ns ++ "S")%string).
  set (time := (field (hrs mod 24) "H" ++ field (mins mod 60) "M" ++ seconds)%string).
  assert (Hseconds : has_byte "Y" seconds = false).
  { subst seconds. destruct (_ && _); [reflexivity|].
    destruct (decimal_spec (secs mod 60)) as (Hd & _); [unfold two64; lia|].
    now rewrite !has_byte_app, (has_byte_digits "Y" _ Hd), has_Y_fraction. }
  assert (Htime : has_byte "Y" time = false).
  { subst time. rewrite !has_byte_app, Hseconds.
    rewrite !has_Y_field by (reflexivity || unfold two64; lia). reflexivity. }
  split.
  - rewrite !has_byte_app, has_Y_field by (assumption || reflexivity).
    replace (has_byte "Y" (match time with
                           | EmptyString => ""
                           | _ => "T" ++ time
                           end)) with false.
    + now destruct (t <? 0).
    + destruct time; [reflexivity|]. rewrite has_byte_app, Htime. reflexivity.
  - assert (Hbody : calendar_free
              ("P" ++ field days "D" ++
               match time with EmptyString => "" | _ => "T" ++ time end) = true).
    { cbn [append calendar_free]. change ("P" =? "T")%char with false.
      change (("P" =? "Y")%char || ("P" =? "M")%char) with false. cbv iota.
      unfold field. destruct (days >? 0).
      - destruct (decimal_spec days Hdays) as (Hd & _).
        rewrite append_assoc, calendar_free_app_digits by assumption.
        cbn [append calendar_free]. now destruct time.
      - cbn [append]. now destruct time. }
    destruct (t <? 0); [|exact Hbody].
    cbn [append calendar_free] in *. exact Hbody.
Qed.

Lemma FormatDuration_no_calendar_unit_witness :
  in_i64 (two63 - 1) /\
  has_byte "Y" (FormatDuration (two63 - 1)) = false /\
  calendar_free (FormatDuration (two63 - 1)) = true.
Proof.
  assert (H : in_i64 (two63 - 1)) by (unfold in_i64, two63; lia).
  exact (conj H (FormatDuration_no_calendar_unit (two63 - 1) H)).
Defined.

End FormatterUnits.

(** ** Texts without a point *)

Section NoPoint.

Context {rt : Runtime}.

Lemma has_byte_skip (b : ascii) (k : nat) (s : string) :
  has_byte b s = false -> has_byte b (skip k s) = false.
Proof.
  revert s. induction k as [|k IH]; intros s Hs; [exact Hs|].
  destruct s as [|c s]; [reflexivity|].
  cbn [has_byte] in Hs. apply orb_false_iff in Hs. cbn [skip]. now apply IH.
Qed.

Lemma table_unit_positive (it : bool) (u : string) (unit : Z) :
  get (if it then timeUnits else dateUnit) u = Some unit -> 0 < unit.
Proof.
  unfold timeUnits, dateUnit. destruct it; cbn [get].
  - destruct (String.eqb u "S"); [intros [= <-]; reflexivity|].
    destruct (String.eqb u "M"); [intros [= <-]; reflexivity|].
    destruct (String.eqb u "H"); [intros [= <-]; reflexivity|].
    discriminate.
  - destruct (String.eqb u "D"); [intros [= <-]; reflexivity|].
    discriminate.
Qed.

Lemma sampleUnits_whole_range (it : bool) (u : string) (v w : Z) :
  0 <= v <= two63 ->
  sampleUnits_unit (if it then timeUnits else dateUnit) u v zero = Ok w ->
  0 <= w <= two63.
Proof.
  intros Hv. destruct (get (if it then timeUnits else dateUnit) u) as [unit|] eqn:Hget.
  - pose proof (table_unit_positive it u unit Hget) as Hpos.
    rewrite (sampleUnits_whole_exact _ _ unit v Hget Hpos)
      by (unfold two63, two64 in *; lia).
    destruct (Z.leb_spec (v * unit) two63); [|discriminate].
    intros [= <-]. nia.
  - now rewrite (sampleUnits_missing _ _ _ _ Hget).
Qed.

(** A whole number resolves to at most [1<<63], whatever the unit. *)
Lemma call_unit_whole_range (it : bool) (from from' : Time) (u : string)
    (v w : Z) :
  0 <= v <= two63 -> call_unit it from u v zero = (Ok w, from') ->
  0 <= w <= two63.
Proof.
  intros Hv. unfold call_unit, duration_unit. destruct it.
  - intros [= H _]. exact (sampleUnits_whole_range true u v w Hv H).
  - destruct (get dateUnit u) as [unit|] eqn:Hget.
    + intros [= H _]. exact (sampleUnits_whole_range false u v w Hv H).
    + unfold units. cbn [get].
      destruct (String.eqb u "M").
      * pose proof (resolve_range Months from v zero) as Hr. cbn [resolve] in Hr.
        cbv zeta. destruct (Z.gtb_spec (month from v zero) two63); [discriminate|].
        intros [= <- _]. lia.
      * destruct (String.eqb u "Y"); [|discriminate].
        pose proof (resolve_range Years from v zero) as Hr. cbn [resolve] in Hr.
        cbv zeta. destruct (Z.gtb_spec (year from v zero) two63); [discriminate|].
        intros [= <- _]. lia.
Qed.

Lemma leadingInt_range (s : string) (v : Z) (r : string) :
  leadingInt s = Ok (v, r) -> 0 <= v <= two63.
Proof.
  rewrite leadingInt_run.
  destruct (Z.leb_spec (dec_value (take (digit_run s) s)) two63); [|discriminate].
  intros [= <- _].
  pose proof (dec_value_bounds _ (digit_run_all_digits s)). lia.
Qed.

Lemma token_no_point (d : Z) (from : Time) (it : bool) (s : string)
    (st' : pstate) (s' : string) :
  has_byte "." s = false -> 0 <= d <= two63 ->
  token d from it s = Ok (st', s') ->
  0 <= acc st' <= two63 /\ has_byte "." s' = false.
Proof.
  intros Hs Hd. destruct s as [|c s0]; [discriminate|].
  unfold token. destruct (negb (dot_or_digit c)); [discriminate|].
  destruct (leadingInt (String c s0)) as [[v s1]|e| |] eqn:HL; try discriminate.
  pose proof (leadingInt_range _ _ _ HL) as Hv.
  apply leadingInt_rest in HL.
  assert (H1 : has_byte "." s1 = false) by (rewrite HL; now apply has_byte_skip).
  clear HL.
  assert (Hhead : match s1 with
                  | String c1 _ => (c1 =? ".")%char = false
                  | EmptyString => True
                  end).
  { destruct s1 as [|c1 s1']; [exact I|].
    cbn [has_byte] in H1. apply orb_false_iff in H1. tauto. }
  destruct s1 as [|c1 s1']; [|rewrite Hhead]; cbv iota beta;
    (destruct (_ && _); [discriminate|]); cbv zeta;
    match goal with
    | |- context [Nat.eqb (unit_end ?s) 0] =>
        destruct (Nat.eqb (unit_end s) 0); [discriminate|];
        destruct (call_unit it from (take (unit_end s) s) v zero)
          as [[w|e| |] from1] eqn:Hcall; try discriminate
    end;
    pose proof (call_unit_whole_range _ _ _ _ _ _ Hv Hcall) as Hw;
    change (0 >? 0) with false; cbv iota;
    rewrite (u64_small (two63 - w)) by (unfold two63, two64 in *; lia);
    (destruct (Z.gtb_spec d (two63 - w)); [discriminate|]);
    intros [= <- <-]; cbn [acc];
    rewrite u64_small by (unfold two63, two64 in *; lia);
    (split; [lia | first [now apply has_byte_skip | reflexivity]]).
Qed.

Lemma finish_range (neg : bool) (a d : Z) :
  0 <= a <= two63 -> finish neg a = Ok d ->
  if neg then - two63 <= d <= 0 else 0 <= d < two63.
Proof.
  intros Ha. unfold finish. destruct neg.
  - intros [= <-]. destruct (Z.eq_dec a two63) as [->|].
    + vm_compute. split; discriminate.
    + rewrite (i64_small a) by lia.
      destruct (Z.eq_dec a 0) as [->|]; [vm_compute; split; discriminate|].
      rewrite i64_neg by lia. lia.
  - destruct (Z.gtb_spec a (two63 - 1)); [discriminate|].
    intros [= <-]. rewrite i64_small by lia. lia.
Qed.

Lemma loop_no_point (fuel : nat) (neg : bool) (st : pstate) (s : string) (d : Z) :
  has_byte "." s = false -> 0 <= acc st <= two63 ->
  loop fuel neg st s = Ok d ->
  if neg then - two63 <= d <= 0 else 0 <= d < two63.
Proof.
  revert st s. induction fuel as [|fuel IH]; intros st s Hs Hacc.
  - destruct s; cbn [loop]; [now apply finish_range | discriminate].
  - destruct s as [|c s0]; cbn [loop]; [now apply finish_range|].
    destruct (turn st (String c s0)) as [[st' s']|e| |] eqn:Hturn;
      try discriminate.
    assert (Hnext : 0 <= acc st' <= two63 /\ has_byte "." s' = false).
    { unfold turn in Hturn. cbn [has_byte] in Hs. apply orb_false_iff in Hs.
      destruct (c =? "T")%char.
      - apply (token_no_point _ _ _ _ _ _ (proj2 Hs) Hacc Hturn).
      - apply (token_no_point _ _ _ (String c s0) _ _) in Hturn;
          [assumption | cbn [has_byte]; now apply orb_false_iff | assumption]. }
    destruct Hnext. now apply IH.
Qed.

(** X14. Without a point in the text the total cannot wrap around: the
    number in front of a unit resolves to at most [1<<63] or to an
    error, so the test [d > 1<<63-v] is sound in every turn, and a
    duration that [ParseDuration] returns has the sign of the text:
    between [-1<<63] and [0] for a text that begins with [-], and
    between [0] and [1<<63 - 1] otherwise. *)
Theorem no_point_keeps_sign (from : Time) (s : string) (d : Z) :
  has_byte "." s = false -> ParseDuration from s = Ok d ->
  if negative s then - two63 <= d <= 0 else 0 <= d < two63.
Proof.
  intros Hs. unfold ParseDuration, negative. destruct s as [|c s0]; [discriminate|].
  cbn [has_byte] in Hs. apply orb_false_iff in Hs. destruct Hs as [Hc Hs0].
  destruct (Ascii.eqb_spec c "-") as [->|Hm]; cbn [orb].
  - destruct s0 as [|c1 s1]; [discriminate|].
    destruct (negb (c1 =? "P")%char); [discriminate|].
    cbn [has_byte] in Hs0. apply orb_false_iff in Hs0.
    apply loop_no_point; [tauto | cbn [acc]; unfold two63; lia].
  - destruct (c =? "+")%char.
    + destruct s0 as [|c1 s1]; [discriminate|].
      destruct (negb (c1 =? "P")%char); [discriminate|].
      cbn [has_byte] in Hs0. apply orb_false_iff in Hs0.
      apply (loop_no_point _ false); [tauto | cbn [acc]; unfold two63; lia].
    + destruct (negb (c =? "P")%char); [discriminate|].
      apply (loop_no_point _ false); [assumption | cbn [acc]; unfold two63; lia].
Qed.

End NoPoint.

Section NoPointInstances.

Import UTC.

Lemma no_point_keeps_sign_witness :
  (has_byte "." "-P106751DT23H47M16S" = false /\
   ParseDuration zero_time "-P106751DT23H47M16S" = Ok (- 9223372036000000000)) /\
  - two63 <= - 9223372036000000000 <= 0.
Proof.
  assert (H1 : has_byte "." "-P106751DT23H47M16S" = false) by reflexivity.
  assert (H2 : ParseDuration zero_time "-P106751DT23H47M16S"
               = Ok (- 9223372036000000000)) by (vm_compute; reflexivity).
  exact (conj (conj H1 H2)
              (no_point_keeps_sign zero_time "-P106751DT23H47M16S" _ H1 H2)).
Defined.

End NoPointInstances.

(** ** Texts without a minus sign *)

Section Unsigned.

Context {rt : Runtime}.

Lemma loop_unsigned (fuel : nat) (st : pstate) (s : string) (d : Z) :
  0 <= acc st < two64 -> loop fuel false st s = Ok d -> 0 <= d < two63.
Proof.
  assert (Hfinish : forall a, 0 <= a < two64 -> finish false a = Ok d ->
                                0 <= d < two63).
  { intros a Ha. unfold finish.
    destruct (Z.gtb_spec a (two63 - 1)); [discriminate|].
    intros [= <-]. rewrite i64_small by lia. lia. }
  revert st s. induction fuel as [|fuel IH]; intros st s Hacc.
  - destruct s; cbn [loop]; [now apply Hfinish | discriminate].
  - destruct s as [|c s0]; cbn [loop]; [now apply Hfinish|].
    destruct (turn st (String c s0)) as [[st' s']|e| |] eqn:Hturn;
      try discriminate.
    apply IH. exact (turn_acc _ _ _ _ Hturn).
Qed.

(** X15. A duration that [ParseDuration] returns for a text that does
    not begin with [-] is never negative: it lies between [0] and
    [1<<63 - 1], whatever the turns of the loop have added up, because
    the test [d > 1<<63-1] after the loop is applied to the total as
    the [uint64] it is. The total may have wrapped around before, and
    is then returned as it is ([parse_wrapped_total]). *)
Theorem unsigned_text_never_negative (from : Time) (s : string) (d : Z) :
  negative s = false -> ParseDuration from s = Ok d -> 0 <= d < two63.
Proof.
  unfold ParseDuration, negative. destruct s as [|c s0]; [discriminate|].
  intros ->. cbn [orb]. destruct (c =? "+")%char.
  - destruct s0 as [|c1 s1]; [discriminate|].
    destruct (negb (c1 =? "P")%char); [discriminate|].
    apply loop_unsigned. cbn [acc]. unfold two64. lia.
  - destruct (negb (c =? "P")%char); [discriminate|].
    apply loop_unsigned. cbn [acc]. unfold two64. lia.
Qed.

End Unsigned.

Section UnsignedInstances.

Import UTC.

Lemma unsigned_text_never_negative_witness :
  (negative "+PT9223372036.854775807S" = false /\
   ParseDuration zero_time "+PT9223372036.854775807S" = Ok 9223372036854775807) /\
  0 <= 9223372036854775807 < two63.
Proof.
  assert (H1 : negative "+PT9223372036.854775807S" = false) by reflexivity.
  assert (H2 : ParseDuration zero_time "+PT9223372036.854775807S"
               = Ok 9223372036854775807) by (vm_compute; reflexivity).
  exact (conj (conj H1 H2)
              (unsigned_text_never_negative zero_time _ _ H1 H2)).
Defined.

(** Two tokens above [1<<63] each: the sum wraps around [1<<64] and
    what is left of it is returned, without an error. *)
Example parse_wrapped_total :
  ParseDuration zero_time "PT9223372036.9S9223372036.9S" = Ok 90448384.
Proof. vm_compute. reflexivity. Qed.

End UnsignedInstances.

(** ** A point with digits on one side *)

Section PointSides.

Context {rt : Runtime}.

Lemma leadingInt_no_digit (s : string) :
  no_digit_ahead s -> leadingInt s = Ok (0, s).
Proof.
  intros H. destruct s as [|c s]; [reflexivity|].
  unfold leadingInt. cbn [leadingInt_from]. cbn in H. now rewrite H.
Qed.

Lemma length_cons_eqb (c : ascii) (s : string) :
  Nat.eqb (String.length (String c s)) (String.length s) = false.
Proof. apply Nat.eqb_neq. simpl. lia. Qed.

(** A token that begins with the point: digits behind it only. *)
Lemma token_point_first (d : Z) (from : Time) (it : bool)
    (fs : string) (c : ascii) (unit : Z) :
  fixed_unit it c = Some unit ->
  all_digits fs = true -> (1 <= String.length fs <= 9)%nat -> 0 <= d <= two63 ->
  d + dec_value fs * (unit / 10 ^ Z.of_nat (String.length fs)) <= two63 ->
  token d from it (String "." (fs ++ String c ""))
    = Ok (PState (d + dec_value fs * (unit / 10 ^ Z.of_nat (String.length fs)))
                 from it, "").
Proof.
  intros Hunit Hfs Hlen Hd Hsum.
  destruct (fixed_unit_value _ _ _ Hunit) as (Hc & Hu).
  destruct (ends_unit_false c Hc) as (_ & Hnd & _).
  pose proof (fixed_unit_cases _ _ _ Hunit) as Hcases.
  destruct (fixed_quotient unit _ Hcases Hlen) as (Hq & _).
  pose proof (dec_value_bounds fs Hfs) as Hb.
  unfold token. change (dot_or_digit ".") with true. cbn [negb].
  rewrite leadingInt_no_digit by reflexivity.
  rewrite Nat.eqb_refl. change ("." =? ".")%char with true. cbv iota beta.
  unfold leadingFraction.
  rewrite leadingFraction_from_digits; try assumption; try lia;
    [|fold (dec_value fs); assert (10 ^ Z.of_nat (String.length fs) <= 10 ^ 9)
        by (apply Z.pow_le_mono_r; lia);
      change (10 ^ 9) with 1000000000 in *; unfold two63; lia].
  fold (dec_value fs).
  replace (Nat.eqb (String.length (fs ++ String c "")) (String.length (String c "")))
    with false
    by (symmetry; apply Nat.eqb_neq; rewrite length_append; simpl; lia).
  cbn [negb andb]. rewrite (unit_end_one c "" Hc I).
  cbn [Nat.eqb take skip].
  rewrite (call_unit_fixed _ _ _ unit) by assumption.
  destruct (Z.gtb_spec 0 (two63 / unit)) as [Hneg|_].
  { assert (0 <= two63 / unit) by (apply Z.div_pos; unfold two63; lia). lia. }
  rewrite Z.mul_0_l. change (u64 0) with 0. cbv zeta.
  destruct (Z.gtb_spec (dec_value fs) 0) as [Hpos|Hzero].
  - rewrite (call_unit_fixed_fraction it from c unit) by (assumption || lia).
    cbn [Z.add].
    set (r := dec_value fs * (unit / 10 ^ Z.of_nat (String.length fs))) in *.
    assert (0 <= r) by (subst r; nia).
    rewrite (u64_small r) by (unfold two63, two64 in *; lia).
    rewrite (u64_small (two63 - r)) by (unfold two63, two64 in *; lia).
    destruct (Z.gtb_spec d (two63 - r)); [lia|].
    now rewrite u64_small by (unfold two63, two64 in *; lia).
  - replace (dec_value fs) with 0 in * by lia.
    rewrite Z.mul_0_l, Z.add_0_r in *.
    change (u64 (two63 - 0)) with two63.
    destruct (Z.gtb_spec d two63); [lia|].
    now rewrite u64_small by (unfold two63, two64 in *; lia).
Qed.

(** A token that ends with the point: digits in front of it only. *)
Lemma token_point_last (d : Z) (from : Time) (it : bool)
    (ds : string) (c : ascii) (unit : Z) :
  fixed_unit it c = Some unit -> ds <> "" -> all_digits ds = true ->
  0 <= d -> d + dec_value ds * unit <= two63 ->
  token d from it (ds ++ String "." (String c ""))
    = Ok (PState (d + dec_value ds * unit) from it, "").
Proof.
  intros Hunit Hne Hds Hd Hsum.
  destruct (fixed_unit_value _ _ _ Hunit) as (Hc & Hu).
  destruct (ends_unit_false c Hc) as (_ & Hnd & _).
  pose proof (dec_value_bounds ds Hds) as Hb.
  set (n := dec_value ds) in *.
  destruct ds as [|c0 ds]; [contradiction|].
  assert (Hc0 : not_digit c0 = false).
  { cbn [all_digits] in Hds. apply andb_true_iff in Hds.
    now apply negb_true_iff. }
  unfold token. cbn [append]. rewrite (proj1 (digit_begins c0 Hc0)). cbn [negb].
  change (String c0 (ds ++ String "." (String c "")))
    with (String c0 ds ++ String "." (String c ""))%string.
  rewrite leadingInt_digits by (assumption || reflexivity).
  fold n. destruct (Z.leb_spec n two63); [|unfold two63 in *; nia].
  change ("." =? ".")%char with true. cbv iota beta.
  unfold leadingFraction. cbn [leadingFraction_from]. rewrite Hnd.
  rewrite Nat.eqb_refl.
  replace (Nat.eqb (String.length (String c0 ds ++ String "." (String c "")))
                   (String.length (String "." (String c "")))) with false
    by (symmetry; apply Nat.eqb_neq; rewrite length_append; simpl; lia).
  cbn [negb andb]. rewrite (unit_end_one c "" Hc I).
  cbn [Nat.eqb take skip].
  rewrite (call_unit_fixed _ _ _ unit) by assumption.
  destruct (Z.gtb_spec n (two63 / unit)) as [Hbig|_].
  { assert (n <= two63 / unit) by (apply Z.div_le_lower_bound; lia). lia. }
  rewrite (u64_small (n * unit)) by (unfold two63, two64 in *; nia).
  change (0 >? 0) with false. cbv zeta iota.
  rewrite (u64_small (two63 - n * unit)) by (unfold two63, two64 in *; nia).
  destruct (Z.gtb_spec d (two63 - n * unit)); [lia|].
  now rewrite u64_small by (unfold two63, two64 in *; nia).
Qed.

Lemma run_section (neg : bool) (from : Time) (it : bool) (c : ascii) (s : string) :
  (c =? "T")%char = false ->
  run neg (PState 0 from false) ((if it then "T" else "") ++ String c s)
    = match token 0 from it (String c s) with
      | Ok (st', s') => run neg st' s'
      | Err e => Err e
      | Panic => Panic
      | OutOfFuel => OutOfFuel
      end.
Proof.
  intros Hc. destruct it; cbn [append].
  - rewrite run_turn by discriminate. now rewrite turn_T.
  - rewrite run_turn by discriminate. unfold turn. rewrite Hc. reflexivity.
Qed.

(** X16. A number needs digits on one side of its point only. For a
    unit of fixed length, in its section of the text, [n.] stands for
    the whole number [n], and [.fs] with up to nine digits for the
    fraction alone; a point without any digit is an invalid duration. *)
Theorem point_needs_digits_on_one_side (from : Time) (it : bool) (c : ascii)
    (unit n : Z) (fs : string) :
  fixed_unit it c = Some unit ->
  0 <= n -> n * unit < two63 ->
  all_digits fs = true -> (1 <= String.length fs <= 9)%nat ->
  ParseDuration from
    ("P" ++ (if it then "T" else "") ++ decimal n ++ "." ++ String c "")
    = Ok (n * unit) /\
  ParseDuration from
    ("P" ++ (if it then "T" else "") ++ "." ++ fs ++ String c "")
    = Ok (dec_value fs * (unit / 10 ^ Z.of_nat (String.length fs))) /\
  ParseDuration from ("P" ++ (if it then "T" else "") ++ "." ++ String c "")
    = Err ErrInvalidDuration.
Proof.
  intros Hunit Hn Hsum Hfs Hlen.
  destruct (fixed_unit_value _ _ _ Hunit) as (Hc & Hu).
  destruct (ends_unit_false c Hc) as (Hdot & Hnd & HT).
  pose proof (fixed_unit_cases _ _ _ Hunit) as Hcases.
  destruct (fixed_quotient unit _ Hcases Hlen) as (Hq & Hmul).
  pose proof (dec_value_bounds fs Hfs) as Hb.
  assert (Hn64 : 0 <= n < two64) by (unfold two63, two64 in *; nia).
  destruct (decimal_cons n Hn64) as (c0 & r & Heq & Hc0).
  split; [|split].
  - change ("P" ++ (if it then "T" else "") ++ decimal n ++ "." ++ String c "")%string
      with (String "P" ((if it then "T" else "")
                        ++ decimal n ++ String "." (String c ""))).
    rewrite ParseDuration_P. rewrite Heq at 1. cbn [append].
    rewrite run_section by apply (digit_begins c0 Hc0).
    change (String c0 (r ++ String "." (String c "")))
      with (String c0 r ++ String "." (String c ""))%string.
    rewrite <- Heq.
    destruct (decimal_spec n Hn64) as (Hdig & Hval & Hne).
    rewrite (token_point_last 0 from it (decimal n) c unit);
      try assumption; try (rewrite Hval; lia); try lia.
    rewrite run_nil, Hval. cbn [acc Z.add]. apply finish_positive. nia.
  - change ("P" ++ (if it then "T" else "") ++ "." ++ fs ++ String c "")%string
      with (String "P" ((if it then "T" else "")
                        ++ String "." (fs ++ String c ""))).
    rewrite ParseDuration_P, run_section by reflexivity.
    assert (Hr : dec_value fs * (unit / 10 ^ Z.of_nat (String.length fs)) < unit)
      by nia.
    rewrite (token_point_first 0 from it fs c unit);
      try assumption; try (unfold two63 in *; lia).
    rewrite run_nil. cbn [acc Z.add]. apply finish_positive.
    unfold two63 in *. nia.
  - change ("P" ++ (if it then "T" else "") ++ "." ++ String c "")%string
      with (String "P" ((if it then "T" else "") ++ String "." (String c ""))).
    rewrite ParseDuration_P, run_section by reflexivity.
    unfold token. change (dot_or_digit ".") with true. cbn [negb].
    rewrite leadingInt_no_digit by reflexivity.
    rewrite Nat.eqb_refl. change ("." =? ".")%char with true. cbv iota beta.
    unfold leadingFraction. cbn [leadingFraction_from]. rewrite Hnd.
    rewrite Nat.eqb_refl. reflexivity.
Qed.

End PointSides.

Section PointInstances.

Import UTC.

Lemma point_needs_digits_on_one_side_witness :
  (fixed_unit true "H" = Some 3600000000000 /\
   0 <= 2 /\ 2 * 3600000000000 < two63 /\
   all_digits "25" = true /\ (1 <= String.length "25" <= 9)%nat) /\
  ParseDuration zero_time "PT2.H" = Ok (2 * Hour) /\
  ParseDuration zero_time "PT.25H" = Ok (15 * Minute) /\
  ParseDuration zero_time "PT.H" = Err ErrInvalidDuration.
Proof.
  assert (H1 : fixed_unit true "H" = Some 3600000000000) by reflexivity.
  assert (H2 : 0 <= 2) by lia.
  assert (H3 : 2 * 3600000000000 < two63) by (unfold two63; lia).
  assert (H4 : all_digits "25" = true) by reflexivity.
  assert (H5 : (1 <= String.length "25" <= 9)%nat) by (simpl; lia).
  exact (conj (conj H1 (conj H2 (conj H3 (conj H4 H5))))
              (point_needs_digits_on_one_side zero_time true "H"
                 3600000000000 2 "25" H1 H2 H3 H4 H5)).
Defined.

End PointInstances.

(** ** A number without a unit *)

Section NumberWithoutUnit.

Context {rt : Runtime}.

Lemma token_number_only (d : Z) (from : Time) (it : bool) (ds rest : string) :
  ds <> "" -> all_digits ds = true -> dec_value ds <= two63 ->
  rest = "" \/ (exists r, rest = String "T" r) ->
  token d from it (ds ++ rest) = Err ErrMissingUnit.
Proof.
  intros Hne Hds Hval Hrest.
  assert (Hnda : no_digit_ahead rest)
    by (destruct Hrest as [->|[r ->]]; reflexivity).
  destruct ds as [|c0 ds]; [contradiction|].
  assert (Hc0 : not_digit c0 = false).
  { cbn [all_digits] in Hds. apply andb_true_iff in Hds.
    now apply negb_true_iff. }
  unfold token. cbn [append]. rewrite (proj1 (digit_begins c0 Hc0)). cbn [negb].
  change (String c0 (ds ++ rest)) with (String c0 ds ++ rest)%string.
  rewrite leadingInt_digits by assumption.
  destruct (Z.leb_spec (dec_value (String c0 ds)) two63); [|lia].
  replace (Nat.eqb (String.length (String c0 ds ++ rest)) (String.length rest))
    with false
    by (symmetry; apply Nat.eqb_neq; rewrite length_append; simpl; lia).
  destruct Hrest as [->|[r ->]]; reflexivity.
Qed.

Lemma fixed_text_app_digit_ahead (it : bool) (toks : list fixed_token)
    (x : string) :
  Forall (fixed_token_ok it) toks -> fixed_total it toks <= two63 ->
  digit_ahead x -> digit_ahead (fixed_text toks ++ x).
Proof.
  intros Hoks Hsum Hx. destruct Hoks as [|tok toks Htok Hoks]; [exact Hx|].
  cbn [fixed_text]. rewrite append_assoc. apply digit_ahead_decimal.
  pose proof (fixed_value_lower it tok Htok) as Hlow.
  pose proof (fixed_total_nonneg it toks Hoks) as Ht.
  cbn [fixed_total fold_right] in Hsum. fold (fixed_total it toks) in Hsum.
  destruct Htok as (Hn & _). unfold two63, two64 in *. lia.
Qed.

(** X17. A number that no unit follows is reported as a missing unit
    wherever it stands: behind any tokens of units of fixed length that
    are within range, in front of the [T] or behind it, digits at the
    end of the text or in front of a [T] make [ParseDuration] fail with
    [ErrMissingUnit]. *)
Theorem number_without_unit (from : Time) (it : bool)
    (toks : list fixed_token) (ds rest : string) :
  Forall (fixed_token_ok it) toks -> fixed_total it toks <= two63 ->
  ds <> "" -> all_digits ds = true -> dec_value ds <= two63 ->
  rest = "" \/ (exists r, rest = String "T" r) ->
  ParseDuration from
    ("P" ++ (if it then "T" else "") ++ fixed_text toks ++ ds ++ rest)
    = Err ErrMissingUnit.
Proof.
  intros Hoks Hsum Hne Hds Hval Hrest.
  pose proof (fixed_total_nonneg it toks Hoks) as Ht.
  assert (Hd : digit_ahead (ds ++ rest)).
  { destruct ds as [|c0 ds]; [contradiction|].
    cbn [all_digits] in Hds. apply andb_true_iff in Hds.
    cbn. now apply negb_true_iff. }
  assert (Htime : digit_ahead (fixed_text toks ++ ds ++ rest))
    by now apply (fixed_text_app_digit_ahead it).
  assert (Hnumber : forall d st, run false (PState d st it) (ds ++ rest)
                                 = Err ErrMissingUnit).
  { intros d st.
    destruct ds as [|c0 ds0] eqn:Eds; [contradiction|]. cbn [append].
    rewrite run_turn by discriminate.
    cbn in Hd. rewrite turn_digit by exact Hd. cbn [acc ref in_time].
    change (String c0 (ds0 ++ rest)) with (String c0 ds0 ++ rest)%string.
    now rewrite token_number_only. }
  change ("P" ++ (if it then "T" else "") ++ fixed_text toks ++ ds ++ rest)%string
    with (String "P" ((if it then "T" else "") ++ fixed_text toks ++ ds ++ rest)).
  rewrite ParseDuration_P.
  assert (Hsection :
    run false (PState 0 from false)
        ((if it then "T" else "") ++ fixed_text toks ++ ds ++ rest)
      = run false (PState 0 from it) (fixed_text toks ++ ds ++ rest)).
  { destruct it; [|reflexivity].
    pose proof (run_T false 0 from false _ Htime) as H.
    destruct (fixed_text toks ++ ds ++ rest)%string as [|c1 r1] eqn:E.
    - apply (f_equal String.length) in E. rewrite !length_append in E.
      destruct ds; [contradiction | simpl in E; lia].
    - exact H. }
  rewrite Hsection.
  rewrite run_fixed_tokens; try assumption; try lia.
  - apply Hnumber.
  - now apply digit_ahead_ends_here.
Qed.

End NumberWithoutUnit.

Section NumberInstances.

Import UTC.

Lemma number_without_unit_witness :
  (Forall (fixed_token_ok true) [FixedToken 1 None "H"; FixedToken 30 None "M"] /\
   fixed_total true [FixedToken 1 None "H"; FixedToken 30 None "M"] <= two63 /\
   "15" <> "" /\ all_digits "15" = true /\ dec_value "15" <= two63 /\
   ("" = "" \/ (exists r, "" = String "T" r))) /\
  ParseDuration zero_time "PT1H30M15" = Err ErrMissingUnit.
Proof.
  assert (H1 : Forall (fixed_token_ok true)
                 [FixedToken 1 None "H"; FixedToken 30 None "M"]).
  { repeat constructor; cbn; (lia || discriminate). }
  assert (H2 : fixed_total true [FixedToken 1 None "H"; FixedToken 30 None "M"]
               <= two63) by (vm_compute; discriminate).
  assert (H3 : "15" <> "") by discriminate.
  assert (H4 : all_digits "15" = true) by reflexivity.
  assert (H5 : dec_value "15" <= two63) by (vm_compute; discriminate).
  assert (H6 : "" = "" \/ (exists r, "" = String "T" r)) by (left; reflexivity).
  exact (conj (conj H1 (conj H2 (conj H3 (conj H4 (conj H5 H6)))))
              (number_without_unit zero_time true _ "15" "" H1 H2 H3 H4 H5 H6)).
Defined.

End NumberInstances.

(** ** Overflow of whole numbers *)

Section WholeOverflow.

Context {rt : Runtime}.

Lemma whole_fixed_tokens_ok (it : bool) (toks : list fixed_token) :
  Forall (whole_fixed_token it) toks -> Forall (fixed_token_ok it) toks.
Proof. apply Forall_impl. now intros tok (H & _). Qed.

Lemma whole_text_ends_here (it : bool) (toks : list fixed_token) (rest : string) :
  Forall (whole_fixed_token it) toks -> ends_here rest ->
  ends_here (fixed_text toks ++ rest).
Proof.
  intros Hoks Hrest. destruct Hoks as [|tok toks Htok _]; [exact Hrest|].
  apply digit_ahead_ends_here. cbn [fixed_text]. rewrite append_assoc.
  apply digit_ahead_decimal.
  destruct Htok as ((Hn & _) & _ & Hmax). unfold two63, two64 in *. lia.
Qed.

(** The turn in which the total would pass [1<<63] fails with
    [ErrOverflow]. *)
Lemma run_whole_overflow (toks : list fixed_token) (neg : bool) (d : Z)
    (from : Time) (it : bool) (rest : string) :
  Forall (whole_fixed_token it) toks -> ends_here rest ->
  0 <= d <= two63 -> two63 < d + fixed_total it toks ->
  run neg (PState d from it) (fixed_text toks ++ rest) = Err ErrOverflow.
Proof.
  intros Hoks Hrest. revert d.
  induction Hoks as [|tok toks Htok Hoks IH]; intros d Hd Hsum.
  - cbn [fixed_total fold_right] in Hsum. lia.
  - cbn [fixed_text fixed_total fold_right] in *. fold (fixed_total it toks) in *.
    pose proof (whole_text_ends_here it toks rest Hoks Hrest) as Hnext.
    destruct Htok as (Hok & Hnone & Hmax).
    pose proof (fixed_value_nonneg it tok Hok) as Hv.
    assert (Hshape : forall a b c t,
              ((a ++ b ++ String c t) ++ rest)%string
                = (a ++ b ++ String c (t ++ rest))%string).
    { intros a b c t. now rewrite !append_assoc. }
    rewrite Hshape.
    destruct (Z.le_gt_cases (d + fixed_value it tok) two63) as [Hfits|Hover].
    + rewrite (run_fixed_token neg d from it tok) by (assumption || lia).
      apply IH; lia.
    + destruct Hok as (Hn & Hsome & _). unfold fixed_value in Hover, Hv.
      destruct (fixed_unit it (symbol tok)) as [unit|] eqn:Hunit; [|contradiction].
      destruct (fixed_unit_value _ _ _ Hunit) as (Hc & Hu).
      rewrite Hnone in *. cbn [append]. rewrite Z.add_0_r in *.
      set (n := number tok) in *. set (c := symbol tok) in *.
      assert (Hn64 : 0 <= n < two64) by (unfold two63, two64 in *; lia).
      destruct (decimal_spec n Hn64) as (Hdig & Hval & Hne).
      destruct (decimal_cons n Hn64) as (c0 & r & Heq & Hc0).
      rewrite run_turn by (rewrite Heq; discriminate).
      rewrite Heq at 1. cbn [append]. rewrite turn_digit by assumption.
      change (String c0 (r ++ String c (fixed_text toks ++ rest)))
        with (String c0 r ++ String c (fixed_text toks ++ rest))%string.
      rewrite <- Heq. cbn [acc ref in_time].
      rewrite token_whole; try assumption; [|rewrite Hval; lia].
      rewrite Hval, (call_unit_fixed _ _ _ unit) by assumption.
      destruct (Z.gtb_spec n (two63 / unit)) as [Hbig|Hsmall]; [reflexivity|].
      assert (Hprod : n * unit <= two63).
      { pose proof (Z.mul_div_le two63 unit ltac:(lia)).
        assert (n * unit <= two63 / unit * unit)
          by (apply Z.mul_le_mono_nonneg_r; lia).
        lia. }
      rewrite (u64_small (n * unit)) by (unfold two63, two64 in *; nia).
      rewrite (u64_small (two63 - n * unit)) by (unfold two63, two64 in *; nia).
      destruct (Z.gtb_spec d (two63 - n * unit)); [reflexivity|lia].
Qed.

(** Whole numbers of units of fixed length add up to whole seconds. *)
Lemma whole_total_seconds (it : bool) (toks : list fixed_token) :
  Forall (whole_fixed_token it) toks -> fixed_total it toks mod 1000000000 = 0.
Proof.
  induction 1 as [|tok toks Htok _ IH]; [reflexivity|].
  cbn [fixed_total fold_right]. fold (fixed_total it toks).
  rewrite Z.add_mod, IH, Z.add_0_r, Z.mod_mod by lia.
  destruct Htok as ((_ & Hsome & _) & Hnone & _). unfold fixed_value.
  destruct (fixed_unit it (symbol tok)) as [unit|] eqn:Hunit; [|contradiction].
  rewrite Hnone, Z.add_0_r.
  destruct (fixed_unit_cases _ _ _ Hunit) as [->|[->|[->| ->]]].
  - apply Z.mod_mul. lia.
  - replace (number tok * 60000000000)
      with (number tok * 60 * 1000000000) by lia. apply Z.mod_mul. lia.
  - replace (number tok * 3600000000000)
      with (number tok * 3600 * 1000000000) by lia. apply Z.mod_mul. lia.
  - replace (number tok * 86400000000000)
      with (number tok * 86400 * 1000000000) by lia. apply Z.mod_mul. lia.
Qed.

Lemma finish_cases (neg : bool) (a : Z) :
  0 <= a <= two63 ->
  finish neg a =
    if a <? two63 then Ok (if neg then - a else a)
    else if neg then Ok (- two63) else Err ErrOverflow.
Proof.
  intros Ha. destruct (Z.ltb_spec a two63) as [Hlt|Hge].
  - destruct neg.
    + apply finish_negate; [lia|]. apply finish_positive. lia.
    + apply finish_positive. lia.
  - replace a with two63 by lia. destruct neg; reflexivity.
Qed.

(** X18. For whole numbers in front of units of fixed length the
    overflow tests are exact. With [total] the sum of the numbers times
    their units, [D] in front of the [T] and [H], [M], [S] behind it,
    [ParseDuration] returns [total] with the sign of the text when
    [total] is below [1<<63], and [ErrOverflow] when it is not: no
    total wraps around, and none is accepted that an [int64] does not
    hold. *)
Theorem whole_tokens_overflow_exact (from : Time) (neg : bool)
    (ds ts : list fixed_token) :
  Forall (whole_fixed_token false) ds -> Forall (whole_fixed_token true) ts ->
  ParseDuration from
    ((if neg then "-" else "") ++ "P" ++ fixed_text ds ++
     match ts with [] => "" | _ => "T" ++ fixed_text ts end)
    = let total := fixed_total false ds + fixed_total true ts in
      if total <? two63 then Ok (if neg then - total else total)
      else Err ErrOverflow.
Proof.
  intros Hds Hts. cbv zeta.
  pose proof (whole_fixed_tokens_ok _ _ Hds) as Hds'.
  pose proof (whole_fixed_tokens_ok _ _ Hts) as Hts'.
  pose proof (fixed_total_nonneg false ds Hds') as Hd.
  pose proof (fixed_total_nonneg true ts Hts') as Ht.
  set (td := fixed_total false ds) in *. set (tt := fixed_total true ts) in *.
  pose proof (whole_total_seconds false ds Hds) as Hmd.
  pose proof (whole_total_seconds true ts Hts) as Hmt. fold td in Hmd. fold tt in Hmt.
  assert (Hdigit : digit_ahead (fixed_text ts)).
  { destruct Hts as [|tok ts0 Htok _]; [exact I|].
    cbn [fixed_text]. apply digit_ahead_decimal.
    destruct Htok as ((Hn & _) & _ & Hmax). unfold two63, two64 in *. lia. }
  assert (Hsame : match ts with [] => "" | _ => "T" ++ fixed_text ts end
                  = match fixed_text ts with
                    | EmptyString => ""
                    | _ => "T" ++ fixed_text ts
                    end).
  { destruct Hts as [|tok ts0 Htok _]; [reflexivity|].
    cbn [fixed_text].
    assert (Hn64 : 0 <= number tok < two64).
    { destruct Htok as ((Hn & _) & _ & Hmax). unfold two63, two64 in *. lia. }
    destruct (decimal_cons _ Hn64) as (c0 & r & -> & _). reflexivity. }
  assert (Hrest : ends_here (match fixed_text ts with
                             | EmptyString => ""
                             | _ => "T" ++ fixed_text ts
                             end))
    by (destruct (fixed_text ts); [exact I | reflexivity]).
  assert (Hrun : forall sign,
    run sign (PState 0 from false)
        (fixed_text ds ++ match ts with [] => "" | _ => "T" ++ fixed_text ts end)
      = if td + tt <? two63 then Ok (if sign then - (td + tt) else td + tt)
        else Err ErrOverflow).
  { intros sign. rewrite Hsame.
    assert (Hexpect : two63 < td + tt ->
              (if td + tt <? two63 then Ok (if sign then - (td + tt) else td + tt)
               else Err ErrOverflow) = Err ErrOverflow).
    { intros Hover. destruct (Z.ltb_spec (td + tt) two63); [lia|reflexivity]. }
    destruct (Z.le_gt_cases td two63) as [Hfits|Hover].
    - rewrite run_fixed_tokens; try assumption; try lia.
      rewrite run_T by assumption. cbn [Z.add].
      rewrite <- (append_nil_r (fixed_text ts)).
      destruct (Z.le_gt_cases (td + tt) two63) as [Hfits2|Hover2].
      + rewrite run_fixed_tokens; try assumption; try exact I; try lia.
        rewrite run_nil. cbn [acc]. rewrite finish_cases by lia. fold td tt.
        destruct (Z.ltb_spec (td + tt) two63); [reflexivity|].
        exfalso. assert (Heq : td + tt = two63) by lia.
        apply (f_equal (fun z => z mod 1000000000)) in Heq.
        rewrite Z.add_mod, Hmd, Hmt in Heq by lia.
        vm_compute in Heq. discriminate Heq.
      + rewrite run_whole_overflow; try assumption; try exact I; try lia.
        symmetry. now apply Hexpect.
    - rewrite run_whole_overflow; try assumption; try (unfold two63; lia).
      symmetry. apply Hexpect. lia. }
  destruct neg; cbn [append].
  - now rewrite ParseDuration_minus_P, Hrun.
  - now rewrite ParseDuration_P, Hrun.
Qed.

End WholeOverflow.

Section WholeOverflowInstances.

Import UTC.

Lemma whole_tokens_overflow_exact_witness :
  (Forall (whole_fixed_token false) [FixedToken 106751 None "D"] /\
   Forall (whole_fixed_token true)
     [FixedToken 23 None "H"; FixedToken 47 None "M"; FixedToken 17 None "S"]) /\
  ParseDuration zero_time "-P106751DT23H47M17S" = Err ErrOverflow.
Proof.
  assert (H1 : Forall (whole_fixed_token false) [FixedToken 106751 None "D"]).
  { repeat constructor; cbn; (lia || discriminate). }
  assert (H2 : Forall (whole_fixed_token true)
     [FixedToken 23 None "H"; FixedToken 47 None "M"; FixedToken 17 None "S"]).
  { repeat constructor; cbn; (lia || discriminate). }
  exact (conj (conj H1 H2)
              (whole_tokens_overflow_exact zero_time true _ _ H1 H2)).
Defined.

End WholeOverflowInstances.

(** ** The whole format *)

Section WholeFormat.

Context {rt : Runtime}.

Lemma run_fixed_sections (sign : bool) (d : Z) (from : Time)
    (ds ts : list fixed_token) :
  Forall (fixed_token_ok false) ds -> Forall (fixed_token_ok true) ts ->
  0 <= d -> d + fixed_total false ds + fixed_total true ts <= two63 ->
  run sign (PState d from false)
      (fixed_text ds ++ match ts with [] => "" | _ => "T" ++ fixed_text ts end)
    = finish sign (d + fixed_total false ds + fixed_total true ts).
Proof.
  intros Hds Hts Hd Hsum.
  pose proof (fixed_total_nonneg false ds Hds) as Hd0.
  pose proof (fixed_total_nonneg true ts Hts) as Ht0.
  assert (Hdigit : digit_ahead (fixed_text ts))
    by (apply (fixed_text_digit_ahead true); [assumption | lia]).
  assert (Hsame : match ts with [] => "" | _ => "T" ++ fixed_text ts end
                  = match fixed_text ts with
                    | EmptyString => ""
                    | _ => "T" ++ fixed_text ts
                    end).
  { destruct ts as [|tok ts']; [reflexivity|].
    inversion Hts as [|tok0 ts0 Htok Hoks]; subst.
    assert (Hn64 : 0 <= number tok < two64).
    { pose proof (fixed_value_lower true tok Htok).
      pose proof (fixed_total_nonneg true ts' Hoks).
      cbn [fixed_total fold_right] in Hsum. fold (fixed_total true ts') in Hsum.
      destruct Htok as (Hn & _). unfold two63, two64 in *. lia. }
    cbn [fixed_text].
    destruct (decimal_cons _ Hn64) as (c0 & r & -> & _). reflexivity. }
  rewrite Hsame.
  rewrite run_fixed_tokens; try assumption; try lia.
  - rewrite run_T by assumption.
    rewrite <- (append_nil_r (fixed_text ts)).
    rewrite run_fixed_tokens; try assumption; try exact I; try lia.
    now rewrite run_nil.
  - destruct (fixed_text ts); [exact I | reflexivity].
Qed.

(** X19. The format [P(n)Y(n)M(n)DT(n)H(n)M(n)S] as a whole: for month
    and year tokens, then day tokens, then a [T] and hour, minute and
    second tokens, [ParseDuration] returns, with the sign of the text,
    the sum of what the calendar tokens resolve to in turn from the
    reference instant ([total_tokens]) and of the values of the tokens
    of fixed length, as long as the sum is below [1<<63]. Each group may
    be empty and may hold its units in any order and number. *)
Theorem whole_format_adds_up (from : Time) (neg : bool)
    (cal : list cal_token) (ds ts : list fixed_token) :
  Forall token_ok cal ->
  Forall (fixed_token_ok false) ds -> Forall (fixed_token_ok true) ts ->
  total_tokens from cal + fixed_total false ds + fixed_total true ts < two63 ->
  ParseDuration from
    ((if neg then "-" else "") ++ "P" ++ render_tokens cal ++ fixed_text ds ++
     match ts with [] => "" | _ => "T" ++ fixed_text ts end)
    = Ok (if neg
          then - (total_tokens from cal + fixed_total false ds + fixed_total true ts)
          else total_tokens from cal + fixed_total false ds + fixed_total true ts).
Proof.
  intros Hcal Hds Hts Hsum.
  pose proof (total_tokens_nonneg cal from) as Hc0.
  pose proof (fixed_total_nonneg false ds Hds) as Hd0.
  pose proof (fixed_total_nonneg true ts Hts) as Ht0.
  assert (Hrest : ends_here
            (fixed_text ds ++ match ts with [] => "" | _ => "T" ++ fixed_text ts end)).
  { destruct ds as [|tok ds'].
    - cbn [fixed_text append]. destruct ts; [exact I | reflexivity].
    - apply digit_ahead_ends_here.
      inversion Hds as [|tok0 ds0 Htok Hoks]; subst.
      cbn [fixed_text]. rewrite !append_assoc. apply digit_ahead_decimal.
      pose proof (fixed_value_lower false tok Htok).
      pose proof (fixed_total_nonneg false ds' Hoks).
      cbn [fixed_total fold_right] in Hsum. fold (fixed_total false ds') in Hsum.
      destruct Htok as (Hn & _). unfold two63, two64 in *. lia. }
  assert (Hrun : forall sign,
    run sign (PState 0 from false)
        (render_tokens cal ++ fixed_text ds ++
         match ts with [] => "" | _ => "T" ++ fixed_text ts end)
      = finish sign
          (total_tokens from cal + fixed_total false ds + fixed_total true ts)).
  { intros sign. rewrite run_tokens; try assumption; try lia.
    rewrite Z.add_0_l. apply run_fixed_sections; try assumption; lia. }
  destruct neg; cbn [append].
  - rewrite ParseDuration_minus_P, Hrun.
    apply finish_negate; [lia|]. apply finish_positive. lia.
  - rewrite ParseDuration_P, Hrun. apply finish_positive. lia.
Qed.

End WholeFormat.

Section WholeFormatInstances.

Import UTC.

Lemma whole_format_adds_up_witness :
  (Forall token_ok [CalToken 1 None Years; CalToken 2 None Months] /\
   Forall (fixed_token_ok false) [FixedToken 3 None "D"] /\
   Forall (fixed_token_ok true)
     [FixedToken 4 None "H"; FixedToken 5 None "M"; FixedToken 6 (Some "5") "S"] /\
   total_tokens zero_time [CalToken 1 None Years; CalToken 2 None Months]
   + fixed_total false [FixedToken 3 None "D"]
   + fixed_total true
       [FixedToken 4 None "H"; FixedToken 5 None "M"; FixedToken 6 (Some "5") "S"]
     < two63) /\
  ParseDuration zero_time "P1Y2M3DT4H5M6.5S" = Ok 36907506500000000.
Proof.
  assert (H1 : Forall token_ok [CalToken 1 None Years; CalToken 2 None Months]).
  { repeat constructor; cbn; unfold two63; lia. }
  assert (H2 : Forall (fixed_token_ok false) [FixedToken 3 None "D"]).
  { repeat constructor; cbn; (lia || discriminate). }
  assert (H3 : Forall (fixed_token_ok true)
     [FixedToken 4 None "H"; FixedToken 5 None "M"; FixedToken 6 (Some "5") "S"]).
  { repeat constructor; cbn; (lia || discriminate). }
  assert (H4 : total_tokens zero_time [CalToken 1 None Years; CalToken 2 None Months]
   + fixed_total false [FixedToken 3 None "D"]
   + fixed_total true
       [FixedToken 4 None "H"; FixedToken 5 None "M"; FixedToken 6 (Some "5") "S"]
     < two63) by (vm_compute; reflexivity).
  exact (conj (conj H1 (conj H2 (conj H3 H4)))
              (whole_format_adds_up zero_time false _ _ _ H1 H2 H3 H4)).
Defined.

End WholeFormatInstances.


